(** * Email-Finder: a shallow embedding of [standalone_lead_email_finder.py]

  The development follows the source file top to bottom: Python string
  primitives, the blacklist and the e-mail pattern, [sanitize_url],
  [SearXNGClient.search], [extract_emails_from_text],
  [filter_blacklisted_emails] and [find_emails_logic].

  Conventions.
  - A Python [str] is a [string]; its characters are the code points
    below 256, and the string primitives below behave on them as
    CPython's do ([lower], whitespace, ordering by code point).
  - [Optional[str]] is [option string]; a Python [Set[str]] is a
    [gset string]; iteration over a set is iteration over [elements].
  - A call that may raise returns an [option]; [None] is the exception.
  - The network is an oracle: the search backend answers the n-th
    request of a run, and the functions that search thread the number
    of requests made. *)

From Stdlib Require Import String Ascii NArith List Bool Arith Lia DecimalString.
From Stdlib Require Import Sorting.Sorted Permutation.
From stdpp Require Import base decidable option list sorting gmap strings.

Import ListNotations.
Local Open Scope string_scope.
Local Open Scope list_scope.

(** ** Characters *)

Module Char.

Definition code (c : ascii) : N := N_of_ascii c.

Definition in_range (lo hi : N) (c : ascii) : bool :=
  ((lo <=? code c) && (code c <=? hi))%N.

Definition is_char (x c : ascii) : bool := Ascii.eqb x c.

(** [c.isdigit()] as used by [\d]: the decimal digits. *)
Definition is_digit (c : ascii) : bool := in_range 48 57 c.

(** [[a-zA-Z]] *)
Definition is_alpha (c : ascii) : bool :=
  in_range 65 90 c || in_range 97 122 c.

(** [[a-zA-Z0-9]] *)
Definition is_alnum (c : ascii) : bool := is_alpha c || is_digit c.

(** Characters with an upper-case form below code point 256: [A-Z] and
    the accented capitals U+00C0..U+00DE (U+00D7 is the times sign). *)
Definition is_upper (c : ascii) : bool :=
  in_range 65 90 c || (in_range 192 222 c && negb (code c =? 215)%N).

(** [c.lower()] *)
Definition lower (c : ascii) : ascii :=
  if is_upper c then ascii_of_N (code c + 32) else c.

(** [c.isspace()]: TAB..CR, FS..US, space, NEL and NBSP. *)
Definition is_space (c : ascii) : bool :=
  in_range 9 13 c || in_range 28 32 c
  || (code c =? 133)%N || (code c =? 160)%N.

End Char.

(** ** Python string primitives *)

Module Str.

Fixpoint lower (s : string) : string :=
  match s with
  | EmptyString => EmptyString
  | String c s' => String (Char.lower c) (lower s')
  end.

(** [c in s] for a one-character [c]. *)
Fixpoint contains (c : ascii) (s : string) : bool :=
  match s with
  | EmptyString => false
  | String x s' => Ascii.eqb x c || contains c s'
  end.

(** [s.count(c)] for a one-character [c]. *)
Fixpoint count (c : ascii) (s : string) : nat :=
  match s with
  | EmptyString => 0
  | String x s' => (if Ascii.eqb x c then 1 else 0) + count c s'
  end.

Fixpoint forallb (p : ascii -> bool) (s : string) : bool :=
  match s with
  | EmptyString => true
  | String x s' => p x && forallb p s'
  end.

Definition is_empty (s : string) : bool :=
  match s with EmptyString => true | _ => false end.

(** [bool(s)] *)
Definition truthy (s : string) : bool := negb (is_empty s).

(** [s.startswith(p)] *)
Definition startswith (p s : string) : bool := String.prefix p s.

(** [s.startswith((p1, p2, ...))] *)
Definition startswith_any (ps : list string) (s : string) : bool :=
  existsb (fun p => startswith p s) ps.

(** [s[n:]] *)
Fixpoint drop (n : nat) (s : string) : string :=
  match n, s with
  | S k, String _ s' => drop k s'
  | _, _ => s
  end.

(** The longest prefix of [s] whose characters satisfy [p], and the rest. *)
Fixpoint span (p : ascii -> bool) (s : string) : string * string :=
  match s with
  | EmptyString => (EmptyString, EmptyString)
  | String c s' =>
      if p c then let '(a, b) := span p s' in (String c a, b)
      else (EmptyString, s)
  end.

(** [s.lstrip(chars)], the stripped characters given as a predicate. *)
Definition lstrip_by (p : ascii -> bool) (s : string) : string :=
  snd (span p s).

(** [s.rstrip(chars)] *)
Fixpoint rstrip_by (p : ascii -> bool) (s : string) : string :=
  match s with
  | EmptyString => EmptyString
  | String c s' =>
      let r := rstrip_by p s' in
      if is_empty r && p c then EmptyString else String c r
  end.

(** [s.strip()] *)
Definition strip (s : string) : string :=
  rstrip_by Char.is_space (lstrip_by Char.is_space s).

(** [s.split(sep)] for a one-character separator: never empty. *)
Fixpoint split (sep : ascii) (s : string) : list string :=
  match s with
  | EmptyString => [EmptyString]
  | String c s' =>
      if Ascii.eqb c sep then EmptyString :: split sep s'
      else match split sep s' with
           | [] => [String c EmptyString]
           | h :: t => String c h :: t
           end
  end.

(** [s.split(sep, 1)]: cut at the first separator only. *)
Fixpoint split1 (sep : ascii) (s : string) : list string :=
  match s with
  | EmptyString => [EmptyString]
  | String c s' =>
      if Ascii.eqb c sep then [EmptyString; s']
      else match split1 sep s' with
           | h :: t => String c h :: t
           | [] => [String c EmptyString]
           end
  end.

(** [s.split()]: the maximal runs of non-whitespace characters. *)
Fixpoint split_ws_from (cur : string) (s : string) : list string :=
  match s with
  | EmptyString => if is_empty cur then [] else [cur]
  | String c s' =>
      if Char.is_space c
      then (if is_empty cur then split_ws_from EmptyString s'
            else cur :: split_ws_from EmptyString s')
      else split_ws_from (cur +:+ String c EmptyString) s'
  end.

Definition split_ws (s : string) : list string :=
  split_ws_from EmptyString s.

(** [s.replace(old, new)] for a non-empty [old]: the occurrences are
    replaced left to right without overlap; [skip] counts the characters
    of a replaced occurrence that are still to be passed over. *)
Fixpoint replace_from (old new : string) (skip : nat) (s : string) : string :=
  match s with
  | EmptyString => EmptyString
  | String c s' =>
      match skip with
      | S k => replace_from old new k s'
      | O =>
          if String.prefix old s
          then new +:+ replace_from old new (String.length old - 1) s'
          else String c (replace_from old new 0 s')
      end
  end.

Definition replace (old new s : string) : string :=
  replace_from old new 0 s.

(** [a < b] on [str]: lexicographic on code points.  ([a <= b] is the
    library's [String.le].) *)
Definition lt (a b : string) : Prop := String.ltb a b = true.

End Str.

(** [l[-1]] on a list; [None] is [IndexError]. *)
Fixpoint last_item {A} (l : list A) : option A :=
  match l with
  | [] => None
  | [x] => Some x
  | _ :: l' => last_item l'
  end.

(** The double-quote character, and a text between double quotes. *)
Definition dquote : string := String (ascii_of_N 34) EmptyString.

Definition quoted (s : string) : string := dquote +:+ s +:+ dquote.

(** [s[0]] of a non-empty string, as a string. *)
Definition head1 (s : string) : string :=
  match s with
  | String c _ => String c EmptyString
  | EmptyString => EmptyString
  end.

(** [x or d] on an [Optional[str]]. *)
Definition or_else (x : option string) (d : string) : string :=
  match x with
  | Some v => if Str.truthy v then v else d
  | None => d
  end.

(** [bool(x)] on an [Optional[str]]. *)
Definition truthy_opt (x : option string) : bool :=
  match x with
  | Some v => Str.truthy v
  | None => false
  end.

(** [sorted(l)] on a list of strings.  Python's sort orders by [<]; on
    strings the order is total, so the result is the ascending arrangement
    of [l], which the merge sort computes. *)
Definition sorted (l : list string) : list string := merge_sort String.le l.

(** [set(l)] and [list(set(l))] *)
Definition pyset (l : list string) : gset string := list_to_set l.

Definition list_set (l : list string) : list string := elements (pyset l).

(** ** Configuration constants *)

Definition BLACKLISTED_DOMAINS : gset string :=
  pyset [
    "email-format.com"; "rocketreach.co"; "hunter.io"; "clearbit.com"; "apollo.io";
    "emailhippo.com"; "mailcheck.ai"; "verify-email.org"; "email-checker.net";
    "findemails.com"; "findthat.email"; "skymem.info"; "anymail.com"; "snov.io";
    "thatsthem.com"; "emailfinder.io"; "aol.com"; "gmail.com"; "googlemail.com";
    "hotmail.com"; "msn.com"; "live.com"; "yahoo.com"; "outlook.com";
    "gmx.com"; "mail.com"; "example.com"; "wix.com"; "squarespace.com"; "godaddy.com";
    "protobuf.com"; "zoho.com"; "yandex.com"; "protonmail.com"; "github.com";
    "icloud.com"; "privaterelay.appleid.com"; "linkedin.com"; "facebook.com"; "twitter.com";
    "instagram.com"; "support.com"; "service.com"; "info.com"; "mail.com";
    ".info"; ".xyz"; ".online"; ".club"; ".site"; ".live"
  ].

Definition PAGES_PER_QUERY : nat := 2.

(** ** Regular expressions

    The e-mail pattern of the source is a sequence of single characters
    and greedy repetitions of a character class.  [match_here] is the
    backtracking matcher of [re] on such sequences: a repetition first
    takes the longest run and gives characters back one at a time. *)

Module Regex.

Inductive item :=
| One (cls : ascii -> bool)                (* one character of the class *)
| Many (min : nat) (cls : ascii -> bool).  (* [cls]{min,}, greedy *)

Definition pattern := list item.

(** [s[:n]] *)
Fixpoint take (n : nat) (s : string) : string :=
  match n, s with
  | S k, String c s' => String c (take k s')
  | _, _ => EmptyString
  end.

(** Try the continuation after [n] characters, then [n-1], ... down to [min]. *)
Fixpoint backoff (cont : string -> option (string * string))
    (min n : nat) (s : string) : option (string * string) :=
  if Nat.ltb n min then None
  else match cont (Str.drop n s) with
       | Some (m, r) => Some (take n s +:+ m, r)
       | None =>
           match n with
           | O => None
           | S n' => backoff cont min n' s
           end
       end.

(** A match of [p] at the start of [s]: the matched text and the rest. *)
Fixpoint match_here (p : pattern) (s : string) : option (string * string) :=
  match p with
  | [] => Some (EmptyString, s)
  | One cls :: p' =>
      match s with
      | String c s' =>
          if cls c
          then match match_here p' s' with
               | Some (m, r) => Some (String c m, r)
               | None => None
               end
          else None
      | EmptyString => None
      end
  | Many min cls :: p' =>
      backoff (match_here p') min (String.length (fst (Str.span cls s))) s
  end.

(** [p.findall(s)] for a pattern without groups that matches no empty
    string: the matches found scanning left to right, each search
    resuming where the previous match ended. *)
Fixpoint findall_from (p : pattern) (skip : nat) (s : string) : list string :=
  match s with
  | EmptyString => []
  | String _ s' =>
      match skip with
      | S k => findall_from p k s'
      | O =>
          match match_here p s with
          | Some (m, _) => m :: findall_from p (String.length m - 1) s'
          | None => findall_from p 0 s'
          end
      end
  end.

Definition findall (p : pattern) (s : string) : list string :=
  findall_from p 0 s.

(** The texts a pattern describes. *)
Fixpoint denotes (p : pattern) (m : string) : Prop :=
  match p with
  | [] => m = EmptyString
  | One cls :: p' =>
      exists c m', m = String c m' /\ cls c = true /\ denotes p' m'
  | Many min cls :: p' =>
      exists a m', m = a +:+ m' /\ Str.forallb cls a = true
                   /\ min <= String.length a /\ denotes p' m'
  end.

End Regex.

(** [[a-zA-Z0-9._%+-]] *)
Definition local_char (c : ascii) : bool :=
  Char.is_alnum c || Str.contains c "._%+-".

(** [[a-zA-Z0-9.-]] *)
Definition domain_char (c : ascii) : bool :=
  Char.is_alnum c || Str.contains c ".-".

(** [[a-zA-Z0-9._%+-]+@[a-zA-Z0-9.-]+\.[a-zA-Z]{2,}] *)
Definition EMAIL_REGEX : Regex.pattern :=
  [ Regex.Many 1 local_char; Regex.One (Char.is_char "@");
    Regex.Many 1 domain_char; Regex.One (Char.is_char ".");
    Regex.Many 2 Char.is_alpha ].

(** ** [urllib.parse] *)

Module Urllib.

Definition hex_digit (n : N) : ascii :=
  if (n <? 10)%N then ascii_of_N (48 + n) else ascii_of_N (55 + n).

(** [%XX] for one byte. *)
Definition percent (b : N) : string :=
  String "%" (String (hex_digit (b / 16)) (String (hex_digit (b mod 16)) EmptyString)).

(** UTF-8 encoding of a code point below 256. *)
Definition utf8 (c : ascii) : list N :=
  let n := Char.code c in
  if (n <? 128)%N then [n] else [192 + n / 64; 128 + n mod 64]%N.

Definition always_safe (c : ascii) : bool :=
  Char.is_alnum c || Str.contains c "_.-~".

Definition quote_char (c : ascii) : string :=
  if always_safe c then String c EmptyString
  else if Ascii.eqb c " " then "+"
  else String.concat EmptyString (List.map percent (utf8 c)).

(** [quote_plus(s)] *)
Fixpoint quote_plus (s : string) : string :=
  match s with
  | EmptyString => EmptyString
  | String c s' => quote_char c +:+ quote_plus s'
  end.

(** Characters [urlsplit] strips from the front, and removes anywhere. *)
Definition c0_control_or_space (c : ascii) : bool := Char.in_range 0 32 c.

Definition unsafe_url_byte (c : ascii) : bool :=
  (Char.code c =? 9)%N || (Char.code c =? 13)%N || (Char.code c =? 10)%N.

Fixpoint remove_chars (p : ascii -> bool) (s : string) : string :=
  match s with
  | EmptyString => EmptyString
  | String c s' => if p c then remove_chars p s' else String c (remove_chars p s')
  end.

Definition scheme_char (c : ascii) : bool :=
  Char.is_alnum c || Str.contains c "+-.".

(** The scheme split of [urlsplit]: with [i = url.find(':')], the text
    after the colon when [i > 0], [url[0]] is an ASCII letter and
    [url[:i]] consists of scheme characters; [url] otherwise. *)
Definition strip_scheme (url : string) : string :=
  let '(pre, rest) := Str.span (fun c => negb (Ascii.eqb c ":")) url in
  match pre, rest with
  | String c0 _, String _ rest' =>
      if Char.is_alpha c0 && Str.forallb scheme_char pre then rest' else url
  | _, _ => url
  end.

(** [_splitnetloc(url, 2)[0]]: from index 2 up to the first of [/?#]. *)
Definition splitnetloc (url : string) : string :=
  fst (Str.span (fun c => negb (Str.contains c "/?#")) (Str.drop 2 url)).

Section Netloc.

(** The validation of a netloc that holds both brackets, an IPv6 or
    IPvFuture literal ([false]: [ValueError]).  It is done by
    [_check_bracketed_netloc] or [_check_bracketed_host] with the
    [ipaddress] module, differs between CPython versions, and is left
    open; CPython before 3.11.4 accepts every such netloc. *)
Variable check_bracketed_netloc : string -> bool.

(** [urlparse(url).netloc]; [None] when [urlparse] raises [ValueError].
    ([_checknetloc] never raises on code points below 256: none of them
    normalises under NFKC to a text with one of [/?#@:].) *)
Definition urlparse_netloc (url : string) : option string :=
  let url := Str.lstrip_by c0_control_or_space url in
  let url := remove_chars unsafe_url_byte url in
  let url := strip_scheme url in
  if Str.startswith "//" url then
    let netloc := splitnetloc url in
    let lb := Str.contains "[" netloc in
    let rb := Str.contains "]" netloc in
    if (lb && negb rb) || (rb && negb lb) then None
    else if lb && rb then
      if check_bracketed_netloc netloc then Some netloc else None
    else Some netloc
  else Some EmptyString.

End Netloc.

End Urllib.

(** ** [sanitize_url] *)

Definition newline : string := String (ascii_of_N 10) EmptyString.

(** [\d+$] at the start of [s]: one or more digits that reach the end of
    the string or a final newline; the result is what follows the digits. *)
Definition digits_to_end (s : string) : option string :=
  let '(ds, rest) := Str.span Char.is_digit s in
  if Str.is_empty ds then None
  else if Str.is_empty rest || String.eqb rest newline then Some rest
  else None.

(** [re.sub(r':\d+$', '', s)]: the leftmost match is removed; there is at
    most one, since a match extends to the end of the string. *)
Fixpoint remove_port (s : string) : string :=
  match s with
  | EmptyString => EmptyString
  | String c s' =>
      if Ascii.eqb c ":" then
        match digits_to_end s' with
        | Some rest => rest
        | None => String c (remove_port s')
        end
      else String c (remove_port s')
  end.

(** Whether [s] ends in a port, that is, has a match of [:\d+$]. *)
Definition has_port (s : string) : bool :=
  negb (String.eqb (remove_port s) s).

(** [len(domain.split('.')[-1])] *)
Definition last_label_length (domain : string) : nat :=
  match last_item (Str.split "." domain) with
  | Some l => String.length l
  | None => 0
  end.

Section Pipeline.

Variable check_bracketed_netloc : string -> bool.

(** [domain[4:]] when [domain.lower().startswith('www.')] *)
Definition strip_www (domain : string) : string :=
  if Str.startswith "www." (Str.lower domain) then Str.drop 4 domain
  else domain.

(** The part of [sanitize_url] after [urlparse]: from the authority to
    the domain. *)
Definition sanitize_netloc (domain : string) : option string :=
  if Str.is_empty domain then None
  else
    let domain := strip_www domain in
    let domain := remove_port domain in
    if negb (Str.contains "." domain) || Nat.ltb (last_label_length domain) 2
    then None
    else Some (Str.lower domain).

(** [url] with [https://] put in front unless it starts with a scheme
    or with two slashes. *)
Definition with_scheme (url : string) : string :=
  if Str.startswith_any ["http://"; "https://"; "//"] url then url
  else "https://" +:+ url.

Definition sanitize_url (url : string) : option string :=
  if negb (Str.truthy (Str.strip url)) then None
  else
    let url := with_scheme url in
    match Urllib.urlparse_netloc check_bracketed_netloc url with
    | None => None                          (* except Exception *)
    | Some domain => sanitize_netloc domain
    end.

(** ** [SearXNGClient] *)

(** One entry of the [results] array: an object with optional [title] and
    [content] strings ([None]: absent or null), or a value that is no
    object, on which [result.get] raises. *)
Inductive hit :=
| Hit (title content : option string)
| NotAnObject.

(** What one [session.get] and the decoding of its body come to. *)
Inductive response :=
| Page (results : list hit)   (* 200 and a JSON object; [results] absent or null is [[]] *)
| Timeout                     (* requests.exceptions.Timeout *)
| RequestError                (* any other RequestException, a bad status included *)
| JSONDecodeError             (* the body is no JSON *)
| Unexpected.                 (* any other exception before the first hit is read *)

(** The search backend: the answer to the [n]-th request of the run, by
    the requested URL. *)
Definition backend := nat -> string -> response.

Variable http_get : backend.

(** [SearXNGClient.__init__]: the stored base URL, [None] on [ValueError]. *)
Definition SearXNGClient (base_url : string) : option string :=
  if negb (Str.truthy base_url)
     || negb (Str.startswith_any ["http://"; "https://"] base_url)
  then None
  else Some (Str.rstrip_by (Char.is_char "/") base_url).

Definition search_url (base_url query : string) (page : nat) : string :=
  base_url +:+ "/search?q=" +:+ Urllib.quote_plus query
  +:+ "&format=json&pageno=" +:+ NilEmpty.string_of_uint (Nat.to_uint page).

(** The text appended for one hit: title, newline, content, two newlines,
    with an absent, null or empty field read as the empty string. *)
Definition hit_text (title content : option string) : string :=
  or_else title EmptyString +:+ newline
  +:+ or_else content EmptyString +:+ newline +:+ newline.

(** The [for result in page_results] loop: the text with the hits
    appended, and whether the loop completed ([false]: an entry raised). *)
Fixpoint append_hits (results : list hit) (text : string) : string * bool :=
  match results with
  | [] => (text, true)
  | Hit title content :: rest =>
      append_hits rest (text +:+ hit_text title content)
  | NotAnObject :: _ => (text, false)
  end.

(** The text aggregated from a sequence of pages of hits. *)
Definition aggregate (pages : list (list hit)) : string :=
  fold_left (fun text page => fst (append_hits page text)) pages EmptyString.

Definition is_object (h : hit) : bool :=
  match h with
  | Hit _ _ => true
  | NotAnObject => false
  end.

(** The [while page <= max_pages] loop of [search], from the state
    ([page], [all_results_text]) and with [n] requests made so far; every
    round ends the loop or moves to the next page, so [fuel] rounds are
    enough when [fuel + page > max_pages]. *)
Fixpoint search_loop (base_url query : string) (max_pages fuel page : nat)
    (all_results_text : string) (n : nat) : string * nat :=
  match fuel with
  | O => (all_results_text, n)
  | S fuel' =>
      if Nat.leb page max_pages then
        match http_get n (search_url base_url query page) with
        | Page page_results =>
            match page_results with
            | _ :: _ =>
                match append_hits page_results all_results_text with
                | (text, true) =>
                    search_loop base_url query max_pages fuel' (S page) text (S n)
                | (text, false) => (text, S n)
                end
            | [] => (all_results_text, S n)
            end
        | Timeout | RequestError | JSONDecodeError | Unexpected =>
            (all_results_text, S n)
        end
      else (all_results_text, n)
  end.

(** [SearXNGClient.search]: the aggregated text and the request count. *)
Definition search (base_url query : string) (max_pages : nat) (n : nat)
  : string * nat :=
  search_loop base_url query max_pages max_pages 1 EmptyString n.

Definition search_web_standalone_text
    (query searx_base_url : string) (pages : nat) (n : nat) : string * nat :=
  if negb (Str.truthy searx_base_url) then (EmptyString, n)
  else match SearXNGClient searx_base_url with
       | Some base_url => search base_url query pages n
       | None => (EmptyString, n)           (* except ValueError *)
       end.

(** ** Extraction and filtering *)

Definition extract_emails_from_text (text : string) : gset string :=
  if negb (Str.truthy text) then ∅
  else pyset (List.map Str.lower (Regex.findall EMAIL_REGEX text)).

(** [a, b = parts]: exactly two items, [ValueError] otherwise. *)
Definition unpack2 (parts : list string) : option (string * string) :=
  match parts with
  | [a; b] => Some (a, b)
  | _ => None
  end.

(** [target_domain.lower() if target_domain else None] *)
Definition normalize_target (target_domain : option string) : option string :=
  match target_domain with
  | Some t => if Str.truthy t then Some (Str.lower t) else None
  | None => None
  end.

(** The body of the filter loop for one candidate: [true] when it is
    appended to [valid_emails].  The [ValueError] of the unpacking is
    caught in the body and the candidate skipped. *)
Definition keeps (normalized_target_domain : option string) (email : string) : bool :=
  match unpack2 (Str.split1 "@" email) with
  | None => false
  | Some (_, domain_part) =>
      if decide (domain_part ∈ BLACKLISTED_DOMAINS) then false
      else if truthy_opt normalized_target_domain
              && negb (bool_decide (Some domain_part = normalized_target_domain))
      then false
      else true
  end.

Definition filter_blacklisted_emails
    (emails : gset string) (target_domain : option string) : list string :=
  let normalized_target_domain := normalize_target target_domain in
  let valid_emails :=
    List.filter (keeps normalized_target_domain) (elements emails) in
  sorted (list_set valid_emails).

(** ** [find_emails_logic] *)

(** The keyword arguments of [template.format(name=, domain=, search_name=)]. *)
Record format_args := {
  kw_name : string;
  kw_domain : string;
  kw_search_name : string
}.

Definition prepend (p : string) (r : option string) : option string :=
  match r with
  | Some s => Some (p +:+ s)
  | None => None
  end.

(** What [str.format] puts in place of a replacement field, given the
    keyword arguments and the text between the braces of the field.  For
    the three plain fields it is the argument's value; every other field
    (a conversion such as [!r], a format specification, an attribute or
    an index, an unknown or a positional name) is rendered by Python's
    object model, and is left open here ([None]: [str.format] raises). *)
Definition field_oracle : Type := format_args -> string -> option string.

Variable format_field : field_oracle.

(** Where the scan of a replacement field is: in the field name, in an
    index after a bracket, after the exclamation mark, after the
    conversion character, or in the format specification, inside [depth]
    nested pairs of braces. *)
Inductive field_state :=
| InName
| InIndex
| AfterBang
| AfterConversion
| InSpec (depth : nat).

(** [parse_field], from the character after the opening brace: the text
    of the field up to its closing brace; [None] when the field is
    malformed ([ValueError]: a brace in the field name, no closing brace,
    no conversion character, or something else than a colon after it). *)
Fixpoint field_end (st : field_state) (s : string) : option string :=
  match s with
  | EmptyString => None
  | String c s' =>
      match st with
      | InName =>
          if Ascii.eqb c "{" then None
          else if Ascii.eqb c "}" then Some EmptyString
          else if Ascii.eqb c "[" then option_map (String c) (field_end InIndex s')
          else if Ascii.eqb c ":" then option_map (String c) (field_end (InSpec 0) s')
          else if Ascii.eqb c "!" then option_map (String c) (field_end AfterBang s')
          else option_map (String c) (field_end InName s')
      | InIndex =>
          if Ascii.eqb c "]" then option_map (String c) (field_end InName s')
          else option_map (String c) (field_end InIndex s')
      | AfterBang => option_map (String c) (field_end AfterConversion s')
      | AfterConversion =>
          if Ascii.eqb c "}" then Some EmptyString
          else if Ascii.eqb c ":" then option_map (String c) (field_end (InSpec 0) s')
          else None
      | InSpec depth =>
          if Ascii.eqb c "{" then option_map (String c) (field_end (InSpec (S depth)) s')
          else if Ascii.eqb c "}" then
            match depth with
            | O => Some EmptyString
            | S depth' => option_map (String c) (field_end (InSpec depth') s')
            end
          else option_map (String c) (field_end (InSpec depth) s')
      end
  end.

(** [template.format(name=, domain=, search_name=)].  Doubled braces are
    literal braces; the plain fields [{name}], [{domain}] and
    [{search_name}] are replaced with the arguments; any other field is
    replaced with what [format_field] gives for its text.  [None]:
    [str.format] raises (a single closing brace, a malformed field, or a
    field that [format_field] refuses).  [skip] counts the characters of
    a field still to pass. *)
Fixpoint format_from (a : format_args) (skip : nat) (t : string) : option string :=
  match t with
  | EmptyString => Some EmptyString
  | String c t' =>
      match skip with
      | S k => format_from a k t'
      | O =>
          if String.prefix "{{" t then prepend "{" (format_from a 1 t')
          else if String.prefix "}}" t then prepend "}" (format_from a 1 t')
          else if String.prefix "{name}" t
               then prepend (kw_name a) (format_from a 5 t')
          else if String.prefix "{domain}" t
               then prepend (kw_domain a) (format_from a 7 t')
          else if String.prefix "{search_name}" t
               then prepend (kw_search_name a) (format_from a 12 t')
          else if Ascii.eqb c "}" then None
          else if Ascii.eqb c "{" then
            match field_end InName t' with
            | Some field =>
                match format_field a field with
                | Some value =>
                    prepend value (format_from a (S (String.length field)) t')
                | None => None
                end
            | None => None
            end
          else option_map (String c) (format_from a 0 t')
      end
  end.

Definition format (a : format_args) (template : string) : option string :=
  format_from a 0 template.

(** Step 1 of [find_emails_logic]: [(search_name, target_domain)]. *)
Definition determine_domain_and_name (company_input : string)
  : string * option string :=
  if Str.contains "." company_input then
    match sanitize_url company_input with
    | Some sanitized =>
        if Str.truthy sanitized then
          let target_domain := sanitized in
          let search_name :=
            if negb (String.eqb (Str.lower company_input) target_domain)
               && negb (Str.startswith_any ["http"; "//"] company_input)
            then company_input
            else if Str.contains "." target_domain
                 then List.hd EmptyString (Str.split "." target_domain)
                 else target_domain in
          (search_name, Some target_domain)
        else (company_input, None)
    | None => (company_input, None)
    end
  else (company_input, None).

(** Step 2, first part: the four lists of templates. *)
Definition templates_name_and_domain : list string :=
  [ quoted "{name}" +:+ " " +:+ quoted "{domain}" +:+ " email";
    quoted "{name}" +:+ " email address {domain}";
    "contact " +:+ quoted "{name}" +:+ " {domain}";
    quoted "{domain}" +:+ " email";
    "contact {domain}" ].

Definition templates_name_only : list string :=
  [ quoted "{name}" +:+ " " +:+ quoted "{search_name}" +:+ " email";
    quoted "{name}" +:+ " email address " +:+ quoted "{search_name}" +:+ " company";
    "contact " +:+ quoted "{name}" +:+ " " +:+ quoted "{search_name}";
    quoted "{search_name}" +:+ " email" ].

Definition templates_domain_only : list string :=
  [ quoted "{domain}" +:+ " email address";
    "contact OR support email " +:+ quoted "{domain}";
    quoted "{domain}" +:+ " company contact";
    "site:{domain} email OR contact" ].

Definition templates_company_only : list string :=
  [ quoted "{search_name}" +:+ " contact email";
    quoted "{search_name}" +:+ " customer service email";
    quoted "{search_name}" +:+ " company email address";
    "email address for " +:+ quoted "{search_name}" ].

(** The list chosen by what is known. *)
Definition base_templates (ceo_name target_domain : option string) : list string :=
  if truthy_opt ceo_name && truthy_opt target_domain
  then templates_name_and_domain
  else if truthy_opt ceo_name && negb (truthy_opt target_domain)
  then templates_name_only
  else if truthy_opt target_domain && negb (truthy_opt ceo_name)
  then templates_domain_only
  else templates_company_only.

(** The five literal addresses built from a first name, a last name and a
    domain. *)
Definition permutation_guesses (fname lname target_domain : string) : list string :=
  [ quoted (head1 fname +:+ lname +:+ "@" +:+ target_domain);
    quoted (fname +:+ "." +:+ lname +:+ "@" +:+ target_domain);
    quoted (fname +:+ lname +:+ "@" +:+ target_domain);
    quoted (lname +:+ "." +:+ fname +:+ "@" +:+ target_domain);
    quoted (fname +:+ "@" +:+ target_domain) ].

(** Step 2, second part: the templates appended when a CEO name is given. *)
Definition permutation_templates (ceo_name target_domain : option string)
  : list string :=
  if truthy_opt ceo_name then
    let name_parts := Str.split_ws (Str.lower (or_else ceo_name EmptyString)) in
    if Nat.leb 2 (List.length name_parts) then
      let fname := List.hd EmptyString name_parts in
      let lname := List.last name_parts EmptyString in
      if truthy_opt target_domain
      then permutation_guesses fname lname (or_else target_domain EmptyString)
      else []
    else []
  else [].

Definition query_templates (ceo_name target_domain : option string) : list string :=
  base_templates ceo_name target_domain
  ++ permutation_templates ceo_name target_domain.

(** The clean-up of empty placeholders: two double quotes followed by a
    space are removed, then a space followed by two double quotes. *)
Definition clean_up (query : string) : string :=
  Str.replace (" " +:+ dquote +:+ dquote) EmptyString
    (Str.replace (dquote +:+ dquote +:+ " ") EmptyString query).

(** The query sent for a template; [None] when [format] raises. *)
Definition render (a : format_args) (template : string) : option string :=
  match format a template with
  | Some query => Some (clean_up query)
  | None => None
  end.

(** The loop over the templates, from the candidate set found so far and
    the number of requests made; [None] when [format] raises on a
    template, which ends the run with the exception. *)
Fixpoint run_queries (a : format_args) (searx_url : string)
    (templates : list string) (all_found_emails_set : gset string) (n : nat)
  : option (gset string * nat) :=
  match templates with
  | [] => Some (all_found_emails_set, n)
  | template :: rest =>
      match render a template with
      | None => None
      | Some query =>
          let '(aggregated_text, n') :=
            search_web_standalone_text query searx_url PAGES_PER_QUERY n in
          let found :=
            if Str.truthy aggregated_text then
              let emails_from_query := extract_emails_from_text aggregated_text in
              if decide (emails_from_query = ∅) then all_found_emails_set
              else all_found_emails_set ∪ emails_from_query
            else all_found_emails_set in
          run_queries a searx_url rest found n'
      end
  end.

Record query_details := {
  search_name : string;
  target_domain : option string
}.

(** The result dictionary. *)
Record result_dict := {
  details : query_details;              (* the key query_details *)
  found_emails : list string;
  error : option string
}.

(** [find_emails_logic]; [None] when the run ends with an exception. *)
Definition find_emails_logic
    (company_input : string) (ceo_name : option string) (searx_url : string)
  : option result_dict :=
  let '(name, domain) := determine_domain_and_name company_input in
  let templates := query_templates ceo_name domain in
  let a := {| kw_name := or_else ceo_name EmptyString;
              kw_domain := or_else domain EmptyString;
              kw_search_name := name |} in
  match run_queries a searx_url templates ∅ 0 with
  | None => None
  | Some (all_found_emails_set, _) =>
      let final_emails :=
        if decide (all_found_emails_set = ∅) then []
        else filter_blacklisted_emails all_found_emails_set domain in
      Some {| details := {| search_name := name; target_domain := domain |};
              found_emails := final_emails;
              error := None |}
  end.

(** The plan of a run: the queries sent, in order. *)
Definition query_plan (company_input : string) (ceo_name : option string)
  : option (list string) :=
  let '(name, domain) := determine_domain_and_name company_input in
  let a := {| kw_name := or_else ceo_name EmptyString;
              kw_domain := or_else domain EmptyString;
              kw_search_name := name |} in
  mapM (render a) (query_templates ceo_name domain).

End Pipeline.

(** A validator that accepts every bracketed netloc, and a backend on
    which every request times out. *)
Definition accept_any : string -> bool := fun _ => true.
Definition unreachable : backend := fun _ _ => Timeout.

(** A rendering of the fields other than the plain ones for the closed
    examples: their templates hold no such field, and it is never asked. *)
Definition no_other_field : field_oracle := fun _ _ => None.

Example sanitize_ex1 :
  sanitize_url accept_any "https://www.example.com:8080/path" = Some "example.com".
Proof. reflexivity. Qed.

Example sanitize_ex2 : sanitize_url accept_any "not a url" = None.
Proof. reflexivity. Qed.

Example sanitize_ex3 : sanitize_url accept_any "EXAMPLE.COM" = Some "example.com".
Proof. reflexivity. Qed.

(** The domain part the filter reads off a candidate: the text after its
    first [@]; [None] when it has none. *)
Definition domain_part (email : string) : option string :=
  match unpack2 (Str.split1 "@" email) with
  | Some (_, d) => Some d
  | None => None
  end.

(** A text that holds no brace. *)
Definition brace_free (s : string) : Prop :=
  Str.contains "{" s = false /\ Str.contains "}" s = false.

(** A text that holds no double quote. *)
Definition quote_free (s : string) : Prop :=
  Str.contains (ascii_of_N 34) s = false.

(** * Properties *)

(** ** The order on strings *)

Lemma compare_refl s : String.compare s s = Eq.
Proof.
  induction s as [|c s IH]; simpl; [reflexivity|].
  unfold Ascii.compare. now rewrite N.compare_refl.
Qed.

Lemma lt_le a b : Str.lt a b <-> String.le a b /\ a <> b.
Proof.
  unfold Str.lt, String.le, String.ltb, String.leb. split.
  - destruct (String.compare a b) eqn:H; try discriminate.
    intros _. split; [exact I|]. intros ->.
    rewrite compare_refl in H. discriminate.
  - intros [H Hne]. destruct (String.compare a b) eqn:Hc; try contradiction.
    + now apply String.compare_eq_iff in Hc.
    + reflexivity.
Qed.

(** ** [sorted] and [list(set(...))] *)

Lemma sorted_Sorted l : Sorted String.le (sorted l).
Proof. apply Sorted_merge_sort; apply _. Qed.

Lemma sorted_Permutation l : sorted l ≡ₚ l.
Proof. apply merge_sort_Permutation. Qed.

Lemma elem_of_sorted x l : x ∈ sorted l <-> x ∈ l.
Proof. now rewrite sorted_Permutation. Qed.

Lemma elem_of_list_set x l : x ∈ list_set l <-> x ∈ l.
Proof. unfold list_set, pyset. rewrite elem_of_elements. apply elem_of_list_to_set. Qed.

Lemma NoDup_list_set l : NoDup (list_set l).
Proof. unfold list_set. apply NoDup_elements. Qed.

Lemma NoDup_sorted l : NoDup l -> NoDup (sorted l).
Proof. intros H. now rewrite sorted_Permutation. Qed.

(** A sorted list without repetition is strictly ascending. *)
Lemma strictly_ascending l :
  Sorted String.le l -> NoDup l -> StronglySorted Str.lt l.
Proof.
  intros Hs Hn. apply Sorted_StronglySorted in Hs; [|apply _].
  induction Hs as [|x l Hs IH Hx]; [constructor|].
  apply NoDup_cons in Hn as [Hnx Hn].
  constructor; [now apply IH|].
  rewrite Forall_forall in Hx |- *. intros y Hy.
  apply lt_le. split; [now apply Hx|]. intros ->. now apply Hnx.
Qed.

(** Two sorted lists without repetition that hold the same elements are
    the same list. *)
Lemma sorted_unique (l k : list string) :
  Sorted String.le l -> Sorted String.le k -> NoDup l -> NoDup k ->
  (forall x, x ∈ l <-> x ∈ k) -> l = k.
Proof.
  intros Hl Hk Nl Nk Hlk.
  apply (Sorted_unique String.le); [assumption..|].
  now apply NoDup_Permutation.
Qed.

(** ** The candidate filter *)

Lemma split1_absent sep s :
  Str.count sep s = 0 -> Str.split1 sep s = [s].
Proof.
  induction s as [|c s IH]; simpl; [reflexivity|].
  destruct (Ascii.eqb c sep); [discriminate|].
  intros H. now rewrite IH.
Qed.

Lemma split1_present sep s :
  Str.count sep s <> 0 ->
  exists a b, Str.split1 sep s = [a; b] /\ Str.count sep a = 0
              /\ s = a +:+ String sep b.
Proof.
  induction s as [|c s IH]; simpl; [congruence|].
  destruct (Ascii.eqb_spec c sep) as [->|Hc].
  - intros _. exists EmptyString, s. auto.
  - intros H. destruct (IH H) as (a & b & -> & Ha & ->).
    exists (String c a), b. simpl.
    destruct (Ascii.eqb_spec c sep); [contradiction|]. auto.
Qed.

Lemma domain_part_absent email :
  Str.count "@" email = 0 -> domain_part email = None.
Proof. intros H. unfold domain_part. now rewrite split1_absent. Qed.

Lemma domain_part_present email :
  Str.count "@" email <> 0 -> exists a d,
    domain_part email = Some d /\ email = a +:+ String "@" d
    /\ Str.count "@" a = 0.
Proof.
  intros H. destruct (split1_present _ _ H) as (a & b & E & Ha & Hs).
  exists a, b. unfold domain_part. rewrite E. auto.
Qed.

(** What [keeps] checks, spelled out. *)
Lemma keeps_spec ntd email :
  keeps ntd email = true <->
  exists d, domain_part email = Some d /\ (d ∉ BLACKLISTED_DOMAINS)
            /\ (truthy_opt ntd = true -> ntd = Some d).
Proof.
  unfold keeps, domain_part.
  destruct (unpack2 (Str.split1 "@" email)) as [[a d]|]; [|split; [discriminate|]].
  - destruct (decide (d ∈ BLACKLISTED_DOMAINS)) as [Hb|Hb].
    + split; [discriminate|]. intros (d' & [= <-] & Hn & _). contradiction.
    + destruct (truthy_opt ntd); simpl.
      * destruct (bool_decide_reflect (Some d = ntd)) as [E|E]; simpl.
        -- split; [|reflexivity]. intros _. exists d. auto.
        -- split; [discriminate|]. intros (d' & [= <-] & _ & Ht).
           now rewrite Ht in E.
      * split; [|reflexivity]. intros _. exists d.
        split; [reflexivity|]. split; [assumption|discriminate].
  - intros (d & Hd & _). discriminate.
Qed.

Lemma elem_of_filter_blacklisted_emails emails target_domain email :
  email ∈ filter_blacklisted_emails emails target_domain <->
  email ∈ emails /\ keeps (normalize_target target_domain) email = true.
Proof.
  unfold filter_blacklisted_emails.
  rewrite elem_of_sorted, elem_of_list_set, list_elem_of_In, filter_In,
    <- list_elem_of_In, elem_of_elements.
  reflexivity.
Qed.

Lemma filter_blacklisted_emails_Sorted emails target_domain :
  Sorted String.le (filter_blacklisted_emails emails target_domain).
Proof. apply sorted_Sorted. Qed.

Lemma filter_blacklisted_emails_NoDup emails target_domain :
  NoDup (filter_blacklisted_emails emails target_domain).
Proof. apply NoDup_sorted, NoDup_list_set. Qed.

Lemma normalize_target_truthy target_domain :
  match normalize_target target_domain with
  | Some t => Str.truthy t = true
  | None => True
  end.
Proof.
  destruct target_domain as [[|c t]|]; simpl; try exact I.
  reflexivity.
Qed.

Lemma keeps_target t email :
  keeps (normalize_target (Some t)) email = true -> t <> EmptyString ->
  domain_part email = Some (Str.lower t).
Proof.
  intros H Ht. apply keeps_spec in H as (d & Hd & _ & Hn).
  destruct t as [|c t]; [congruence|]. simpl in Hn.
  rewrite Hd. symmetry. now apply Hn.
Qed.

(** C3, as the code has it.  A candidate without [@] is skipped by the
    filter: it is never in the output.  A candidate with one or more [@]
    is cut at its first [@] and treated like any other: it is in the
    output exactly when it is in the input, the text after its first [@]
    is not blacklisted and, for a given non-empty target, equals the
    lower-cased target.  The filter is a total function: nothing is raised. *)
Theorem C3_filter_skips_candidates_without_at
    (emails : gset string) (target_domain : option string) (email : string) :
  (Str.count "@" email = 0 ->
     email ∉ filter_blacklisted_emails emails target_domain)
  /\ (Str.count "@" email <> 0 ->
      (email ∈ filter_blacklisted_emails emails target_domain <->
       email ∈ emails /\
       exists a d, email = a +:+ String "@" d /\ Str.count "@" a = 0
         /\ (d ∉ BLACKLISTED_DOMAINS)
         /\ (forall t, normalize_target target_domain = Some t -> d = t))).
Proof.
  split.
  - intros H0 Hin. apply elem_of_filter_blacklisted_emails in Hin as [_ Hk].
    apply keeps_spec in Hk as (d & Hd & _). rewrite domain_part_absent in Hd by assumption.
    discriminate.
  - intros Hn. rewrite elem_of_filter_blacklisted_emails, keeps_spec.
    destruct (domain_part_present _ Hn) as (a & d & Hd & He & Ha).
    split.
    + intros [Hin (d' & Hd' & Hb & Ht)]. split; [assumption|].
      rewrite Hd in Hd'. injection Hd' as <-.
      exists a, d. repeat split; try assumption.
      intros t Et. pose proof (normalize_target_truthy target_domain) as Htr.
      rewrite Et in Ht, Htr. simpl in Ht. specialize (Ht Htr). congruence.
    + intros [Hin (a' & d' & He' & Ha' & Hb & Ht)]. split; [assumption|].
      assert (d' = d) as ->.
      { unfold domain_part in Hd. rewrite He' in Hd.
        clear -Hd Ha'. revert Hd. induction a' as [|c a' IH]; simpl.
        - intros [= <-]. reflexivity.
        - simpl in Ha'. destruct (Ascii.eqb c "@"); [discriminate|].
          intros H. apply IH; [assumption|].
          destruct (Str.split1 "@" (a' +:+ String "@" d')) as [|x [|y [|z l]]];
            simpl in *; congruence. }
      exists d. repeat split; try assumption.
      intros Htr. destruct (normalize_target target_domain) as [t|]; [|discriminate].
      now rewrite (Ht t eq_refl).
Qed.

(** C3, as stated, fails: a candidate with two [@] passes the filter. *)
Lemma C3_counterexample :
  Str.count "@" "a@b@c.com" = 2 /\
  filter_blacklisted_emails (pyset ["a@b@c.com"]) None = ["a@b@c.com"].
Proof. split; vm_compute; reflexivity. Qed.

Lemma C3_witness :
  Str.count "@" "nope" = 0 /\
  ("nope" ∉ filter_blacklisted_emails (pyset ["nope"; "z@acme.com"]) None).
Proof.
  split; [reflexivity|].
  apply (proj1 (C3_filter_skips_candidates_without_at
                  (pyset ["nope"; "z@acme.com"]) None "nope")).
  reflexivity.
Defined.

(** C9.  Filtering is idempotent: the filter applied to the set of its own
    output, with the same target, returns that output. *)
Theorem C9_filter_idempotent (emails : gset string) (target_domain : option string) :
  filter_blacklisted_emails
    (pyset (filter_blacklisted_emails emails target_domain)) target_domain
  = filter_blacklisted_emails emails target_domain.
Proof.
  apply sorted_unique;
    try apply filter_blacklisted_emails_Sorted;
    try apply filter_blacklisted_emails_NoDup.
  intros x. rewrite (elem_of_filter_blacklisted_emails (pyset _)).
  unfold pyset. rewrite elem_of_list_to_set.
  rewrite elem_of_filter_blacklisted_emails. tauto.
Qed.

(** ** Characters and lower-casing *)

Ltac by_char c := destruct c as [[] [] [] [] [] [] [] []]; reflexivity.

Lemma lower_char_idempotent c : Char.lower (Char.lower c) = Char.lower c.
Proof. by_char c. Qed.

Lemma lower_char_dot c : Ascii.eqb (Char.lower c) "." = Ascii.eqb c ".".
Proof. by_char c. Qed.

Lemma lower_char_slash c : Ascii.eqb (Char.lower c) "/" = Ascii.eqb c "/".
Proof. by_char c. Qed.

Lemma lower_char_colon c : Ascii.eqb (Char.lower c) ":" = Ascii.eqb c ":".
Proof. by_char c. Qed.

Lemma lower_char_at c : Ascii.eqb (Char.lower c) "@" = Ascii.eqb c "@".
Proof. by_char c. Qed.

Lemma lower_char_newline c :
  Ascii.eqb (Char.lower c) (ascii_of_N 10) = Ascii.eqb c (ascii_of_N 10).
Proof. by_char c. Qed.

Lemma lower_char_digit c : Char.is_digit (Char.lower c) = Char.is_digit c.
Proof. by_char c. Qed.

Lemma lower_idempotent s : Str.lower (Str.lower s) = Str.lower s.
Proof.
  induction s as [|c s IH]; simpl; [reflexivity|].
  now rewrite lower_char_idempotent, IH.
Qed.

Lemma length_lower s : String.length (Str.lower s) = String.length s.
Proof. induction s as [|c s IH]; simpl; [reflexivity|]. now rewrite IH. Qed.

Lemma is_empty_lower s : Str.is_empty (Str.lower s) = Str.is_empty s.
Proof. now destruct s. Qed.

Lemma drop_lower n s : Str.drop n (Str.lower s) = Str.lower (Str.drop n s).
Proof.
  revert s. induction n as [|n IH]; intros [|c s]; simpl; try reflexivity.
  apply IH.
Qed.

(** Lower-casing neither creates nor removes a character that it fixes
    and that is no lower-case form of another one. *)
Lemma contains_lower k s :
  (forall c, Ascii.eqb (Char.lower c) k = Ascii.eqb c k) ->
  Str.contains k (Str.lower s) = Str.contains k s.
Proof.
  intros Hk. induction s as [|c s IH]; simpl; [reflexivity|].
  now rewrite Hk, IH.
Qed.

Lemma count_lower k s :
  (forall c, Ascii.eqb (Char.lower c) k = Ascii.eqb c k) ->
  Str.count k (Str.lower s) = Str.count k s.
Proof.
  intros Hk. induction s as [|c s IH]; simpl; [reflexivity|].
  now rewrite Hk, IH.
Qed.

Lemma split_lower k s :
  (forall c, Ascii.eqb (Char.lower c) k = Ascii.eqb c k) ->
  Str.split k (Str.lower s) = List.map Str.lower (Str.split k s).
Proof.
  intros Hk. induction s as [|c s IH]; simpl; [reflexivity|].
  rewrite Hk, IH. destruct (Ascii.eqb c k); [reflexivity|].
  now destruct (Str.split k s).
Qed.

Lemma last_item_map {A B} (f : A -> B) l :
  last_item (List.map f l) = option_map f (last_item l).
Proof.
  induction l as [|x [|y l] IH]; try reflexivity.
  exact IH.
Qed.

Lemma last_label_length_lower s :
  last_label_length (Str.lower s) = last_label_length s.
Proof.
  unfold last_label_length.
  rewrite (split_lower _ _ lower_char_dot), last_item_map.
  destruct (last_item (Str.split "." s)); simpl; [apply length_lower|reflexivity].
Qed.

(** ** Substrings keep to the characters of their source *)

Lemma contains_app k a b :
  Str.contains k (a +:+ b) = Str.contains k a || Str.contains k b.
Proof.
  induction a as [|c a IH]; simpl; [reflexivity|].
  now rewrite IH, orb_assoc.
Qed.

Lemma span_app p s : fst (Str.span p s) +:+ snd (Str.span p s) = s.
Proof.
  induction s as [|c s IH]; simpl; [reflexivity|].
  destruct (p c); [|reflexivity].
  revert IH. destruct (Str.span p s) as [a b]. simpl. now intros <-.
Qed.

Lemma span_forallb p s : Str.forallb p (fst (Str.span p s)) = true.
Proof.
  induction s as [|c s IH]; simpl; [reflexivity|].
  destruct (p c) eqn:Hc; [|reflexivity].
  revert IH. destruct (Str.span p s) as [a b]. simpl. intros ->. now rewrite Hc.
Qed.

Lemma forallb_contains p k s :
  Str.forallb p s = true -> p k = false -> Str.contains k s = false.
Proof.
  intros Hs Hk. induction s as [|c s IH]; simpl in *; [reflexivity|].
  apply andb_true_iff in Hs as [Hc Hs]. rewrite (IH Hs), orb_false_r.
  destruct (Ascii.eqb_spec c k) as [->|]; [congruence|reflexivity].
Qed.

Lemma contains_span_fst p k s :
  Str.contains k (fst (Str.span p s)) = true -> Str.contains k s = true.
Proof.
  intros H.
  assert (Str.contains k (fst (Str.span p s) +:+ snd (Str.span p s)) = true) as E
    by (rewrite contains_app, H; reflexivity).
  now rewrite span_app in E.
Qed.

Lemma contains_span_snd p k s :
  Str.contains k (snd (Str.span p s)) = true -> Str.contains k s = true.
Proof.
  intros H.
  assert (Str.contains k (fst (Str.span p s) +:+ snd (Str.span p s)) = true) as E
    by (rewrite contains_app, H; apply orb_true_r).
  now rewrite span_app in E.
Qed.

Lemma contains_drop k n s :
  Str.contains k (Str.drop n s) = true -> Str.contains k s = true.
Proof.
  revert s. induction n as [|n IH]; intros [|c s]; simpl; try easy.
  intros H. rewrite (IH _ H). apply orb_true_r.
Qed.

Lemma contains_remove_chars p k s :
  Str.contains k (Urllib.remove_chars p s) = true -> Str.contains k s = true.
Proof.
  induction s as [|c s IH]; simpl; [easy|].
  destruct (p c); simpl.
  - intros H. rewrite (IH H). apply orb_true_r.
  - destruct (Ascii.eqb c k); [reflexivity|]. exact IH.
Qed.

(** ** [remove_port] *)

Lemma app_cons c a b : String c a +:+ b = String c (a +:+ b).
Proof. reflexivity. Qed.

Lemma prefix_cons a p b s :
  String.prefix (String a p) (String b s) = Ascii.eqb a b && String.prefix p s.
Proof.
  simpl. destruct (ascii_dec a b) as [->|Hn].
  - now rewrite Ascii.eqb_refl.
  - apply Ascii.eqb_neq in Hn. now rewrite Hn.
Qed.

Lemma prefix_trans a b c :
  String.prefix a b = true -> String.prefix b c = true -> String.prefix a c = true.
Proof.
  revert b c. induction a as [|x a IH]; intros [|y b] [|z c]; try easy.
  rewrite !prefix_cons. intros H1 H2.
  apply andb_true_iff in H1 as [E1 H1]. apply andb_true_iff in H2 as [E2 H2].
  apply Ascii.eqb_eq in E1, E2. subst. rewrite Ascii.eqb_refl. simpl.
  now apply (IH b).
Qed.

Lemma prefix_contains p s k :
  String.prefix p s = true -> Str.contains k p = true -> Str.contains k s = true.
Proof.
  revert s. induction p as [|a p IH]; intros [|b s]; try easy.
  rewrite prefix_cons. intros H. apply andb_true_iff in H as [E H].
  apply Ascii.eqb_eq in E. subst b. simpl.
  destruct (Ascii.eqb a k); [reflexivity|]. now apply IH.
Qed.

Lemma span_lower p s :
  (forall c, p (Char.lower c) = p c) ->
  Str.span p (Str.lower s)
  = (Str.lower (fst (Str.span p s)), Str.lower (snd (Str.span p s))).
Proof.
  intros Hp. induction s as [|c s IH]; simpl; [reflexivity|].
  rewrite Hp. destruct (p c); [|reflexivity].
  rewrite IH. now destruct (Str.span p s).
Qed.

Lemma eqb_lower_newline s :
  String.eqb (Str.lower s) newline = String.eqb s newline.
Proof.
  destruct s as [|c [|c' s]]; simpl; try reflexivity.
  - now rewrite lower_char_newline.
  - now rewrite lower_char_newline.
Qed.

Lemma digits_to_end_lower s :
  digits_to_end (Str.lower s) = option_map Str.lower (digits_to_end s).
Proof.
  unfold digits_to_end. rewrite (span_lower _ _ lower_char_digit).
  destruct (Str.span Char.is_digit s) as [ds rest]; simpl.
  rewrite !is_empty_lower, eqb_lower_newline.
  destruct (Str.is_empty ds); [reflexivity|].
  now destruct (Str.is_empty rest || String.eqb rest newline).
Qed.

Lemma digits_to_end_rest s rest :
  digits_to_end s = Some rest -> rest = EmptyString \/ rest = newline.
Proof.
  unfold digits_to_end. destruct (Str.span Char.is_digit s) as [ds r].
  destruct (Str.is_empty ds); [discriminate|].
  destruct r as [|c r].
  - intros [= <-]. now left.
  - rewrite orb_false_l.
    destruct (String.eqb_spec (String c r) newline) as [E|E]; [|discriminate].
    intros [= <-]. now right.
Qed.

Lemma remove_port_lower s : remove_port (Str.lower s) = Str.lower (remove_port s).
Proof.
  induction s as [|c s IH]; simpl; [reflexivity|].
  rewrite lower_char_colon, digits_to_end_lower.
  destruct (Ascii.eqb c ":"); simpl; [|now rewrite IH].
  destruct (digits_to_end s); simpl; [reflexivity|now rewrite IH].
Qed.

Lemma contains_remove_port k s :
  Str.contains k (remove_port s) = true -> Str.contains k s = true.
Proof.
  induction s as [|c s IH]; simpl; [easy|].
  assert (Str.contains k (String c (remove_port s)) = true ->
          Ascii.eqb c k || Str.contains k s = true) as Hcons.
  { simpl. destruct (Ascii.eqb c k); [reflexivity|]. exact IH. }
  destruct (Ascii.eqb c ":"); [|exact Hcons].
  destruct (digits_to_end s) as [rest|] eqn:E; [|exact Hcons].
  intros H. destruct (digits_to_end_rest _ _ E) as [-> | ->]; [discriminate|].
  unfold digits_to_end in E. destruct (Str.span Char.is_digit s) as [ds r] eqn:Es.
  destruct (Str.is_empty ds); [discriminate|].
  destruct (Str.is_empty r || String.eqb r newline); [|discriminate].
  injection E as ->.
  assert (Str.contains k s = true) as ->; [|apply orb_true_r].
  apply (contains_span_snd Char.is_digit). now rewrite Es.
Qed.

(** A prefix without newline of the text left by [remove_port] is a
    prefix of the text itself. *)
Lemma prefix_remove_port p s :
  Str.contains (ascii_of_N 10) p = false ->
  String.prefix p (remove_port s) = true -> String.prefix p s = true.
Proof.
  revert p. induction s as [|c s IH]; intros [|a p] Hp; simpl remove_port;
    try easy.
  assert (String.prefix (String a p) (String c (remove_port s)) = true ->
          String.prefix (String a p) (String c s) = true) as Hcons.
  { rewrite !prefix_cons. intros H. apply andb_true_iff in H as [-> H].
    simpl in Hp. apply orb_false_iff in Hp as [_ Hp]. now rewrite IH. }
  destruct (Ascii.eqb c ":"); [|exact Hcons].
  destruct (digits_to_end s) as [rest|] eqn:E; [|exact Hcons].
  destruct (digits_to_end_rest _ _ E) as [-> | ->]; [discriminate|].
  unfold newline. rewrite prefix_cons. intros H.
  apply andb_true_iff in H as [H _]. apply Ascii.eqb_eq in H. subst a.
  simpl in Hp. discriminate.
Qed.

Lemma prefix_drop p q s :
  String.prefix p s = true -> String.prefix q (Str.drop (String.length p) s) = true ->
  String.prefix (p +:+ q) s = true.
Proof.
  revert s. induction p as [|a p IH]; intros s; [intros _; exact id|].
  destruct s as [|b s]; [discriminate|].
  rewrite app_cons, !prefix_cons. intros H. apply andb_true_iff in H as [-> H].
  simpl. now apply IH.
Qed.

Lemma has_port_lower s : has_port (Str.lower s) = true -> has_port s = true.
Proof.
  unfold has_port. rewrite remove_port_lower.
  destruct (String.eqb_spec (remove_port s) s) as [->|]; [|reflexivity].
  now rewrite String.eqb_refl.
Qed.

(** ** [urlparse] and [sanitize_url] *)

Lemma urlparse_netloc_delimiters chk url netloc k :
  Urllib.urlparse_netloc chk url = Some netloc ->
  Str.contains k "/?#" = true -> Str.contains k netloc = false.
Proof.
  unfold Urllib.urlparse_netloc. intros H Hk.
  destruct (Str.startswith "//" _); [|now injection H as <-].
  set (n := Urllib.splitnetloc _) in H.
  assert (Str.contains k n = false) as Hn.
  { apply (forallb_contains (fun c => negb (Str.contains c "/?#"))).
    - apply span_forallb.
    - now rewrite Hk. }
  destruct (_ || _); [discriminate|].
  destruct (_ && _); [destruct (chk _); [|discriminate]|]; now injection H as <-.
Qed.

(** What [sanitize_netloc] returns, when it returns. *)
Lemma sanitize_netloc_Some netloc d :
  sanitize_netloc netloc = Some d ->
  d = Str.lower (remove_port (strip_www netloc))
  /\ Str.contains "." d = true /\ 2 <= last_label_length d.
Proof.
  unfold sanitize_netloc. destruct (Str.is_empty netloc); [discriminate|].
  set (r := remove_port (strip_www netloc)).
  destruct (Str.contains "." r) eqn:Hdot; simpl; [|discriminate].
  destruct (Nat.ltb_spec (last_label_length r) 2) as [|Hl]; [discriminate|].
  intros [= <-]. split; [reflexivity|].
  now rewrite (contains_lower _ _ lower_char_dot), last_label_length_lower.
Qed.

Lemma sanitize_url_Some chk url d :
  sanitize_url chk url = Some d ->
  exists netloc,
    Urllib.urlparse_netloc chk (with_scheme url) = Some netloc
    /\ sanitize_netloc netloc = Some d.
Proof.
  unfold sanitize_url. destruct (negb _); [discriminate|].
  destruct (Urllib.urlparse_netloc chk (with_scheme url)) as [netloc|];
    [|discriminate].
  intros H. now exists netloc.
Qed.

Lemma contains_strip_www k s :
  Str.contains k (strip_www s) = true -> Str.contains k s = true.
Proof.
  unfold strip_www. destruct (Str.startswith _ _); [|easy]. apply contains_drop.
Qed.

Lemma sanitized_www netloc :
  Str.startswith "www." (Str.lower (remove_port (strip_www netloc))) = true ->
  Str.startswith "www.www." (Str.lower netloc) = true.
Proof.
  unfold Str.startswith. rewrite <- remove_port_lower. intros H.
  apply prefix_remove_port in H; [|reflexivity].
  unfold strip_www, Str.startswith in H.
  destruct (String.prefix "www." (Str.lower netloc)) eqn:Hw; [|congruence].
  rewrite <- drop_lower in H.
  exact (prefix_drop "www." "www." _ Hw H).
Qed.

Lemma contains_strip_scheme k url :
  Str.contains k (Urllib.strip_scheme url) = true -> Str.contains k url = true.
Proof.
  unfold Urllib.strip_scheme.
  pose proof (contains_span_snd (fun c => negb (Ascii.eqb c ":")) k url) as Hs.
  destruct (Str.span _ url) as [pre rest]. simpl in Hs.
  destruct pre as [|c0 pre]; [easy|]. destruct rest as [|c rest]; [easy|].
  destruct (_ && _); [|easy].
  intros H. apply Hs. simpl. rewrite H. apply orb_true_r.
Qed.

Lemma urlparse_netloc_contains chk url netloc k :
  Urllib.urlparse_netloc chk url = Some netloc ->
  Str.contains k netloc = true -> Str.contains k url = true.
Proof.
  unfold Urllib.urlparse_netloc. intros H Hk.
  destruct (Str.startswith "//" _); [|injection H as <-; simpl in Hk; discriminate].
  set (n := Urllib.splitnetloc _) in H.
  assert (netloc = n) as ->.
  { destruct (_ || _); [discriminate|].
    destruct (_ && _); [destruct (chk _); [|discriminate]|]; now injection H. }
  unfold n, Urllib.splitnetloc in Hk.
  apply contains_span_fst, contains_drop, contains_strip_scheme,
    contains_remove_chars in Hk.
  now apply contains_span_snd in Hk.
Qed.

Lemma sanitize_url_dot chk url d :
  sanitize_url chk url = Some d ->
  Str.contains "." url = true /\ Str.contains "." d = true /\ Str.truthy d = true.
Proof.
  intros H. destruct (sanitize_url_Some _ _ _ H) as (netloc & Hn & Hs).
  destruct (sanitize_netloc_Some _ _ Hs) as (Hd & Hdot & _).
  split; [|split; [assumption|now destruct d]].
  rewrite Hd, (contains_lower _ _ lower_char_dot) in Hdot.
  apply contains_remove_port, contains_strip_www in Hdot.
  apply (urlparse_netloc_contains _ _ _ _ Hn) in Hdot.
  unfold with_scheme in Hdot. destruct (Str.startswith_any _ url); [assumption|].
  exact Hdot.
Qed.

Lemma split_not_nil sep s : Str.split sep s <> [].
Proof.
  destruct s as [|c s]; simpl; [discriminate|].
  destruct (Ascii.eqb c sep); [discriminate|].
  now destruct (Str.split sep s).
Qed.

(** [d.split('.')[0]] is the text of [d] before its first dot. *)
Lemma split_hd d :
  Str.contains "." d = true ->
  exists rest, d = List.hd EmptyString (Str.split "." d) +:+ String "." rest
               /\ Str.contains "." (List.hd EmptyString (Str.split "." d)) = false.
Proof.
  induction d as [|c d IH]; simpl; [discriminate|].
  destruct (Ascii.eqb_spec c ".") as [->|Hc]; simpl.
  - intros _. now exists d.
  - intros H. destruct (IH H) as (rest & E & Hn). exists rest.
    pose proof (split_not_nil "." d) as Hnil.
    destruct (Str.split "." d) as [|h t]; simpl in *; [contradiction|].
    rewrite app_cons, <- E. split; [reflexivity|].
    apply Ascii.eqb_neq in Hc. now rewrite Hc.
Qed.

Lemma determine_domain_and_name_Some chk company_input d :
  sanitize_url chk company_input = Some d ->
  determine_domain_and_name chk company_input
  = (if negb (String.eqb (Str.lower company_input) d)
        && negb (Str.startswith_any ["http"; "//"] company_input)
     then company_input
     else List.hd EmptyString (Str.split "." d), Some d).
Proof.
  intros H. destruct (sanitize_url_dot _ _ _ H) as (Hi & Hd & Ht).
  unfold determine_domain_and_name. now rewrite Hi, H, Ht, Hd.
Qed.

Lemma determine_domain_and_name_target chk company_input name d :
  determine_domain_and_name chk company_input = (name, Some d) ->
  sanitize_url chk company_input = Some d.
Proof.
  unfold determine_domain_and_name.
  destruct (Str.contains "." company_input); [|discriminate].
  destruct (sanitize_url chk company_input) as [s|]; [|discriminate].
  destruct (Str.truthy s); [|discriminate]. now intros [= _ <-].
Qed.

Lemma find_emails_logic_details chk be fmt company_input ceo_name searx_url r :
  find_emails_logic chk be fmt company_input ceo_name searx_url = Some r ->
  determine_domain_and_name chk company_input
  = (search_name (details r), target_domain (details r))
  /\ error r = None.
Proof.
  unfold find_emails_logic.
  destruct (determine_domain_and_name chk company_input) as [name domain].
  destruct (run_queries _ _ _ _ _ _ _) as [[found n]|]; [|discriminate].
  now intros [= <-].
Qed.

Lemma sanitize_url_lower chk url d :
  sanitize_url chk url = Some d -> Str.lower d = d /\ d <> EmptyString.
Proof.
  intros H. destruct (sanitize_url_dot _ _ _ H) as (_ & _ & Ht).
  destruct (sanitize_url_Some _ _ _ H) as (netloc & _ & Hd).
  destruct (sanitize_netloc_Some _ _ Hd) as (-> & _).
  split; [apply lower_idempotent|]. intros E. now rewrite E in Ht.
Qed.

(** C2, as the code has it.  When normalisation of the input succeeds with
    domain [d], the target domain is [d] and the search name is the
    original input when the input, lower-cased, differs from [d] and the
    input starts with neither [http] nor two slashes; otherwise (the input
    is the domain up to letter case, or starts with [http] or two slashes)
    it is the first label of [d], the text before its first dot.  Every
    returned result carries this name and domain. *)
Theorem C2_search_name_after_normalization
    (chk : string -> bool) (company_input d : string) :
  sanitize_url chk company_input = Some d ->
  exists name,
    determine_domain_and_name chk company_input = (name, Some d)
    /\ (Str.lower company_input <> d ->
        Str.startswith_any ["http"; "//"] company_input = false ->
        name = company_input)
    /\ (Str.lower company_input = d
        \/ Str.startswith_any ["http"; "//"] company_input = true ->
        exists rest, d = name +:+ String "." rest
                     /\ Str.contains "." name = false)
    /\ (forall be fmt ceo_name searx_url r,
          find_emails_logic chk be fmt company_input ceo_name searx_url = Some r ->
          search_name (details r) = name /\ target_domain (details r) = Some d).
Proof.
  intros H. pose proof (determine_domain_and_name_Some _ _ _ H) as E.
  destruct (sanitize_url_dot _ _ _ H) as (_ & Hd & _).
  eexists. split; [exact E|]. split; [|split].
  - intros Hne Hs. rewrite Hs.
    destruct (String.eqb_spec (Str.lower company_input) d); [contradiction|].
    reflexivity.
  - intros Hc.
    assert (negb (String.eqb (Str.lower company_input) d)
            && negb (Str.startswith_any ["http"; "//"] company_input) = false) as ->.
    { destruct Hc as [-> | ->]; [now rewrite String.eqb_refl|apply andb_false_r]. }
    now apply split_hd.
  - intros be fmt ceo_name searx_url r Hr.
    apply find_emails_logic_details in Hr as [Hr _].
    rewrite E in Hr. now injection Hr as <- <-.
Qed.

(** C2, as stated, fails: an input with a scheme is not kept as the search
    name although it differs from the bare domain. *)
Lemma C2_counterexample :
  sanitize_url accept_any "https://example.com" = Some "example.com"
  /\ Str.startswith "https://" "https://example.com" = true
  /\ determine_domain_and_name accept_any "https://example.com"
     = ("example", Some "example.com")
  /\ "example" <> "https://example.com".
Proof. repeat split; try reflexivity. discriminate. Qed.

Lemma C2_witness :
  sanitize_url accept_any "Acme.com" = Some "acme.com"
  /\ exists name,
      determine_domain_and_name accept_any "Acme.com" = (name, Some "acme.com")
      /\ (Str.lower "Acme.com" <> "acme.com" ->
          Str.startswith_any ["http"; "//"] "Acme.com" = false ->
          name = "Acme.com")
      /\ (Str.lower "Acme.com" = "acme.com"
          \/ Str.startswith_any ["http"; "//"] "Acme.com" = true ->
          exists rest, "acme.com" = name +:+ String "." rest
                       /\ Str.contains "." name = false)
      /\ (forall be fmt ceo_name searx_url r,
            find_emails_logic accept_any be fmt "Acme.com" ceo_name searx_url
            = Some r ->
            search_name (details r) = name
            /\ target_domain (details r) = Some "acme.com").
Proof.
  split; [reflexivity|].
  apply (C2_search_name_after_normalization accept_any "Acme.com" "acme.com").
  reflexivity.
Defined.

(** ** The invariants of [found_emails] *)

Lemma filter_output_domains emails target_domain e :
  e ∈ filter_blacklisted_emails emails target_domain ->
  exists d, domain_part e = Some d /\ (d ∉ BLACKLISTED_DOMAINS)
            /\ forall t, target_domain = Some t -> t <> EmptyString ->
                         d = Str.lower t.
Proof.
  intros He. apply elem_of_filter_blacklisted_emails in He as [_ Hk].
  pose proof Hk as Hk'. apply keeps_spec in Hk as (d & Hd & Hb & _).
  exists d. repeat split; try assumption.
  intros t -> Ht. apply keeps_target in Hk'; [|assumption]. congruence.
Qed.

(** C6, as the code has it.  The output of the filter is sorted in
    ascending order, strictly, so without duplicates; no entry has a
    blacklisted domain part (the text after its first [@]); and for a
    given non-empty target every entry has the lower-cased target as its
    domain part, so the target itself when that is lower-case.  An empty
    target filters nothing by domain: the output is the one for no
    target; and a target counts in lower case only.  The [found_emails]
    of every run that returns has these properties, with domain parts
    equal to the run's target domain when there is one. *)
Theorem C6_filter_output_invariants
    (emails : gset string) (target : option string) :
  (let out := filter_blacklisted_emails emails target in
   Sorted String.le out /\ StronglySorted Str.lt out /\ NoDup out
   /\ forall e, e ∈ out ->
        exists d, domain_part e = Some d /\ (d ∉ BLACKLISTED_DOMAINS)
                  /\ forall t, target = Some t -> t <> EmptyString ->
                               d = Str.lower t)
  /\ filter_blacklisted_emails emails (Some EmptyString)
     = filter_blacklisted_emails emails None
  /\ (forall t, filter_blacklisted_emails emails (Some t)
                = filter_blacklisted_emails emails (Some (Str.lower t)))
  /\ (forall chk be fmt company_input ceo_name searx_url r,
        find_emails_logic chk be fmt company_input ceo_name searx_url = Some r ->
        let out := found_emails r in
        Sorted String.le out /\ StronglySorted Str.lt out /\ NoDup out
        /\ forall e, e ∈ out ->
             exists d, domain_part e = Some d /\ (d ∉ BLACKLISTED_DOMAINS)
                       /\ forall t, target_domain (details r) = Some t -> d = t).
Proof.
  assert (forall S t,
    let out := filter_blacklisted_emails S t in
    Sorted String.le out /\ StronglySorted Str.lt out /\ NoDup out) as Hsorted.
  { intros S t out.
    pose proof (filter_blacklisted_emails_Sorted S t) as Hs.
    pose proof (filter_blacklisted_emails_NoDup S t) as Hn.
    repeat split; try assumption. now apply strictly_ascending. }
  split; [|split; [|split]].
  - intros out. destruct (Hsorted emails target) as (Hs & Hss & Hn).
    repeat split; try assumption. apply filter_output_domains.
  - reflexivity.
  - intros t. unfold filter_blacklisted_emails, normalize_target.
    destruct t as [|c t]; [reflexivity|]. cbn [Str.lower Str.truthy Str.is_empty negb].
    now rewrite lower_char_idempotent, lower_idempotent.
  - intros chk be fmt company_input ceo_name searx_url r Hr.
    pose proof (find_emails_logic_details _ _ _ _ _ _ _ Hr) as [Hd _].
    unfold find_emails_logic in Hr. rewrite Hd in Hr.
    destruct (run_queries _ _ _ _ _ _ _) as [[found n]|]; [|discriminate].
    injection Hr as Hr. rewrite <- Hr. simpl.
    destruct (decide (found = ∅)) as [Hempty|Hempty].
    + repeat split; try constructor. intros e He. inversion He.
    + destruct (Hsorted found (target_domain (details r))) as (Hs & Hss & Hn).
      rewrite <- Hr in Hs, Hss, Hn. simpl in Hs, Hss, Hn.
      repeat split; try assumption.
      intros e He. rewrite <- Hr in Hd. simpl in Hd.
      destruct (filter_output_domains _ _ _ He) as (d & Hp & Hb & Ht).
      exists d. repeat split; try assumption.
      intros t Et. rewrite <- Hr in Et. simpl in Et. rewrite Et in Hd.
      apply determine_domain_and_name_target in Hd.
      destruct (sanitize_url_lower _ _ _ Hd) as [Hl Hne].
      rewrite (Ht t Et Hne). exact Hl.
Qed.

(** C6, as stated, fails for a target that is not lower-case, and for an
    empty one. *)
Lemma C6_counterexample :
  filter_blacklisted_emails (pyset ["a@acme.com"]) (Some "ACME.com")
  = ["a@acme.com"]
  /\ domain_part "a@acme.com" = Some "acme.com"
  /\ "acme.com" <> "ACME.com"
  /\ filter_blacklisted_emails (pyset ["a@acme.com"]) (Some EmptyString)
     = ["a@acme.com"].
Proof. repeat split; try (vm_compute; reflexivity). discriminate. Qed.

(** ** The search client *)

Section Search.

Variable be : backend.
Variables base_url query : string.
Variable max_pages : nat.

Lemma app_assoc (a b c : string) : (a +:+ b) +:+ c = a +:+ (b +:+ c).
Proof. induction a as [|x a IH]; [reflexivity|]. rewrite !app_cons. now rewrite IH. Qed.

Lemma app_nil_r (a : string) : a +:+ EmptyString = a.
Proof. induction a as [|x a IH]; [reflexivity|]. rewrite app_cons. now rewrite IH. Qed.

(** On a page whose entries are all objects the loop over the hits
    completes. *)
Lemma append_hits_objects results text :
  forallb is_object results = true ->
  append_hits results text = (fst (append_hits results text), true).
Proof.
  revert text. induction results as [|[t c|] results IH]; intros text H;
    simpl in *; [reflexivity| |discriminate].
  now apply IH.
Qed.

Lemma search_loop_S fuel page text n :
  search_loop be base_url query max_pages (S fuel) page text n
  = if Nat.leb page max_pages then
      match be n (search_url base_url query page) with
      | Page page_results =>
          match page_results with
          | _ :: _ =>
              match append_hits page_results text with
              | (text', true) =>
                  search_loop be base_url query max_pages fuel (S page) text' (S n)
              | (text', false) => (text', S n)
              end
          | [] => (text, S n)
          end
      | _ => (text, S n)
      end
    else (text, n).
Proof. reflexivity. Qed.

(** The loop spends at most one round of fuel per page: more fuel than
    pages left changes nothing. *)
Lemma search_loop_fuel fuel page text n :
  max_pages < fuel + page ->
  search_loop be base_url query max_pages (S fuel) page text n
  = search_loop be base_url query max_pages fuel page text n.
Proof.
  revert page text n. induction fuel as [|fuel IH]; intros page text n H.
  - rewrite search_loop_S. simpl.
    destruct (Nat.leb_spec page max_pages); [lia|reflexivity].
  - rewrite (search_loop_S (S fuel)), (search_loop_S fuel).
    destruct (Nat.leb page max_pages); [|reflexivity].
    destruct (be n _) as [[|h hs]| | | |]; try reflexivity.
    destruct (append_hits (h :: hs) text) as [text' [|]]; [|reflexivity].
    apply IH. lia.
Qed.

(** So the [max_pages] rounds that [search] starts with never cut the
    loop short. *)
Lemma search_fuel_enough extra n :
  search_loop be base_url query max_pages (max_pages + extra) 1 EmptyString n
  = search be base_url query max_pages n.
Proof.
  unfold search. induction extra as [|extra IH]; [now rewrite Nat.add_0_r|].
  rewrite Nat.add_succ_r, search_loop_fuel; [exact IH|lia].
Qed.

(** The loop over a run of successful pages followed by a failing one. *)
Lemma search_loop_failure pages :
  forall fuel page text n,
    length pages < fuel ->
    page + length pages <= max_pages ->
    (forall j hits, pages !! j = Some hits ->
       be (n + j) (search_url base_url query (page + j)) = Page hits
       /\ hits <> [] /\ forallb is_object hits = true) ->
    (forall hits, be (n + length pages)
                    (search_url base_url query (page + length pages))
                  <> Page hits) ->
    search_loop be base_url query max_pages fuel page text n
    = (fold_left (fun text page => fst (append_hits page text)) pages text,
       S (n + length pages)).
Proof.
  induction pages as [|p pages IH]; intros fuel page text n Hf Hp Hok Hfail;
    (destruct fuel as [|fuel]; [simpl in Hf; lia|]); rewrite search_loop_S;
    simpl length in *.
  - destruct (Nat.leb_spec page max_pages); [|lia].
    rewrite !Nat.add_0_r in *.
    destruct (be n (search_url base_url query page)) as [hits| | | |];
      try reflexivity.
    now destruct (Hfail hits).
  - destruct (Nat.leb_spec page max_pages); [|lia].
    destruct (Hok 0 p eq_refl) as (E & Hne & Hobj).
    rewrite !Nat.add_0_r in E. rewrite E.
    destruct p as [|h p]; [congruence|].
    rewrite (append_hits_objects _ _ Hobj).
    rewrite (IH fuel (S page) _ (S n)).
    + simpl. f_equal. lia.
    + lia.
    + lia.
    + intros j hits Hj. specialize (Hok (S j) hits Hj).
      now replace (S n + j) with (n + S j) by lia;
        replace (S page + j) with (page + S j) by lia.
    + intros hits. specialize (Hfail hits).
      now replace (S n + length pages) with (n + S (length pages)) by lia;
        replace (S page + length pages) with (page + S (length pages)) by lia.
Qed.

End Search.

(** The text aggregated from pages of well-formed hits is the
    concatenation of the texts of their hits. *)
Lemma append_hits_text results text :
  forallb is_object results = true ->
  fst (append_hits results text)
  = text +:+ String.concat EmptyString
      (List.map (fun h => match h with
                          | Hit t c => hit_text t c
                          | NotAnObject => EmptyString
                          end) results).
Proof.
  revert text. induction results as [|[t c|] results IH]; intros text H;
    simpl in *; [now rewrite app_nil_r| |discriminate].
  rewrite (IH _ H), app_assoc. f_equal.
  destruct results; [now rewrite app_nil_r|reflexivity].
Qed.

(** The text of one result, as the specification has it: the title, a
    line end, the content and two line ends, an absent or null field
    counting as empty. *)
Definition result_text (h : hit) : string :=
  match h with
  | Hit title content =>
      or_else title EmptyString +:+ newline
      +:+ or_else content EmptyString +:+ newline +:+ newline
  | NotAnObject => EmptyString
  end.

(** The text of pages of results: the texts of their results, in order. *)
Definition pages_text (pages : list (list hit)) : string :=
  String.concat EmptyString (List.map result_text (List.concat pages)).

Lemma concat_cons (x : string) (l : list string) :
  String.concat EmptyString (x :: l) = x +:+ String.concat EmptyString l.
Proof. destruct l; [now rewrite app_nil_r|reflexivity]. Qed.

Lemma concat_app (l k : list string) :
  String.concat EmptyString (l ++ k)
  = String.concat EmptyString l +:+ String.concat EmptyString k.
Proof.
  induction l as [|x l IH]; [reflexivity|].
  change ((x :: l) ++ k) with (x :: (l ++ k)).
  now rewrite !concat_cons, IH, app_assoc.
Qed.

(** What the loops of [search] aggregate from complete pages is the text
    of their results. *)
Lemma aggregate_pages_text pages :
  (forall j hits, pages !! j = Some hits -> forallb is_object hits = true) ->
  aggregate pages = pages_text pages.
Proof.
  unfold aggregate, pages_text. intros H.
  assert (forall text,
            fold_left (fun text page => fst (append_hits page text)) pages text
            = text +:+ String.concat EmptyString
                         (List.map result_text (List.concat pages))) as Hf.
  { induction pages as [|page pages IH]; intros text.
    - simpl. now rewrite app_nil_r.
    - cbn [fold_left List.concat]. rewrite IH.
      + rewrite (append_hits_text _ _ (H 0 page eq_refl)).
        rewrite List.map_app, concat_app, app_assoc. reflexivity.
      + intros j hits Hj. exact (H (S j) hits Hj). }
  now rewrite Hf.
Qed.

(** C7.  When pages 1 to k-1 of a query are fetched successfully (each a
    non-empty page of results) and the request for page k, k at most
    [max_pages], fails with a timeout, another request error, an
    undecodable body or any other exception, [search] stops there and
    returns exactly the text of the results of pages 1 to k-1, in order
    (for each result its title, a line end, its content and two line
    ends), the empty text when k = 1.  The failure is not raised:
    [search] returns, having made k requests. *)
Theorem C7_search_failure_isolation
    (be : backend) (base_url query : string) (max_pages n k : nat)
    (pages : list (list hit)) :
  k = S (length pages) ->
  k <= max_pages ->
  (forall j hits, pages !! j = Some hits ->
     be (n + j) (search_url base_url query (S j)) = Page hits
     /\ hits <> [] /\ forallb is_object hits = true) ->
  (let failed := be (n + length pages) (search_url base_url query k) in
   failed = Timeout \/ failed = RequestError \/ failed = JSONDecodeError
   \/ failed = Unexpected) ->
  search be base_url query max_pages n = (pages_text pages, n + k).
Proof.
  intros -> Hk Hok Hfail.
  rewrite <- aggregate_pages_text by (intros j hits Hj; now apply (Hok j)).
  unfold search, aggregate.
  rewrite (search_loop_failure be base_url query max_pages pages);
    try assumption; try lia.
  - f_equal. lia.
  - simpl in Hfail. intros hits E. simpl in E. rewrite E in Hfail.
    destruct Hfail as [|[|[|]]]; discriminate.
Qed.

(** A backend whose first answer is a page of three hits and which times
    out afterwards. *)
Definition three_hits : list hit :=
  [ Hit (Some "Acme") (Some "mail jane@acme.com");
    Hit None (Some "sales@acme.com");
    Hit (Some "About") None ].

Definition flaky : backend :=
  fun n _ => match n with O => Page three_hits | _ => Timeout end.

Lemma C7_witness :
  2 = S (length [three_hits])
  /\ 2 <= 2
  /\ (forall j hits, [three_hits] !! j = Some hits ->
        flaky (0 + j) (search_url "http://localhost:8080" "acme" (S j)) = Page hits
        /\ hits <> [] /\ forallb is_object hits = true)
  /\ (let failed := flaky (0 + length [three_hits])
                      (search_url "http://localhost:8080" "acme" 2) in
      failed = Timeout \/ failed = RequestError \/ failed = JSONDecodeError
      \/ failed = Unexpected)
  /\ search flaky "http://localhost:8080" "acme" 2 0
     = (pages_text [three_hits], 0 + 2)
  /\ pages_text [three_hits]
     = "Acme" +:+ newline +:+ "mail jane@acme.com" +:+ newline +:+ newline
       +:+ newline +:+ "sales@acme.com" +:+ newline +:+ newline
       +:+ "About" +:+ newline +:+ newline +:+ newline.
Proof.
  assert (forall j hits, [three_hits] !! j = Some hits ->
            flaky (0 + j) (search_url "http://localhost:8080" "acme" (S j))
            = Page hits
            /\ hits <> [] /\ forallb is_object hits = true) as Hok.
  { intros [|[|j]] hits; simpl; try discriminate.
    intros [= <-]. repeat split. discriminate. }
  assert (let failed := flaky (0 + length [three_hits])
                          (search_url "http://localhost:8080" "acme" 2) in
          failed = Timeout \/ failed = RequestError \/ failed = JSONDecodeError
          \/ failed = Unexpected)
    as Hfail by (left; reflexivity).
  refine (conj eq_refl (conj (le_n 2) (conj Hok (conj Hfail (conj _ _))))).
  - exact (C7_search_failure_isolation flaky "http://localhost:8080" "acme" 2
             0 2 [three_hits] eq_refl (le_n 2) Hok Hfail).
  - vm_compute. reflexivity.
Defined.

(** ** The e-mail pattern and the extractor *)

Section Matcher.

Import Regex.

Lemma take_drop n s : take n s +:+ Str.drop n s = s.
Proof.
  revert s. induction n as [|n IH]; intros [|c s]; try reflexivity.
  simpl. rewrite app_cons. now rewrite IH.
Qed.

Lemma forallb_take cls n s :
  n <= String.length (fst (Str.span cls s)) ->
  Str.forallb cls (take n s) = true /\ String.length (take n s) = n.
Proof.
  revert s. induction n as [|n IH]; intros s; [now destruct s|].
  destruct s as [|c s]; simpl; [lia|].
  destruct (cls c) eqn:Hc; simpl; [|lia].
  destruct (Str.span cls s) as [a b] eqn:E. simpl. intros H.
  destruct (IH s) as [H1 H2]; [rewrite E; simpl; lia|].
  now rewrite H1, H2.
Qed.

Lemma backoff_eq cont min n s :
  backoff cont min n s
  = if Nat.ltb n min then None
    else match cont (Str.drop n s) with
         | Some (m, r) => Some (take n s +:+ m, r)
         | None => match n with
                   | O => None
                   | S n' => backoff cont min n' s
                   end
         end.
Proof. now destruct n. Qed.

Lemma backoff_sound (P : string -> Prop) cont min cls :
  (forall s m r, cont s = Some (m, r) -> s = m +:+ r /\ P m) ->
  forall n s m r,
    n <= String.length (fst (Str.span cls s)) ->
    backoff cont min n s = Some (m, r) ->
    s = m +:+ r
    /\ exists a m', m = a +:+ m' /\ Str.forallb cls a = true
                    /\ min <= String.length a /\ P m'.
Proof.
  intros Hcont.
  assert (forall n s m' r', n <= String.length (fst (Str.span cls s)) ->
            ~ n < min -> cont (Str.drop n s) = Some (m', r') ->
            s = (take n s +:+ m') +:+ r'
            /\ exists a m0, take n s +:+ m' = a +:+ m0
                 /\ Str.forallb cls a = true
                 /\ min <= String.length a /\ P m0) as Hfound.
  { intros n s m' r' Hn Hmin E. apply Hcont in E as [E HP].
    destruct (forallb_take cls n s Hn) as [Hf Hl].
    split; [rewrite app_assoc, <- E; symmetry; apply take_drop|].
    exists (take n s), m'. repeat split; try assumption. lia. }
  induction n as [|n IH]; intros s m r Hn; rewrite backoff_eq.
  - destruct (Nat.ltb_spec0 0 min) as [|Hmin]; [discriminate|].
    destruct (cont (Str.drop 0 s)) as [[m' r']|] eqn:E; [|discriminate].
    intros [= <- <-]. exact (Hfound 0 s m' r' Hn Hmin E).
  - destruct (Nat.ltb_spec0 (S n) min) as [|Hmin]; [discriminate|].
    destruct (cont (Str.drop (S n) s)) as [[m' r']|] eqn:E.
    + intros [= <- <-]. exact (Hfound (S n) s m' r' Hn Hmin E).
    + apply IH. lia.
Qed.

Lemma match_here_sound p :
  forall s m r, match_here p s = Some (m, r) -> s = m +:+ r /\ denotes p m.
Proof.
  induction p as [|[cls|min cls] p IH]; intros s m r; simpl.
  - intros [= <- <-]. now split.
  - destruct s as [|c s]; [discriminate|].
    destruct (cls c) eqn:Hc; [|discriminate].
    destruct (match_here p s) as [[m' r']|] eqn:E; [|discriminate].
    intros [= <- <-]. apply IH in E as [-> HP].
    split; [reflexivity|]. now exists c, m'.
  - intros H. eapply (backoff_sound (denotes p)) in H; [exact H|exact IH|lia].
Qed.

Lemma findall_from_sound p skip s m :
  In m (findall_from p skip s) -> denotes p m.
Proof.
  revert skip. induction s as [|c s IH]; intros skip; simpl; [easy|].
  destruct skip as [|k]; [|apply IH].
  destruct (match_here p (String c s)) as [[m' r]|] eqn:E; [|apply IH].
  intros [<-|H]; [|now apply IH in H].
  now apply match_here_sound in E.
Qed.

End Matcher.

Lemma count_app k a b : Str.count k (a +:+ b) = Str.count k a + Str.count k b.
Proof.
  induction a as [|c a IH]; [reflexivity|].
  rewrite app_cons. simpl. rewrite IH. lia.
Qed.

Lemma forallb_count p k s :
  Str.forallb p s = true -> p k = false -> Str.count k s = 0.
Proof.
  intros Hs Hk. induction s as [|c s IH]; simpl in *; [reflexivity|].
  apply andb_true_iff in Hs as [Hc Hs]. rewrite (IH Hs).
  destruct (Ascii.eqb_spec c k) as [->|]; [congruence|reflexivity].
Qed.

(** A text described by [EMAIL_REGEX] has exactly one [@]. *)
Lemma email_regex_one_at m :
  Regex.denotes EMAIL_REGEX m -> Str.count "@" m = 1.
Proof.
  unfold EMAIL_REGEX. cbn [Regex.denotes].
  intros (l & m1 & -> & Hl & _ & c1 & m2 & -> & Hc1 & d & m3 & -> & Hd & _
          & c2 & m4 & -> & Hc2 & t & m5 & -> & Ht & _ & ->).
  unfold Char.is_char in Hc1, Hc2.
  apply Ascii.eqb_eq in Hc1, Hc2. subst c1 c2.
  rewrite count_app. simpl. rewrite count_app. simpl. rewrite count_app.
  rewrite (forallb_count _ _ _ Hl), (forallb_count _ _ _ Hd),
    (forallb_count _ _ _ Ht); reflexivity.
Qed.

Lemma extract_emails_from_text_spec text e :
  e ∈ extract_emails_from_text text ->
  exists m, In m (Regex.findall EMAIL_REGEX text) /\ e = Str.lower m.
Proof.
  unfold extract_emails_from_text. destruct (negb _); [set_solver|].
  unfold pyset. rewrite elem_of_list_to_set, list_elem_of_In, in_map_iff.
  intros (m & <- & Hm). now exists m.
Qed.

(** C10.  Every string the extractor returns has exactly one [@]; so the
    unpacking of the filter finds a local part and a domain part in it,
    and the [ValueError] branch of the filter is not taken on extractor
    output. *)
Theorem C10_extracted_emails_have_one_at (text e : string) :
  e ∈ extract_emails_from_text text ->
  Str.count "@" e = 1
  /\ exists local_part d,
       unpack2 (Str.split1 "@" e) = Some (local_part, d)
       /\ e = local_part +:+ String "@" d
       /\ Str.count "@" local_part = 0 /\ Str.count "@" d = 0.
Proof.
  intros He. apply extract_emails_from_text_spec in He as (m & Hm & ->).
  apply findall_from_sound, email_regex_one_at in Hm.
  rewrite (count_lower _ _ lower_char_at). split; [assumption|].
  rewrite <- (count_lower _ _ lower_char_at) in Hm.
  destruct (split1_present "@" (Str.lower m)) as (a & b & E & Ha & Hs); [lia|].
  exists a, b. rewrite E. repeat split; try assumption.
  rewrite Hs, count_app in Hm. simpl in Hm. lia.
Qed.

Lemma C10_witness :
  "jane.doe@acme.com" ∈ extract_emails_from_text "Write to Jane.Doe@ACME.com."
  /\ (Str.count "@" "jane.doe@acme.com" = 1
      /\ exists local_part d,
           unpack2 (Str.split1 "@" "jane.doe@acme.com") = Some (local_part, d)
           /\ "jane.doe@acme.com" = local_part +:+ String "@" d
           /\ Str.count "@" local_part = 0 /\ Str.count "@" d = 0).
Proof.
  assert ("jane.doe@acme.com"
          ∈ extract_emails_from_text "Write to Jane.Doe@ACME.com.") as H
    by (vm_compute; set_solver).
  split; [exact H|].
  exact (C10_extracted_emails_have_one_at _ _ H).
Defined.

(** ** Rendering the templates *)

Lemma lower_char_lbrace c : Ascii.eqb (Char.lower c) "{" = Ascii.eqb c "{".
Proof. by_char c. Qed.

Lemma lower_char_rbrace c : Ascii.eqb (Char.lower c) "}" = Ascii.eqb c "}".
Proof. by_char c. Qed.

(** A character of the sanitised domain, other than a letter, is a
    character of the input. *)
Lemma sanitize_url_contains chk url d k :
  sanitize_url chk url = Some d ->
  (forall c, Ascii.eqb (Char.lower c) k = Ascii.eqb c k) ->
  Str.contains k "https://" = false ->
  Str.contains k d = true -> Str.contains k url = true.
Proof.
  intros H Hk Hs Hd. destruct (sanitize_url_Some _ _ _ H) as (netloc & Hn & Hsn).
  destruct (sanitize_netloc_Some _ _ Hsn) as (-> & _).
  rewrite (contains_lower _ _ Hk) in Hd.
  apply contains_remove_port, contains_strip_www in Hd.
  apply (urlparse_netloc_contains _ _ _ _ Hn) in Hd.
  unfold with_scheme in Hd. destruct (Str.startswith_any _ url); [assumption|].
  rewrite contains_app, Hs in Hd. exact Hd.
Qed.

Lemma split_ws_from_contains k s :
  forall cur tok, In tok (Str.split_ws_from cur s) ->
    Str.contains k tok = true ->
    Str.contains k cur || Str.contains k s = true.
Proof.
  induction s as [|c s IH]; intros cur tok; simpl.
  - destruct (Str.is_empty cur); [easy|]. intros [<-|[]] ->. reflexivity.
  - destruct (Char.is_space c).
    + destruct (Str.is_empty cur).
      * intros Hin Hk. specialize (IH _ _ Hin Hk). simpl in IH.
        rewrite IH. now rewrite !orb_true_r.
      * intros [<-|Hin] Hk; [now rewrite Hk|].
        specialize (IH _ _ Hin Hk). simpl in IH.
        rewrite IH. now rewrite !orb_true_r.
    + intros Hin Hk. specialize (IH _ _ Hin Hk).
      rewrite contains_app in IH. simpl in IH.
      rewrite orb_false_r in IH.
      destruct (Str.contains k cur), (Ascii.eqb c k), (Str.contains k s);
        simpl in *; congruence.
Qed.

Lemma split_ws_contains k s tok :
  In tok (Str.split_ws s) -> Str.contains k tok = true -> Str.contains k s = true.
Proof. intros Hin Hk. exact (split_ws_from_contains k s _ _ Hin Hk). Qed.

Lemma brace_free_app a b : brace_free a -> brace_free b -> brace_free (a +:+ b).
Proof.
  intros [Ha1 Ha2] [Hb1 Hb2]. split; rewrite contains_app.
  - now rewrite Ha1, Hb1.
  - now rewrite Ha2, Hb2.
Qed.

(** [format] leaves a template without braces as it is. *)
Lemma format_brace_free fmt a t : brace_free t -> format fmt a t = Some t.
Proof.
  unfold format. intros [H1 H2]. induction t as [|c t IH]; [reflexivity|].
  simpl in H1, H2. apply orb_false_iff in H1 as [Hc1 H1].
  apply orb_false_iff in H2 as [Hc2 H2].
  cbn [format_from]. rewrite !prefix_cons.
  rewrite (Ascii.eqb_sym "{" c), (Ascii.eqb_sym "}" c), Hc1, Hc2. simpl.
  now rewrite IH.
Qed.

(** *** The clean-up leaves a query without two adjacent double quotes
    as it is *)

(** [apart q s]: no two double quotes are adjacent in [s], read after a
    double quote when [q] holds.  The result tells whether [s] ends the
    reading on a double quote. *)
Fixpoint apart (q : bool) (s : string) : option bool :=
  match s with
  | EmptyString => Some q
  | String c s' =>
      if Ascii.eqb c (ascii_of_N 34)
      then (if q then None else apart true s')
      else apart false s'
  end.

Lemma apart_app q a b :
  apart q (a +:+ b) = match apart q a with
                      | Some q' => apart q' b
                      | None => None
                      end.
Proof.
  revert q. induction a as [|c a IH]; intros q; [reflexivity|].
  rewrite app_cons. simpl. destruct (Ascii.eqb c _); [destruct q|]; auto.
Qed.

(** A non-empty text without double quote. *)
Definition plain (s : string) : Prop :=
  s <> EmptyString /\ Str.contains (ascii_of_N 34) s = false.

Lemma apart_plain q s : plain s -> apart q s = Some false.
Proof.
  intros [Hne Hs]. destruct s as [|c s]; [contradiction|]. clear Hne.
  revert c q Hs. induction s as [|c' s IH]; intros c q Hs; simpl in *.
  - now destruct (Ascii.eqb c _).
  - apply orb_false_iff in Hs as [-> Hs]. now apply (IH c' false).
Qed.

Lemma replace_apart old s :
  (String.prefix (dquote +:+ dquote) old = true
   \/ String.prefix (" " +:+ dquote +:+ dquote) old = true) ->
  forall q, apart q s <> None -> Str.replace old EmptyString s = s.
Proof.
  intros Hold. unfold Str.replace.
  induction s as [|c s IH]; intros q Hq; [reflexivity|].
  cbn [Str.replace_from].
  assert (String.prefix old (String c s) = false) as ->.
  { destruct (String.prefix old (String c s)) eqn:E; [|reflexivity].
    exfalso. apply Hq. clear IH Hq.
    destruct Hold as [Hold|Hold]; pose proof (prefix_trans _ _ _ Hold E) as H;
      clear Hold E.
    - change (dquote +:+ dquote)
        with (String (ascii_of_N 34) (String (ascii_of_N 34) EmptyString)) in H.
      rewrite prefix_cons in H. apply andb_true_iff in H as [Hc H].
      destruct s as [|c' s]; [simpl in H; discriminate|].
      rewrite prefix_cons in H. apply andb_true_iff in H as [Hc' _].
      apply Ascii.eqb_eq in Hc, Hc'. subst. simpl. now destruct q.
    - change (" " +:+ dquote +:+ dquote)
        with (String " " (String (ascii_of_N 34)
                (String (ascii_of_N 34) EmptyString))) in H.
      rewrite prefix_cons in H. apply andb_true_iff in H as [Hc H].
      destruct s as [|c' s]; [simpl in H; discriminate|].
      rewrite prefix_cons in H. apply andb_true_iff in H as [Hc' H].
      destruct s as [|c'' s]; [simpl in H; discriminate|].
      rewrite prefix_cons in H. apply andb_true_iff in H as [Hc'' _].
      apply Ascii.eqb_eq in Hc, Hc', Hc''. subst. reflexivity. }
  f_equal. simpl in Hq.
  destruct (Ascii.eqb c _); [destruct q; [contradiction|]|]; eapply IH; eassumption.
Qed.

Lemma clean_up_apart query : apart false query <> None -> clean_up query = query.
Proof.
  intros H. unfold clean_up.
  rewrite (replace_apart (dquote +:+ dquote +:+ " ") query (or_introl eq_refl)
             false H).
  exact (replace_apart (" " +:+ dquote +:+ dquote) query (or_intror eq_refl)
           false H).
Qed.

Lemma app_nil_l (a : string) : EmptyString +:+ a = a.
Proof. reflexivity. Qed.

Ltac solve_apart :=
  unfold quoted, dquote;
  repeat (rewrite ?app_cons, ?app_nil_l; cbn;
          first [ rewrite apart_app; rewrite apart_plain by assumption
                | rewrite apart_plain by assumption ]);
  rewrite ?app_cons, ?app_nil_l; cbn; discriminate.

(** A template rendered to a query without adjacent double quotes is sent
    as [format] made it. *)
Lemma render_apart fmt a template query :
  format fmt a template = Some query -> apart false query <> None ->
  render fmt a template = Some query.
Proof.
  intros Hf Hq. unfold render. rewrite Hf. now rewrite clean_up_apart.
Qed.

(** [format] on a closed template: the template is evaluated, then the
    fields are put in. *)
Ltac format_template :=
  unfold format;
  match goal with
  | |- format_from ?f ?a 0 ?t = _ =>
      let t' := eval vm_compute in t in change t with t'
  end;
  cbn; rewrite ?app_nil_r; reflexivity.

Ltac format_all :=
  repeat match goal with
         | |- context [format ?f ?a ?t] =>
             let H := fresh in
             eassert (format f a t = Some _) as H by format_template;
             rewrite H; clear H
         end.

Section Templates.

Variable fmt : field_oracle.
Variables name domain search : string.

Let a := {| kw_name := name; kw_domain := domain; kw_search_name := search |}.

Lemma format_templates_name_and_domain :
  mapM (format fmt a) templates_name_and_domain
  = Some [ dquote +:+ name +:+ dquote +:+ " " +:+ dquote +:+ domain +:+ dquote
             +:+ " email";
           dquote +:+ name +:+ dquote +:+ " email address " +:+ domain;
           "contact " +:+ dquote +:+ name +:+ dquote +:+ " " +:+ domain;
           dquote +:+ domain +:+ dquote +:+ " email";
           "contact " +:+ domain ].
Proof.
  unfold templates_name_and_domain. cbn [mapM]. format_all. reflexivity.
Qed.

Lemma format_templates_name_only :
  mapM (format fmt a) templates_name_only
  = Some [ dquote +:+ name +:+ dquote +:+ " " +:+ dquote +:+ search +:+ dquote
             +:+ " email";
           dquote +:+ name +:+ dquote +:+ " email address " +:+ dquote
             +:+ search +:+ dquote +:+ " company";
           "contact " +:+ dquote +:+ name +:+ dquote +:+ " " +:+ dquote
             +:+ search +:+ dquote;
           dquote +:+ search +:+ dquote +:+ " email" ].
Proof.
  unfold templates_name_only. cbn [mapM]. format_all. reflexivity.
Qed.

Ltac render_all :=
  repeat match goal with
         | |- context [render ?f ?a ?t] =>
             let H := fresh in
             eassert (render f a t = Some _) as H
               by (apply render_apart; [format_template|solve_apart]);
             rewrite H; clear H
         end.

Lemma render_templates_name_and_domain :
  plain name -> plain domain ->
  mapM (render fmt a) templates_name_and_domain
  = mapM (format fmt a) templates_name_and_domain.
Proof.
  intros Hn Hd. rewrite format_templates_name_and_domain.
  unfold templates_name_and_domain. cbn [mapM]. render_all. reflexivity.
Qed.

Lemma render_templates_name_only :
  plain name -> plain search ->
  mapM (render fmt a) templates_name_only = mapM (format fmt a) templates_name_only.
Proof.
  intros Hn Hs. rewrite format_templates_name_only.
  unfold templates_name_only. cbn [mapM]. render_all. reflexivity.
Qed.

End Templates.

(** C4, as the code has it.  With the contact name and the domain known,
    the base strategy has five templates in all: three that combine the
    quoted name with the domain (quoted in the first only), then the two
    domain-only fall-backs.  With the contact name known and no domain,
    it has four in all: three that combine the quoted name with the
    quoted search name, then one company-only fall-back.  The queries
    are the templates with the values put in; for values that are not
    empty and hold no double quote the clean-up changes none of them. *)
Theorem C4_base_strategy (fmt : field_oracle) (name domain search : string) :
  let a := {| kw_name := name; kw_domain := domain; kw_search_name := search |} in
  Str.truthy name = true ->
  (Str.truthy domain = true ->
   mapM (format fmt a) (base_templates (Some name) (Some domain))
   = Some [ dquote +:+ name +:+ dquote +:+ " " +:+ dquote +:+ domain +:+ dquote
              +:+ " email";
            dquote +:+ name +:+ dquote +:+ " email address " +:+ domain;
            "contact " +:+ dquote +:+ name +:+ dquote +:+ " " +:+ domain;
            dquote +:+ domain +:+ dquote +:+ " email";
            "contact " +:+ domain ])
  /\ (forall target, truthy_opt target = false ->
      mapM (format fmt a) (base_templates (Some name) target)
      = Some [ dquote +:+ name +:+ dquote +:+ " " +:+ dquote +:+ search +:+ dquote
                 +:+ " email";
               dquote +:+ name +:+ dquote +:+ " email address " +:+ dquote
                 +:+ search +:+ dquote +:+ " company";
               "contact " +:+ dquote +:+ name +:+ dquote +:+ " " +:+ dquote
                 +:+ search +:+ dquote;
               dquote +:+ search +:+ dquote +:+ " email" ])
  /\ (plain name -> plain domain ->
      mapM (render fmt a) (base_templates (Some name) (Some domain))
      = mapM (format fmt a) (base_templates (Some name) (Some domain)))
  /\ (plain name -> plain search ->
      forall target, truthy_opt target = false ->
      mapM (render fmt a) (base_templates (Some name) target)
      = mapM (format fmt a) (base_templates (Some name) target)).
Proof.
  intros a Hn.
  assert (forall target, truthy_opt target = false ->
            base_templates (Some name) target = templates_name_only) as Hnone.
  { intros target Ht. unfold base_templates. simpl. now rewrite Hn, Ht. }
  assert (Str.truthy domain = true ->
          base_templates (Some name) (Some domain) = templates_name_and_domain)
    as Hboth.
  { intros Hd. unfold base_templates. simpl. now rewrite Hn, Hd. }
  split; [|split; [|split]].
  - intros Hd. rewrite (Hboth Hd). apply format_templates_name_and_domain.
  - intros target Ht. rewrite (Hnone _ Ht). apply format_templates_name_only.
  - intros Hpn Hpd. rewrite Hboth; [now apply render_templates_name_and_domain|].
    destruct Hpd as [Hne _]. now destruct domain.
  - intros Hpn Hps target Ht. rewrite (Hnone _ Ht).
    now apply render_templates_name_only.
Qed.

(** C4, as stated, fails: the lists hold five and four templates, the
    fall-backs included, not seven and five. *)
Lemma C4_counterexample :
  List.length (base_templates (Some "Jane Doe") (Some "acme.com")) = 5
  /\ List.length (base_templates (Some "Jane Doe") None) = 4
  /\ mapM (render no_other_field {| kw_name := "Jane Doe"; kw_domain := "acme.com";
                     kw_search_name := "acme" |})
       (base_templates (Some "Jane Doe") (Some "acme.com"))
     = Some [ quoted "Jane Doe" +:+ " " +:+ quoted "acme.com" +:+ " email";
              quoted "Jane Doe" +:+ " email address acme.com";
              "contact " +:+ quoted "Jane Doe" +:+ " acme.com";
              quoted "acme.com" +:+ " email";
              "contact acme.com" ]
  /\ mapM (render no_other_field {| kw_name := "Jane Doe"; kw_domain := EmptyString;
                     kw_search_name := "Acme Corp" |})
       (base_templates (Some "Jane Doe") None)
     = Some [ quoted "Jane Doe" +:+ " " +:+ quoted "Acme Corp" +:+ " email";
              quoted "Jane Doe" +:+ " email address " +:+ quoted "Acme Corp"
                +:+ " company";
              "contact " +:+ quoted "Jane Doe" +:+ " " +:+ quoted "Acme Corp";
              quoted "Acme Corp" +:+ " email" ].
Proof. repeat split; vm_compute; reflexivity. Qed.

Lemma C4_witness :
  Str.truthy "Jane Doe" = true
  /\ ((Str.truthy "acme.com" = true ->
       mapM (format no_other_field {| kw_name := "Jane Doe"; kw_domain := "acme.com";
                       kw_search_name := "acme" |})
         (base_templates (Some "Jane Doe") (Some "acme.com"))
       = Some [ dquote +:+ "Jane Doe" +:+ dquote +:+ " " +:+ dquote +:+ "acme.com"
                  +:+ dquote +:+ " email";
                dquote +:+ "Jane Doe" +:+ dquote +:+ " email address " +:+ "acme.com";
                "contact " +:+ dquote +:+ "Jane Doe" +:+ dquote +:+ " " +:+ "acme.com";
                dquote +:+ "acme.com" +:+ dquote +:+ " email";
                "contact " +:+ "acme.com" ])
      /\ (forall target, truthy_opt target = false ->
          mapM (format no_other_field {| kw_name := "Jane Doe"; kw_domain := "acme.com";
                          kw_search_name := "acme" |})
            (base_templates (Some "Jane Doe") target)
          = Some [ dquote +:+ "Jane Doe" +:+ dquote +:+ " " +:+ dquote +:+ "acme"
                     +:+ dquote +:+ " email";
                   dquote +:+ "Jane Doe" +:+ dquote +:+ " email address " +:+ dquote
                     +:+ "acme" +:+ dquote +:+ " company";
                   "contact " +:+ dquote +:+ "Jane Doe" +:+ dquote +:+ " " +:+ dquote
                     +:+ "acme" +:+ dquote;
                   dquote +:+ "acme" +:+ dquote +:+ " email" ])
      /\ (plain "Jane Doe" -> plain "acme.com" ->
          mapM (render no_other_field {| kw_name := "Jane Doe"; kw_domain := "acme.com";
                          kw_search_name := "acme" |})
            (base_templates (Some "Jane Doe") (Some "acme.com"))
          = mapM (format no_other_field {| kw_name := "Jane Doe"; kw_domain := "acme.com";
                            kw_search_name := "acme" |})
              (base_templates (Some "Jane Doe") (Some "acme.com")))
      /\ (plain "Jane Doe" -> plain "acme" ->
          forall target, truthy_opt target = false ->
          mapM (render no_other_field {| kw_name := "Jane Doe"; kw_domain := "acme.com";
                          kw_search_name := "acme" |})
            (base_templates (Some "Jane Doe") target)
          = mapM (format no_other_field {| kw_name := "Jane Doe"; kw_domain := "acme.com";
                            kw_search_name := "acme" |})
              (base_templates (Some "Jane Doe") target))).
Proof.
  split; [reflexivity|].
  apply (C4_base_strategy no_other_field "Jane Doe" "acme.com" "acme").
  reflexivity.
Defined.

(** ** The run *)

Section Run.

Variable chk : string -> bool.
Variable be : backend.
Variable fmt : field_oracle.


Lemma render_is_Some a t : is_Some (render fmt a t) <-> is_Some (format fmt a t).
Proof.
  unfold render. destruct (format fmt a t); [|reflexivity].
  split; intros _; eexists; reflexivity.
Qed.




End Run.

(** ** When the plan renders *)

Lemma base_templates_format fmt a ceo_name target :
  Forall (fun t => is_Some (format fmt a t)) (base_templates ceo_name target).
Proof.
  unfold base_templates.
  repeat match goal with |- context [if ?b then _ else _] => destruct b end;
    repeat constructor; eexists; format_template.
Qed.

Lemma brace_free_lower s : brace_free s -> brace_free (Str.lower s).
Proof.
  intros [H1 H2]. split.
  - now rewrite (contains_lower _ _ lower_char_lbrace).
  - now rewrite (contains_lower _ _ lower_char_rbrace).
Qed.

Lemma brace_free_token s tok :
  brace_free s -> In tok (Str.split_ws s) -> brace_free tok.
Proof.
  intros [H1 H2] Hin. split.
  - destruct (Str.contains "{" tok) eqn:E; [|reflexivity].
    now rewrite (split_ws_contains _ _ _ Hin E) in H1.
  - destruct (Str.contains "}" tok) eqn:E; [|reflexivity].
    now rewrite (split_ws_contains _ _ _ Hin E) in H2.
Qed.

Lemma brace_free_head1 s : brace_free s -> brace_free (head1 s).
Proof.
  intros [H1 H2]. destruct s as [|c s]; [now split|]. simpl in *.
  apply orb_false_iff in H1 as [H1 _]. apply orb_false_iff in H2 as [H2 _].
  split; simpl; now rewrite ?H1, ?H2.
Qed.

Lemma brace_free_quoted s : brace_free s -> brace_free (quoted s).
Proof.
  intros H. unfold quoted. repeat apply brace_free_app; try assumption; now split.
Qed.

Lemma hd_In (l : list string) d : l <> [] -> In (List.hd d l) l.
Proof. destruct l; [congruence|]. now left. Qed.

Lemma last_In (l : list string) d : l <> [] -> In (List.last l d) l.
Proof.
  induction l as [|x [|y l] IH]; [congruence| |]; intros _.
  - now left.
  - right. apply IH. discriminate.
Qed.



Lemma determine_domain_brace_free chk company_input :
  brace_free company_input ->
  brace_free (or_else (snd (determine_domain_and_name chk company_input))
                EmptyString).
Proof.
  intros [H1 H2].
  destruct (determine_domain_and_name chk company_input) as [name [d|]] eqn:E;
    [|now split].
  apply determine_domain_and_name_target in E. simpl.
  destruct (Str.truthy d); [|now split].
  split.
  - destruct (Str.contains "{" d) eqn:Hc; [|reflexivity].
    now rewrite (sanitize_url_contains _ _ _ _ E lower_char_lbrace eq_refl Hc) in H1.
  - destruct (Str.contains "}" d) eqn:Hc; [|reflexivity].
    now rewrite (sanitize_url_contains _ _ _ _ E lower_char_rbrace eq_refl Hc) in H2.
Qed.





(** ** The permutation guesses *)

Example query_plan_jane_doe :
  query_plan accept_any no_other_field "acme.com" (Some "Jane Doe")
  = Some [ quoted "Jane Doe" +:+ " " +:+ quoted "acme.com" +:+ " email";
           quoted "Jane Doe" +:+ " email address acme.com";
           "contact " +:+ quoted "Jane Doe" +:+ " acme.com";
           quoted "acme.com" +:+ " email";
           "contact acme.com";
           quoted "jdoe@acme.com";
           quoted "jane.doe@acme.com";
           quoted "janedoe@acme.com";
           quoted "doe.jane@acme.com";
           quoted "jane@acme.com" ].
Proof. vm_compute. reflexivity. Qed.

(** The templates appended for a contact name of two or more words and a
    known domain are the five quoted addresses, after the base templates. *)
Lemma query_templates_guesses name d :
  2 <= List.length (Str.split_ws (Str.lower name)) ->
  Str.truthy d = true ->
  query_templates (Some name) (Some d)
  = templates_name_and_domain
    ++ permutation_guesses
         (List.hd EmptyString (Str.split_ws (Str.lower name)))
         (List.last (Str.split_ws (Str.lower name)) EmptyString) d.
Proof.
  intros Hl Hd. unfold query_templates, base_templates, permutation_templates.
  assert (Str.truthy name = true) as Hn.
  { destruct name; [simpl in Hl; lia|reflexivity]. }
  cbn [truthy_opt or_else]. rewrite Hn, Hd. cbn [andb].
  destruct (Nat.leb_spec 2 (List.length (Str.split_ws (Str.lower name))));
    [reflexivity|lia].
Qed.

Lemma lower_char_dquote c :
  Ascii.eqb (Char.lower c) (ascii_of_N 34) = Ascii.eqb c (ascii_of_N 34).
Proof. by_char c. Qed.

Lemma quote_free_app a b : quote_free a -> quote_free b -> quote_free (a +:+ b).
Proof. unfold quote_free. intros Ha Hb. now rewrite contains_app, Ha, Hb. Qed.

Lemma quote_free_token s tok :
  quote_free s -> In tok (Str.split_ws s) -> quote_free tok.
Proof.
  unfold quote_free. intros H Hin.
  destruct (Str.contains _ tok) eqn:E; [|reflexivity].
  now rewrite (split_ws_contains _ _ _ Hin E) in H.
Qed.

Lemma quote_free_head1 s : quote_free s -> quote_free (head1 s).
Proof.
  unfold quote_free. destruct s as [|c s]; [easy|]. simpl.
  intros H. apply orb_false_iff in H as [-> _]. reflexivity.
Qed.

(** A quoted address without brace and without double quote is sent as
    it is. *)
Lemma render_quoted_address fmt a x :
  brace_free x -> quote_free x -> Str.contains "@" x = true ->
  render fmt a (quoted x) = Some (quoted x).
Proof.
  intros Hb Hq Hat. apply render_apart.
  - now apply format_brace_free, brace_free_quoted.
  - assert (plain x) as Hp.
    { split; [|exact Hq]. intros ->. simpl in Hat. discriminate. }
    unfold quoted. solve_apart.
Qed.

(** Off the braces and double quotes, the plan of a run with a contact
    name of two or more words and a known domain ends with the five
    guesses, after five base queries. *)
Lemma query_plan_ends_with_guesses chk fmt company_input name d :
  snd (determine_domain_and_name chk company_input) = Some d ->
  2 <= List.length (Str.split_ws (Str.lower name)) ->
  brace_free name -> quote_free name ->
  brace_free company_input -> quote_free company_input ->
  exists base,
    List.length base = 5
    /\ query_plan chk fmt company_input (Some name)
       = Some (base ++ permutation_guesses
                         (List.hd EmptyString (Str.split_ws (Str.lower name)))
                         (List.last (Str.split_ws (Str.lower name)) EmptyString)
                         d).
Proof.
  intros Hd Hl Hbn Hqn Hbc Hqc. unfold query_plan.
  pose proof (determine_domain_brace_free chk _ Hbc) as Hbd.
  destruct (determine_domain_and_name chk company_input) as [sname domain] eqn:E.
  simpl in Hd. subst domain.
  pose proof (determine_domain_and_name_target _ _ _ _ E) as Hs.
  destruct (sanitize_url_dot _ _ _ Hs) as (_ & _ & Ht).
  simpl in Hbd. rewrite Ht in Hbd.
  assert (quote_free d) as Hqd.
  { unfold quote_free in *. destruct (Str.contains _ d) eqn:Hc; [|reflexivity].
    now rewrite (sanitize_url_contains _ _ _ _ Hs lower_char_dquote eq_refl Hc)
      in Hqc. }
  rewrite (query_templates_guesses _ _ Hl Ht).
  set (a := {| kw_name := _ |}).
  set (parts := Str.split_ws (Str.lower name)) in *.
  assert (parts <> []) as Hne by (destruct parts; [simpl in Hl; lia|discriminate]).
  assert (brace_free (Str.lower name)) as Hbl by now apply brace_free_lower.
  assert (quote_free (Str.lower name)) as Hql.
  { unfold quote_free. now rewrite (contains_lower _ _ lower_char_dquote). }
  pose proof (brace_free_token _ _ Hbl (hd_In parts EmptyString Hne)) as Hbf.
  pose proof (brace_free_token _ _ Hbl (last_In parts EmptyString Hne)) as Hbla.
  pose proof (quote_free_token _ _ Hql (hd_In parts EmptyString Hne)) as Hqf.
  pose proof (quote_free_token _ _ Hql (last_In parts EmptyString Hne)) as Hqla.
  assert (brace_free ".") as Hdot by now split.
  destruct (mapM_is_Some_2 (render fmt a) templates_name_and_domain) as [base Hbase].
  { apply Forall_forall. intros t Hin. apply render_is_Some.
    pose proof (base_templates_format fmt a (Some name) (Some d)) as Hb.
    assert (base_templates (Some name) (Some d) = templates_name_and_domain) as Eb.
    { unfold base_templates. simpl. rewrite Ht.
      destruct name; [simpl in Hl; lia|reflexivity]. }
    rewrite Eb, List.Forall_forall in Hb. apply Hb. now apply list_elem_of_In. }
  exists base. split.
  - symmetry. apply (length_mapM _ _ _ Hbase).
  - apply mapM_Some, Forall2_app; [now apply mapM_Some|].
    assert (brace_free "@") as Hat by now split.
    assert (quote_free "@") as Hqat by reflexivity.
    assert (quote_free ".") as Hqdot by reflexivity.
    pose proof (brace_free_head1 _ Hbf) as Hbh.
    pose proof (quote_free_head1 _ Hqf) as Hqh.
    unfold permutation_guesses.
    repeat constructor; apply render_quoted_address;
      try (repeat apply brace_free_app; assumption);
      try (repeat apply quote_free_app; assumption);
      rewrite !contains_app; simpl; now rewrite ?orb_true_r.
Qed.

(** C8 fails on the code.  The five guesses are built as literal quoted
    addresses, and then passed through [format] like the templates: a
    brace in the contact name is read as a replacement field.  For the
    name [Jane {name}] the guesses sent are not the addresses built from
    the lower-cased words; for [Jane Doe}] the run ends with the
    exception of [format]. *)
Theorem C8_guesses_are_formatted_again (fmt : field_oracle) :
  query_templates (Some "Jane {name}") (Some "acme.com")
  = templates_name_and_domain
    ++ [ quoted "j{name}@acme.com"; quoted "jane.{name}@acme.com";
         quoted "jane{name}@acme.com"; quoted "{name}.jane@acme.com";
         quoted "jane@acme.com" ]
  /\ query_plan accept_any fmt "acme.com" (Some "Jane {name}")
     = Some [ quoted "Jane {name}" +:+ " " +:+ quoted "acme.com" +:+ " email";
              quoted "Jane {name}" +:+ " email address acme.com";
              "contact " +:+ quoted "Jane {name}" +:+ " acme.com";
              quoted "acme.com" +:+ " email";
              "contact acme.com";
              quoted "jJane {name}@acme.com";
              quoted "jane.Jane {name}@acme.com";
              quoted "janeJane {name}@acme.com";
              quoted "Jane {name}.jane@acme.com";
              quoted "jane@acme.com" ]
  /\ query_plan accept_any fmt "acme.com" (Some "Jane Doe}") = None
  /\ find_emails_logic accept_any unreachable fmt "acme.com" (Some "Jane Doe}")
       "http://localhost:8080" = None.
Proof. repeat split; vm_compute; reflexivity. Qed.

(** ** Scenarios *)

Example extraction_scenario :
  let text := "Contact: Jane Doe jane.doe@ACME.com or support@acme.com (spam: x@hunter.io)" in
  extract_emails_from_text text
  = pyset ["jane.doe@acme.com"; "support@acme.com"; "x@hunter.io"]
  /\ filter_blacklisted_emails (extract_emails_from_text text) (Some "acme.com")
     = ["jane.doe@acme.com"; "support@acme.com"].
Proof. split; vm_compute; reflexivity. Qed.

(** A backend that answers every request with an empty page. *)
Definition no_results : backend := fun _ _ => Page [].

Example empty_result_scenario :
  find_emails_logic accept_any no_results no_other_field "acme.com" (Some "Jane Doe")
    "http://localhost:8080"
  = Some {| details := {| search_name := "acme";
                          target_domain := Some "acme.com" |};
            found_emails := [];
            error := None |}.
Proof. vm_compute. reflexivity. Qed.

Example page_failure_scenario :
  search flaky "http://localhost:8080" "acme" PAGES_PER_QUERY 0
  = ("Acme" +:+ newline +:+ "mail jane@acme.com" +:+ newline +:+ newline
     +:+ newline +:+ "sales@acme.com" +:+ newline +:+ newline
     +:+ "About" +:+ newline +:+ newline +:+ newline, 2).
Proof. vm_compute. reflexivity. Qed.

(** A guess with a conversion field is sent with what [format_field]
    gives for the field; a field that is not closed raises. *)
Example conversion_field_scenario
    (fmt : field_oracle) (a : format_args) (value : string) :
  fmt a "name!r" = Some value ->
  field_end InName "name!r}@acme.com" = Some "name!r"
  /\ format fmt a "j{name!r}@acme.com" = Some ("j" +:+ value +:+ "@acme.com")
  /\ format fmt a "j{name!r@acme.com" = None.
Proof.
  intros H. split; [reflexivity|]. split; [|reflexivity].
  unfold format. cbn. rewrite H. cbn. rewrite ?app_nil_r. reflexivity.
Qed.

(** The run on the flaky backend: the first page of the first query is
    all the text there is. *)
Definition flaky_result : result_dict :=
  {| details := {| search_name := "acme"; target_domain := Some "acme.com" |};
     found_emails := ["jane@acme.com"; "sales@acme.com"];
     error := None |}.

Lemma C6_witness :
  find_emails_logic accept_any flaky no_other_field "acme.com" None "http://localhost:8080"
  = Some flaky_result
  /\ (let out := found_emails flaky_result in
      Sorted String.le out /\ StronglySorted Str.lt out /\ NoDup out
      /\ forall e, e ∈ out ->
           exists d, domain_part e = Some d /\ (d ∉ BLACKLISTED_DOMAINS)
                     /\ forall t, target_domain (details flaky_result) = Some t ->
                                  d = t).
Proof.
  assert (find_emails_logic accept_any flaky no_other_field "acme.com" None
            "http://localhost:8080" = Some flaky_result) as Hr
    by (vm_compute; reflexivity).
  split; [exact Hr|].
  exact (proj2 (proj2 (proj2 (C6_filter_output_invariants ∅ None)))
           accept_any flaky no_other_field "acme.com" None "http://localhost:8080"
           flaky_result Hr).
Defined.

(** * Further properties of the code *)

(** ** [SearXNGClient.search]: the paging loop *)

Section Paging.

Variable be : backend.
Variables base_url query : string.
Variable max_pages : nat.

(** The loop never asks for more than the pages left: the request count
    grows by at most [max_pages + 1 - page]. *)
Lemma search_loop_requests fuel :
  forall page text n,
    n <= snd (search_loop be base_url query max_pages fuel page text n)
    /\ snd (search_loop be base_url query max_pages fuel page text n)
       <= n + (S max_pages - page).
Proof.
  induction fuel as [|fuel IH]; intros page text n; [cbn [search_loop snd]; lia|].
  rewrite search_loop_S.
  destruct (Nat.leb_spec page max_pages); [|cbn [snd]; lia].
  destruct (be n _) as [[|h hs]| | | |]; cbn [snd]; try lia.
  destruct (append_hits (h :: hs) text) as [text' [|]]; [|cbn [snd]; lia].
  specialize (IH (S page) text' (S n)). lia.
Qed.

(** The loop through a run of complete pages: it goes on from the page
    after them, with their text appended and one request made for each. *)
Lemma search_loop_pages pages :
  forall fuel page text n,
    page + length pages <= S max_pages ->
    (forall j hits, pages !! j = Some hits ->
       be (n + j) (search_url base_url query (page + j)) = Page hits
       /\ hits <> [] /\ forallb is_object hits = true) ->
    search_loop be base_url query max_pages (length pages + fuel) page text n
    = search_loop be base_url query max_pages fuel (page + length pages)
        (fold_left (fun text page => fst (append_hits page text)) pages text)
        (n + length pages).
Proof.
  induction pages as [|p pages IH]; intros fuel page text n Hp Hok.
  - simpl. now rewrite !Nat.add_0_r.
  - simpl length in *. rewrite Nat.add_succ_l, search_loop_S.
    destruct (Nat.leb_spec page max_pages); [|lia].
    destruct (Hok 0 p eq_refl) as (E & Hne & Hobj).
    rewrite !Nat.add_0_r in E. rewrite E.
    destruct p as [|h p]; [congruence|].
    rewrite (append_hits_objects _ _ Hobj).
    rewrite (IH fuel (S page) _ (S n)).
    + simpl. f_equal; lia.
    + lia.
    + intros j hits Hj. specialize (Hok (S j) hits Hj).
      now replace (S n + j) with (n + S j) by lia;
        replace (S page + j) with (page + S j) by lia.
Qed.

End Paging.

(** A search makes at least no and at most [max_pages] requests, whatever
    the backend answers. *)
Theorem search_request_bound
    (be : backend) (base_url query : string) (max_pages n : nat) :
  n <= snd (search be base_url query max_pages n)
  /\ snd (search be base_url query max_pages n) <= n + max_pages.
Proof.
  unfold search.
  pose proof (search_loop_requests be base_url query max_pages max_pages
                1 EmptyString n). lia.
Qed.

(** An empty page ends the paging: after k-1 complete pages, an empty
    page k gives the text of the results of the pages before it (for each
    result its title, a line end, its content and two line ends), and
    page k+1 is not asked for. *)
Theorem search_stops_at_empty_page
    (be : backend) (base_url query : string) (max_pages n k : nat)
    (pages : list (list hit)) :
  k = S (length pages) ->
  k <= max_pages ->
  (forall j hits, pages !! j = Some hits ->
     be (n + j) (search_url base_url query (S j)) = Page hits
     /\ hits <> [] /\ forallb is_object hits = true) ->
  be (n + length pages) (search_url base_url query k) = Page [] ->
  search be base_url query max_pages n = (pages_text pages, n + k).
Proof.
  intros -> Hk Hok Hempty.
  rewrite <- aggregate_pages_text by (intros j hits Hj; now apply (Hok j)).
  unfold search, aggregate.
  replace max_pages with (length pages + (max_pages - length pages)) at 2 by lia.
  rewrite search_loop_pages; [|lia|assumption].
  destruct (max_pages - length pages) as [|fuel] eqn:Ef; [lia|].
  rewrite search_loop_S.
  destruct (Nat.leb_spec (1 + length pages) max_pages); [|lia].
  simpl Nat.add. rewrite Hempty. f_equal. lia.
Qed.

(** When every one of the [max_pages] pages is complete, the text of the
    results of all of them is returned, in order, and exactly [max_pages]
    requests are made: no page beyond [max_pages] is asked for. *)
Theorem search_reads_all_pages
    (be : backend) (base_url query : string) (max_pages n : nat)
    (pages : list (list hit)) :
  length pages = max_pages ->
  (forall j hits, pages !! j = Some hits ->
     be (n + j) (search_url base_url query (S j)) = Page hits
     /\ hits <> [] /\ forallb is_object hits = true) ->
  search be base_url query max_pages n = (pages_text pages, n + max_pages).
Proof.
  intros Hl Hok.
  rewrite <- aggregate_pages_text by (intros j hits Hj; now apply (Hok j)).
  unfold search, aggregate.
  replace max_pages with (length pages + 0) at 2 by lia.
  rewrite search_loop_pages; [|lia|assumption].
  simpl. now rewrite Hl.
Qed.

(** A page with an entry that is no object ends the paging, and the text
    of the results before that entry is kept, after the text of the
    complete pages; the results after it are not read. *)
Theorem search_keeps_partial_page
    (be : backend) (base_url query : string) (max_pages n k : nat)
    (pages : list (list hit)) (good rest : list hit) :
  k = S (length pages) ->
  k <= max_pages ->
  (forall j hits, pages !! j = Some hits ->
     be (n + j) (search_url base_url query (S j)) = Page hits
     /\ hits <> [] /\ forallb is_object hits = true) ->
  forallb is_object good = true ->
  be (n + length pages) (search_url base_url query k)
  = Page (good ++ NotAnObject :: rest) ->
  search be base_url query max_pages n = (pages_text (pages ++ [good]), n + k).
Proof.
  intros -> Hk Hok Hgood Hpage.
  assert (pages_text (pages ++ [good]) = fst (append_hits good (aggregate pages)))
    as ->.
  { rewrite <- aggregate_pages_text.
    - unfold aggregate. now rewrite fold_left_app.
    - intros j hits Hj. apply lookup_app_Some in Hj as [Hj|[_ Hj]];
        [now apply (Hok j)|].
      destruct (j - length pages) as [|i]; [|discriminate].
      now injection Hj as <-. }
  unfold search, aggregate.
  replace max_pages with (length pages + (max_pages - length pages)) at 2 by lia.
  rewrite search_loop_pages; [|lia|assumption].
  destruct (max_pages - length pages) as [|fuel] eqn:Ef; [lia|].
  rewrite search_loop_S.
  destruct (Nat.leb_spec (1 + length pages) max_pages); [|lia].
  simpl Nat.add. rewrite Hpage.
  set (text := fold_left _ pages EmptyString).
  assert (forall t, append_hits (good ++ NotAnObject :: rest) t
                    = (fst (append_hits good t), false)) as Happ.
  { clear -Hgood. induction good as [|[a b|] good IH]; intros t; simpl in *;
      [reflexivity| |discriminate]. now apply IH. }
  rewrite Happ.
  destruct (good ++ NotAnObject :: rest) eqn:E;
    [now destruct good|]. f_equal. lia.
Qed.

(** Backends for the paging scenarios: one page of hits and then empty
    pages; hits on every page; one page of hits and then a page whose
    second entry is no object. *)
Definition drying_up : backend :=
  fun n _ => match n with O => Page three_hits | _ => Page [] end.

Definition plentiful : backend := fun _ _ => Page three_hits.

Definition ragged : backend :=
  fun n _ =>
    match n with
    | O => Page three_hits
    | _ => Page ([Hit (Some "Team") (Some "joe@acme.com")]
                   ++ NotAnObject :: [Hit None (Some "lost@acme.com")])
    end.

Lemma search_stops_at_empty_page_witness :
  2 = S (length [three_hits])
  /\ 2 <= 2
  /\ (forall j hits, [three_hits] !! j = Some hits ->
        drying_up (0 + j) (search_url "http://localhost:8080" "acme" (S j))
        = Page hits
        /\ hits <> [] /\ forallb is_object hits = true)
  /\ drying_up (0 + length [three_hits])
       (search_url "http://localhost:8080" "acme" 2) = Page []
  /\ search drying_up "http://localhost:8080" "acme" 2 0
     = (pages_text [three_hits], 0 + 2).
Proof.
  assert (forall j hits, [three_hits] !! j = Some hits ->
            drying_up (0 + j) (search_url "http://localhost:8080" "acme" (S j))
            = Page hits
            /\ hits <> [] /\ forallb is_object hits = true) as Hok.
  { intros [|[|j]] hits; simpl; try discriminate.
    intros [= <-]. repeat split. discriminate. }
  refine (conj eq_refl (conj (le_n 2) (conj Hok (conj eq_refl _)))).
  exact (search_stops_at_empty_page drying_up "http://localhost:8080" "acme"
           2 0 2 [three_hits] eq_refl (le_n 2) Hok eq_refl).
Defined.

Lemma search_reads_all_pages_witness :
  length [three_hits; three_hits] = 2
  /\ (forall j hits, [three_hits; three_hits] !! j = Some hits ->
        plentiful (0 + j) (search_url "http://localhost:8080" "acme" (S j))
        = Page hits
        /\ hits <> [] /\ forallb is_object hits = true)
  /\ search plentiful "http://localhost:8080" "acme" 2 0
     = (pages_text [three_hits; three_hits], 0 + 2).
Proof.
  assert (forall j hits, [three_hits; three_hits] !! j = Some hits ->
            plentiful (0 + j) (search_url "http://localhost:8080" "acme" (S j))
            = Page hits
            /\ hits <> [] /\ forallb is_object hits = true) as Hok.
  { intros [|[|[|j]]] hits; simpl; try discriminate;
      intros [= <-]; repeat split; discriminate. }
  refine (conj eq_refl (conj Hok _)).
  exact (search_reads_all_pages plentiful "http://localhost:8080" "acme"
           2 0 [three_hits; three_hits] eq_refl Hok).
Defined.

Lemma search_keeps_partial_page_witness :
  2 = S (length [three_hits])
  /\ 2 <= 2
  /\ (forall j hits, [three_hits] !! j = Some hits ->
        ragged (0 + j) (search_url "http://localhost:8080" "acme" (S j))
        = Page hits
        /\ hits <> [] /\ forallb is_object hits = true)
  /\ forallb is_object [Hit (Some "Team") (Some "joe@acme.com")] = true
  /\ ragged (0 + length [three_hits])
       (search_url "http://localhost:8080" "acme" 2)
     = Page ([Hit (Some "Team") (Some "joe@acme.com")]
               ++ NotAnObject :: [Hit None (Some "lost@acme.com")])
  /\ search ragged "http://localhost:8080" "acme" 2 0
     = (pages_text ([three_hits] ++ [[Hit (Some "Team") (Some "joe@acme.com")]]),
        0 + 2).
Proof.
  assert (forall j hits, [three_hits] !! j = Some hits ->
            ragged (0 + j) (search_url "http://localhost:8080" "acme" (S j))
            = Page hits
            /\ hits <> [] /\ forallb is_object hits = true) as Hok.
  { intros [|[|j]] hits; simpl; try discriminate.
    intros [= <-]. repeat split. discriminate. }
  refine (conj eq_refl (conj (le_n 2) (conj Hok (conj eq_refl (conj eq_refl _))))).
  exact (search_keeps_partial_page ragged "http://localhost:8080" "acme"
           2 0 2 [three_hits] [Hit (Some "Team") (Some "joe@acme.com")]
           [Hit None (Some "lost@acme.com")] eq_refl (le_n 2) Hok eq_refl eq_refl).
Defined.

(** ** [SearXNGClient.__init__] and the request URL *)

Lemma rstrip_by_app p s :
  exists t, s = Str.rstrip_by p s +:+ t /\ Str.forallb p t = true.
Proof.
  induction s as [|c s (t & E & Ht)]; [now exists EmptyString|].
  simpl. destruct (Str.rstrip_by p s) as [|d r] eqn:Er.
  - simpl. destruct (p c) eqn:Hc.
    + exists (String c s). split; [reflexivity|].
      simpl. rewrite Hc. simpl in E. now rewrite E.
    + exists t. split; [|assumption]. rewrite app_cons. now f_equal.
  - simpl. exists t. split; [|assumption]. rewrite app_cons. now f_equal.
Qed.

Lemma rstrip_by_last p s v c :
  Str.rstrip_by p s = v +:+ String c EmptyString -> p c = false.
Proof.
  revert v. induction s as [|d s IH]; intros v; simpl.
  - destruct v; discriminate.
  - destruct (Str.rstrip_by p s) as [|e r] eqn:Er; simpl.
    + destruct (p d) eqn:Hd; [destruct v; discriminate|].
      destruct v as [|x [|y v]]; simpl; try discriminate. now intros [= <-].
    + destruct v as [|x v]; [discriminate|].
      rewrite app_cons. intros [= _ E]. now apply (IH v).
Qed.

Lemma prefix_app p s : String.prefix p (p +:+ s) = true.
Proof.
  induction p as [|c p IH]; [now destruct s|].
  rewrite app_cons, prefix_cons, Ascii.eqb_refl. exact IH.
Qed.

Lemma prefix_split p s :
  String.prefix p s = true -> s = p +:+ Str.drop (String.length p) s.
Proof.
  revert s. induction p as [|c p IH]; intros s; [reflexivity|].
  destruct s as [|d s]; [discriminate|].
  rewrite prefix_cons. intros H. apply andb_true_iff in H as [E H].
  apply Ascii.eqb_eq in E. subst d. rewrite app_cons. simpl. f_equal. now apply IH.
Qed.

Lemma rstrip_by_keep p c s :
  p c = false -> Str.rstrip_by p (String c s) = String c (Str.rstrip_by p s).
Proof. intros H. simpl. now rewrite H, andb_false_r. Qed.

(** The client accepts exactly the base URLs that start with [http://] or
    [https://]; the base URL it keeps is the given one without its
    trailing slashes: it still starts with [http] and does not end with a
    slash, so that the request path is joined with one slash. *)
Theorem SearXNGClient_base_url (base_url : string) :
  match SearXNGClient base_url with
  | None =>
      String.prefix "http://" base_url = false
      /\ String.prefix "https://" base_url = false
  | Some kept =>
      (String.prefix "http://" base_url = true
       \/ String.prefix "https://" base_url = true)
      /\ (exists slashes, base_url = kept +:+ slashes
                          /\ Str.forallb (Char.is_char "/") slashes = true)
      /\ (forall v, kept <> v +:+ "/")
      /\ String.prefix "http" kept = true
  end.
Proof.
  assert (forall rest, String.prefix "http" rest = true ->
            String.prefix "http" (Str.rstrip_by (Char.is_char "/") rest) = true)
    as Hkeep.
  { intros rest H. apply prefix_split in H.
    set (d := Str.drop _ rest) in H. clearbody d. subst rest.
    rewrite !app_cons, !rstrip_by_keep by reflexivity.
    rewrite !prefix_cons, !Ascii.eqb_refl. cbn [andb].
    now destruct (Str.rstrip_by _ _). }
  unfold SearXNGClient, Str.startswith_any, Str.startswith. cbn [existsb].
  rewrite orb_false_r.
  destruct (String.prefix "http://" base_url) eqn:H1;
    [|destruct (String.prefix "https://" base_url) eqn:H2];
    cbn [orb negb]; rewrite ?orb_false_r, ?orb_true_r.
  2:{ assert (Str.truthy base_url = true) as ->
        by (apply prefix_split in H2; rewrite H2; reflexivity).
      cbn [negb]. repeat split.
      - now right.
      - apply rstrip_by_app.
      - intros v E. apply rstrip_by_last in E. discriminate.
      - apply Hkeep. now apply (prefix_trans "http" "https://"). }
  2:{ destruct (negb (Str.truthy base_url)); now split. }
  assert (Str.truthy base_url = true) as ->
    by (apply prefix_split in H1; rewrite H1; reflexivity).
  cbn [negb]. repeat split.
  - now left.
  - apply rstrip_by_app.
  - intros v E. apply rstrip_by_last in E. discriminate.
  - apply Hkeep. now apply (prefix_trans "http" "http://").
Qed.

Lemma forallb_app p a b :
  Str.forallb p (a +:+ b) = Str.forallb p a && Str.forallb p b.
Proof.
  induction a as [|c a IH]; [reflexivity|].
  rewrite app_cons. simpl. now rewrite IH, andb_assoc.
Qed.

(** What [quote_plus] produces: unreserved characters, [+] and [%]. *)
Definition escaped_char (c : ascii) : bool :=
  Urllib.always_safe c || Str.contains c "+%".

Lemma quote_char_escaped c :
  Str.forallb escaped_char (Urllib.quote_char c) = true.
Proof. by_char c. Qed.

Lemma quote_plus_escaped s :
  Str.forallb escaped_char (Urllib.quote_plus s) = true.
Proof.
  induction s as [|c s IH]; [reflexivity|].
  simpl. now rewrite forallb_app, quote_char_escaped, IH.
Qed.

(** *** Decoding the query *)

(** The value of a hexadecimal digit. *)
Definition hex_value (c : ascii) : option N :=
  let n := Char.code c in
  if Char.in_range 48 57 c then Some (n - 48)%N
  else if Char.in_range 65 70 c then Some (n - 55)%N
  else if Char.in_range 97 102 c then Some (n - 87)%N
  else None.

(** The bytes an encoded text stands for: a space for [+], the byte
    [XX] for [%XX], and the character itself otherwise. *)
Fixpoint decoded_bytes (s : string) : list N :=
  match s with
  | EmptyString => []
  | String c s' =>
      if Ascii.eqb c "+" then 32%N :: decoded_bytes s'
      else if Ascii.eqb c "%" then
        match s' with
        | String h1 (String h2 s'') =>
            match hex_value h1, hex_value h2 with
            | Some a, Some b => (16 * a + b)%N :: decoded_bytes s''
            | _, _ => Char.code c :: decoded_bytes s'
            end
        | _ => Char.code c :: decoded_bytes s'
        end
      else Char.code c :: decoded_bytes s'
  end.

(** The text that bytes in UTF-8 stand for, for code points below 256;
    [None] when they are no such text. *)
Fixpoint utf8_text (bytes : list N) : option string :=
  match bytes with
  | [] => Some EmptyString
  | b :: bytes' =>
      if (b <? 128)%N then option_map (String (ascii_of_N b)) (utf8_text bytes')
      else
        match bytes' with
        | b2 :: bytes'' =>
            if ((b =? 194) || (b =? 195))%N && (128 <=? b2)%N && (b2 <? 192)%N
            then option_map (String (ascii_of_N ((b - 192) * 64 + (b2 - 128))))
                   (utf8_text bytes'')
            else None
        | [] => None
        end
  end.

(** What the receiver of the request reads as the query: the decoding of
    the percent-encoding, with [+] for a space. *)
Definition unquote_plus (s : string) : option string :=
  utf8_text (decoded_bytes s).

Lemma decoded_bytes_quote_char c rest :
  decoded_bytes (Urllib.quote_char c +:+ rest)
  = Urllib.utf8 c ++ decoded_bytes rest.
Proof. by_char c. Qed.

Lemma utf8_text_utf8 c bytes :
  utf8_text (Urllib.utf8 c ++ bytes) = option_map (String c) (utf8_text bytes).
Proof. by_char c. Qed.

Lemma unquote_plus_quote_plus s :
  unquote_plus (Urllib.quote_plus s) = Some s.
Proof.
  unfold unquote_plus. induction s as [|c s IH]; [reflexivity|].
  cbn [Urllib.quote_plus].
  now rewrite decoded_bytes_quote_char, utf8_text_utf8, IH.
Qed.

(** The query is sent percent-encoded: between [q=] and [&format=json]
    the request URL holds the encoding of the query, which decodes to the
    query, character for character; the encoding holds only letters,
    digits, [_.-~], [+] and [%], so no character of the query can end the
    parameter or start another one. *)
Theorem search_url_query_is_escaped (base_url query : string) (page : nat) :
  exists q,
    search_url base_url query page
    = base_url +:+ "/search?q=" +:+ q +:+ "&format=json&pageno="
      +:+ NilEmpty.string_of_uint (Nat.to_uint page)
    /\ unquote_plus q = Some query
    /\ Str.forallb escaped_char q = true
    /\ (forall k, Str.contains k "&=#?/ ;" = true -> Str.contains k q = false)
    /\ (Str.is_empty q = Str.is_empty query).
Proof.
  exists (Urllib.quote_plus query). repeat split.
  - apply unquote_plus_quote_plus.
  - apply quote_plus_escaped.
  - intros k Hk. apply (forallb_contains escaped_char); [apply quote_plus_escaped|].
    revert Hk. clear. destruct k as [[] [] [] [] [] [] [] []]; vm_compute; congruence.
  - destruct query as [|c s]; [reflexivity|]. simpl.
    assert (Str.is_empty (Urllib.quote_char c) = false) as H by by_char c.
    destruct (Urllib.quote_char c); [discriminate|reflexivity].
Qed.

(** [quote_plus] on the query [Jane Doe & S\u00f6hne = 100%], the letter
    after the [S] being the code point 246. *)
Example unquote_plus_scenario :
  let query := "Jane Doe & S" +:+ String (ascii_of_N 246) "hne = 100%" in
  Urllib.quote_plus query = "Jane+Doe+%26+S%C3%B6hne+%3D+100%25"
  /\ unquote_plus "Jane+Doe+%26+S%C3%B6hne+%3D+100%25" = Some query.
Proof. split; vm_compute; reflexivity. Qed.

(** ** [sanitize_url]: what it reads of its input *)

Definition not_delimiter (c : ascii) : bool := negb (Str.contains c "/?#").

(** The authority of a URL whose text after the two slashes is [rest]. *)
Definition authority (rest : string) : string :=
  fst (Str.span not_delimiter (Urllib.remove_chars Urllib.unsafe_url_byte rest)).

(** The check of the brackets in [urlsplit]. *)
Definition checked (chk : string -> bool) (netloc : string) : option string :=
  let lb := Str.contains "[" netloc in
  let rb := Str.contains "]" netloc in
  if (lb && negb rb) || (rb && negb lb) then None
  else if lb && rb then
    if chk netloc then Some netloc else None
  else Some netloc.

(** The URL as [urlsplit] reads it after the scheme is taken off. *)
Definition prepared (url : string) : string :=
  Urllib.strip_scheme
    (Urllib.remove_chars Urllib.unsafe_url_byte
       (Str.lstrip_by Urllib.c0_control_or_space url)).

Lemma urlparse_netloc_prepared chk url :
  Urllib.urlparse_netloc chk url
  = if Str.startswith "//" (prepared url)
    then checked chk (Urllib.splitnetloc (prepared url))
    else Some EmptyString.
Proof. reflexivity. Qed.

Lemma prepared_scheme scheme rest :
  In scheme ["http://"; "https://"; "//"] ->
  prepared (scheme +:+ rest)
  = "//" +:+ Urllib.remove_chars Urllib.unsafe_url_byte rest.
Proof.
  unfold prepared.
  intros [<-|[<-|[<-|[]]]]; rewrite !app_cons, app_nil_l.
  - reflexivity.
  - reflexivity.
  - unfold Str.lstrip_by. cbn [Str.span]. 
    change (Urllib.c0_control_or_space "/") with false. cbn [snd].
    cbn [Urllib.remove_chars].
    change (Urllib.unsafe_url_byte "/") with false. cbv iota.
    unfold Urllib.strip_scheme. cbn [Str.span].
    change (negb (Ascii.eqb "/" ":")) with true. cbv iota.
    destruct (Str.span (fun c => negb (Ascii.eqb c ":")) _) as [a [|x b]];
      reflexivity.
Qed.

Lemma remove_chars_app p a b :
  Urllib.remove_chars p (a +:+ b)
  = Urllib.remove_chars p a +:+ Urllib.remove_chars p b.
Proof.
  induction a as [|c a IH]; [reflexivity|].
  rewrite app_cons. simpl. destruct (p c); [exact IH|].
  now rewrite app_cons, IH.
Qed.

Lemma forallb_remove_chars p q s :
  Str.forallb p s = true -> Str.forallb p (Urllib.remove_chars q s) = true.
Proof.
  induction s as [|c s IH]; [reflexivity|]. simpl.
  intros H. apply andb_true_iff in H as [Hc Hs].
  destruct (q c); simpl; [auto|]. now rewrite Hc, IH.
Qed.

Lemma span_stop p a c rest :
  Str.forallb p a = true -> p c = false ->
  Str.span p (a +:+ String c rest) = (a, String c rest).
Proof.
  intros Ha Hc. induction a as [|x a IH].
  - rewrite app_nil_l. simpl. now rewrite Hc.
  - simpl in Ha. apply andb_true_iff in Ha as [Hx Ha].
    rewrite app_cons. simpl. now rewrite Hx, (IH Ha).
Qed.

Lemma span_all p a :
  Str.forallb p a = true -> Str.span p a = (a, EmptyString).
Proof.
  intros Ha. induction a as [|x a IH]; simpl; [reflexivity|].
  simpl in Ha. apply andb_true_iff in Ha as [Hx Ha]. now rewrite Hx, (IH Ha).
Qed.

(** The authority ends at the first of [/?#]. *)
Lemma authority_cut a c rest :
  Str.forallb not_delimiter a = true -> not_delimiter c = false ->
  authority (a +:+ String c rest) = authority a.
Proof.
  intros Ha Hc. unfold authority.
  rewrite remove_chars_app. simpl.
  assert (Urllib.unsafe_url_byte c = false) as ->.
  { revert Hc. clear. destruct c as [[] [] [] [] [] [] [] []]; vm_compute; congruence. }
  rewrite span_stop, span_all; auto using forallb_remove_chars.
Qed.

Lemma authority_plain a :
  Str.forallb not_delimiter a = true ->
  authority a = Urllib.remove_chars Urllib.unsafe_url_byte a.
Proof.
  intros Ha. unfold authority. rewrite span_all; auto using forallb_remove_chars.
Qed.

Lemma prefix_empty s : String.prefix EmptyString s = true.
Proof. now destruct s. Qed.

Lemma urlparse_netloc_scheme chk scheme rest :
  In scheme ["http://"; "https://"; "//"] ->
  Urllib.urlparse_netloc chk (scheme +:+ rest) = checked chk (authority rest).
Proof.
  intros Hs. rewrite urlparse_netloc_prepared, (prepared_scheme _ _ Hs).
  rewrite !app_cons, app_nil_l. unfold Str.startswith.
  rewrite !prefix_cons, !Ascii.eqb_refl, prefix_empty. reflexivity.
Qed.

Lemma strip_keeps c s :
  Char.is_space c = false -> Str.truthy (Str.strip (String c s)) = true.
Proof.
  intros Hc. unfold Str.strip, Str.lstrip_by. simpl. rewrite Hc. simpl.
  now rewrite Hc, andb_false_r.
Qed.

Lemma with_scheme_scheme scheme rest :
  In scheme ["http://"; "https://"; "//"] ->
  with_scheme (scheme +:+ rest) = scheme +:+ rest.
Proof.
  unfold with_scheme, Str.startswith_any, Str.startswith. cbn [existsb].
  intros [<-|[<-|[<-|[]]]]; rewrite !prefix_app, ?orb_true_r; reflexivity.
Qed.

Lemma sanitize_url_scheme chk scheme rest :
  In scheme ["http://"; "https://"; "//"] ->
  sanitize_url chk (scheme +:+ rest)
  = match checked chk (authority rest) with
    | Some netloc => sanitize_netloc netloc
    | None => None
    end.
Proof.
  intros Hs. unfold sanitize_url.
  rewrite (with_scheme_scheme _ _ Hs), (urlparse_netloc_scheme _ _ _ Hs).
  assert (Str.truthy (Str.strip (scheme +:+ rest)) = true) as ->; [|reflexivity].
  destruct Hs as [<-|[<-|[<-|[]]]]; rewrite app_cons; now apply strip_keeps.
Qed.


(** Everything after the authority is ignored: a path, a query or a
    fragment after the host changes nothing in the result. *)
Theorem sanitize_url_ignores_path
    (chk : string -> bool) (scheme a rest : string) (c : ascii) :
  In scheme ["http://"; "https://"; "//"] ->
  Str.forallb not_delimiter a = true ->
  Str.contains c "/?#" = true ->
  sanitize_url chk (scheme +:+ a +:+ String c rest)
  = sanitize_url chk (scheme +:+ a).
Proof.
  intros Hs Ha Hc. rewrite !(sanitize_url_scheme _ _ _ Hs).
  rewrite authority_cut; [reflexivity|assumption|].
  unfold not_delimiter. now rewrite Hc.
Qed.

Lemma sanitize_url_ignores_path_witness :
  In "https://" ["http://"; "https://"; "//"]
  /\ Str.forallb not_delimiter "www.Example.com:8080" = true
  /\ Str.contains "/" "/?#" = true
  /\ sanitize_url accept_any
       ("https://" +:+ "www.Example.com:8080" +:+ String "/" "about?x=1#team")
     = sanitize_url accept_any ("https://" +:+ "www.Example.com:8080")
  /\ sanitize_url accept_any ("https://" +:+ "www.Example.com:8080")
     = Some "example.com".
Proof.
  refine (conj (or_intror (or_introl eq_refl)) (conj eq_refl (conj eq_refl
            (conj _ eq_refl)))).
  exact (sanitize_url_ignores_path accept_any "https://" "www.Example.com:8080"
           "about?x=1#team" "/" (or_intror (or_introl eq_refl)) eq_refl eq_refl).
Defined.

Lemma strip_truthy s :
  Str.truthy (Str.strip s) = negb (Str.forallb Char.is_space s).
Proof.
  unfold Str.strip, Str.lstrip_by. induction s as [|c s IH]; [reflexivity|].
  simpl. destruct (Char.is_space c) eqn:Hc.
  - destruct (Str.span Char.is_space s) as [a b]. exact IH.
  - simpl. now rewrite Hc, andb_false_r.
Qed.

Lemma plain_with_scheme a :
  Str.forallb not_delimiter a = true -> with_scheme a = "https://" +:+ a.
Proof.
  intros Ha. unfold with_scheme.
  assert (forall p, Str.contains "/" p = true -> Str.startswith p a = false) as Hp.
  { intros p Hp. destruct (Str.startswith p a) eqn:E; [|reflexivity].
    apply (prefix_contains _ _ "/" E) in Hp.
    now rewrite (forallb_contains _ "/" _ Ha) in Hp. }
  unfold Str.startswith_any. cbn [existsb]. now rewrite !Hp.
Qed.

Lemma sanitize_netloc_dot netloc :
  Str.contains "." netloc = false -> sanitize_netloc netloc = None.
Proof.
  intros Hn. destruct (sanitize_netloc netloc) as [d|] eqn:E; [|reflexivity].
  apply sanitize_netloc_Some in E as (-> & Hdot & _).
  rewrite (contains_lower _ _ lower_char_dot) in Hdot.
  apply contains_remove_port, contains_strip_www in Hdot. congruence.
Qed.

(** The same for an input without a scheme, the usual one: what follows
    the first of [/?#] is ignored. *)
Theorem sanitize_url_ignores_path_without_scheme
    (chk : string -> bool) (a rest : string) (c : ascii) :
  Str.forallb not_delimiter a = true ->
  Str.contains c "/?#" = true ->
  Str.startswith_any ["http://"; "https://"; "//"] (a +:+ String c rest) = false ->
  sanitize_url chk (a +:+ String c rest) = sanitize_url chk a.
Proof.
  intros Ha Hc Hs.
  assert (not_delimiter c = false) as Hd by (unfold not_delimiter; now rewrite Hc).
  assert (In "https://" ["http://"; "https://"; "//"]) as Hin by (right; now left).
  unfold sanitize_url, with_scheme at 1. rewrite Hs, (plain_with_scheme _ Ha).
  rewrite !(urlparse_netloc_scheme _ _ _ Hin), (authority_cut _ _ _ Ha Hd).
  rewrite !strip_truthy, forallb_app. simpl.
  assert (Char.is_space c = false) as ->.
  { revert Hc. clear. destruct c as [[] [] [] [] [] [] [] []]; vm_compute; congruence. }
  rewrite andb_false_r. cbn [negb].
  destruct (Str.forallb Char.is_space a) eqn:Hb; [|reflexivity].
  cbn [negb]. rewrite (authority_plain _ Ha).
  set (n := Urllib.remove_chars _ a).
  assert (Str.forallb Char.is_space n = true) as Hn
    by now apply forallb_remove_chars.
  unfold checked.
  rewrite (forallb_contains _ "[" _ Hn eq_refl), (forallb_contains _ "]" _ Hn eq_refl).
  cbn. apply sanitize_netloc_dot. exact (forallb_contains _ "." _ Hn eq_refl).
Qed.

Lemma sanitize_url_ignores_path_without_scheme_witness :
  Str.forallb not_delimiter "Example.com" = true
  /\ Str.contains "?" "/?#" = true
  /\ Str.startswith_any ["http://"; "https://"; "//"]
       ("Example.com" +:+ String "?" "ref=mail/1") = false
  /\ sanitize_url accept_any ("Example.com" +:+ String "?" "ref=mail/1")
     = sanitize_url accept_any "Example.com"
  /\ sanitize_url accept_any "Example.com" = Some "example.com".
Proof.
  refine (conj eq_refl (conj eq_refl (conj eq_refl (conj _ eq_refl)))).
  exact (sanitize_url_ignores_path_without_scheme accept_any "Example.com"
           "ref=mail/1" "?" eq_refl eq_refl eq_refl).
Defined.

(** *** A second pass *)

Definition netloc_char (c : ascii) : bool :=
  not_delimiter c && negb (Urllib.unsafe_url_byte c).

Lemma netloc_char_lower c : netloc_char (Char.lower c) = netloc_char c.
Proof. by_char c. Qed.

Lemma forallb_lower p s :
  (forall c, p (Char.lower c) = p c) ->
  Str.forallb p (Str.lower s) = Str.forallb p s.
Proof.
  intros Hp. induction s as [|c s IH]; simpl; [reflexivity|].
  now rewrite Hp, IH.
Qed.

Lemma forallb_drop p n s :
  Str.forallb p s = true -> Str.forallb p (Str.drop n s) = true.
Proof.
  revert s. induction n as [|n IH]; intros [|c s]; simpl; try easy.
  intros H. apply andb_true_iff in H as [_ H]. now apply IH.
Qed.

Lemma forallb_span p q s :
  Str.forallb p s = true ->
  Str.forallb p (fst (Str.span q s)) = true
  /\ Str.forallb p (snd (Str.span q s)) = true.
Proof.
  intros H. rewrite <- (span_app q s), forallb_app in H.
  now apply andb_true_iff in H.
Qed.

Lemma forallb_remove_port p s :
  Str.forallb p s = true -> Str.forallb p (remove_port s) = true.
Proof.
  induction s as [|c s IH]; simpl; [easy|].
  intros H. apply andb_true_iff in H as [Hc Hs].
  assert (Str.forallb p (String c (remove_port s)) = true) as Hcons
    by (simpl; now rewrite Hc, IH).
  destruct (Ascii.eqb c ":"); [|exact Hcons].
  unfold digits_to_end.
  destruct (forallb_span p Char.is_digit s Hs) as [_ Hr].
  destruct (Str.span Char.is_digit s) as [ds r]. simpl in Hr.
  destruct (Str.is_empty ds); [exact Hcons|].
  destruct (_ || _); [exact Hr|exact Hcons].
Qed.

Lemma forallb_strip_scheme p url :
  Str.forallb p url = true -> Str.forallb p (Urllib.strip_scheme url) = true.
Proof.
  intros H. unfold Urllib.strip_scheme.
  destruct (forallb_span p (fun c => negb (Ascii.eqb c ":")) url H) as [_ Hr].
  destruct (Str.span _ url) as [pre rest]. simpl in Hr.
  destruct pre as [|c0 pre]; [assumption|]. destruct rest as [|c rest]; [assumption|].
  destruct (_ && _); [|assumption].
  simpl in Hr. now apply andb_true_iff in Hr.
Qed.

Lemma forallb_removed p s :
  Str.forallb (fun c => negb (p c)) (Urllib.remove_chars p s) = true.
Proof.
  induction s as [|c s IH]; [reflexivity|]. simpl.
  destruct (p c) eqn:Hc; [exact IH|]. simpl. now rewrite Hc, IH.
Qed.

Lemma forallb_and p q s :
  Str.forallb p s = true -> Str.forallb q s = true ->
  Str.forallb (fun c => p c && q c) s = true.
Proof.
  induction s as [|c s IH]; [reflexivity|]. simpl.
  intros H1 H2. apply andb_true_iff in H1 as [-> H1].
  apply andb_true_iff in H2 as [-> H2]. now rewrite IH.
Qed.

Lemma remove_chars_none p s :
  Str.forallb (fun c => negb (p c)) s = true -> Urllib.remove_chars p s = s.
Proof.
  induction s as [|c s IH]; [reflexivity|]. simpl.
  intros H. apply andb_true_iff in H as [Hc Hs].
  apply negb_true_iff in Hc. now rewrite Hc, IH.
Qed.

Lemma forallb_weaken (p q : ascii -> bool) s :
  (forall c, p c = true -> q c = true) ->
  Str.forallb p s = true -> Str.forallb q s = true.
Proof.
  intros Hpq. induction s as [|c s IH]; [reflexivity|]. simpl.
  intros H. apply andb_true_iff in H as [Hc Hs]. now rewrite (Hpq _ Hc), IH.
Qed.

(** The authority [urlparse] returns holds none of [/?#] and no tab,
    carriage return or line feed. *)
Lemma urlparse_netloc_chars chk url netloc :
  Urllib.urlparse_netloc chk url = Some netloc ->
  Str.forallb netloc_char netloc = true.
Proof.
  rewrite urlparse_netloc_prepared.
  destruct (Str.startswith "//" _); [|now intros [= <-]].
  set (n := Urllib.splitnetloc _).
  assert (Str.forallb netloc_char n = true) as Hn.
  { apply forallb_and; [apply span_forallb|].
    apply forallb_span, forallb_drop, forallb_strip_scheme, forallb_removed. }
  unfold checked. destruct (_ || _); [discriminate|].
  destruct (_ && _); [destruct (chk n); [|discriminate]|]; now intros [= <-].
Qed.

Lemma sanitize_url_chars chk url d :
  sanitize_url chk url = Some d -> Str.forallb netloc_char d = true.
Proof.
  intros H. destruct (sanitize_url_Some _ _ _ H) as (netloc & Hn & Hs).
  destruct (sanitize_netloc_Some _ _ Hs) as (-> & _).
  rewrite (forallb_lower _ _ netloc_char_lower).
  apply forallb_remove_port. unfold strip_www.
  apply urlparse_netloc_chars in Hn.
  destruct (Str.startswith _ _); [now apply forallb_drop|assumption].
Qed.

(** A domain the normalisation returned, given to it again, comes back
    unchanged, when it has no further [www.] in front, no further port at
    its end and no bracket. *)
Theorem sanitize_url_idempotent (chk : string -> bool) (url d : string) :
  sanitize_url chk url = Some d ->
  Str.startswith "www." d = false ->
  has_port d = false ->
  Str.contains "[" d = false ->
  Str.contains "]" d = false ->
  sanitize_url chk d = Some d.
Proof.
  intros H Hw Hp Hl Hr.
  pose proof (sanitize_url_chars _ _ _ H) as Hc.
  destruct (sanitize_url_lower _ _ _ H) as [Hlow _].
  destruct (sanitize_url_Some _ _ _ H) as (netloc & _ & Hs).
  destruct (sanitize_netloc_Some _ _ Hs) as (_ & Hdot & Hlen).
  assert (Str.forallb not_delimiter d = true) as Hnd.
  { apply (forallb_weaken netloc_char); [|assumption].
    intros c Hx. now apply andb_true_iff in Hx. }
  assert (Urllib.remove_chars Urllib.unsafe_url_byte d = d) as Hrm.
  { apply remove_chars_none, (forallb_weaken netloc_char); [|assumption].
    intros c Hx. now apply andb_true_iff in Hx. }
  unfold sanitize_url. rewrite strip_truthy.
  assert (Str.forallb Char.is_space d = false) as ->.
  { destruct (Str.forallb Char.is_space d) eqn:E; [|reflexivity].
    now rewrite (forallb_contains _ "." _ E eq_refl) in Hdot. }
  cbn [negb]. rewrite (plain_with_scheme _ Hnd).
  rewrite (urlparse_netloc_scheme chk "https://" d) by (right; now left).
  rewrite (authority_plain _ Hnd), Hrm. unfold checked. rewrite Hl, Hr. cbn.
  unfold sanitize_netloc, strip_www. rewrite Hlow, Hw.
  assert (remove_port d = d) as ->.
  { unfold has_port in Hp. apply negb_false_iff in Hp. now apply String.eqb_eq. }
  rewrite Hdot, Hlow. destruct d; [discriminate|]. cbn [Str.is_empty negb orb].
  destruct (Nat.ltb_spec (last_label_length (String a d)) 2); [lia|reflexivity].
Qed.

Lemma sanitize_url_idempotent_witness :
  sanitize_url accept_any "https://www.Example.com:8080/about" = Some "example.com"
  /\ Str.startswith "www." "example.com" = false
  /\ has_port "example.com" = false
  /\ Str.contains "[" "example.com" = false
  /\ Str.contains "]" "example.com" = false
  /\ sanitize_url accept_any "example.com" = Some "example.com".
Proof.
  refine (conj eq_refl (conj eq_refl (conj eq_refl (conj eq_refl
            (conj eq_refl _))))).
  exact (sanitize_url_idempotent accept_any "https://www.Example.com:8080/about"
           "example.com" eq_refl eq_refl eq_refl eq_refl eq_refl).
Defined.

(** ** One [www.] and one port *)

Lemma remove_port_cons c s :
  remove_port (String c s)
  = if Ascii.eqb c ":" then
      match digits_to_end s with
      | Some rest => rest
      | None => String c (remove_port s)
      end
    else String c (remove_port s).
Proof. reflexivity. Qed.

Lemma has_port_cons c s :
  remove_port (String c s) = String c (remove_port s) ->
  has_port (String c s) = has_port s.
Proof.
  unfold has_port. intros ->. simpl. now rewrite Ascii.eqb_refl.
Qed.

(** What a port at the end is: a colon and digits, then the end of the
    text or a final line end, which the removal keeps. *)
Lemma has_port_inv s :
  has_port s = true ->
  exists body p tail,
    s = body +:+ ":" +:+ p +:+ tail
    /\ Str.forallb Char.is_digit p = true /\ p <> EmptyString
    /\ (tail = EmptyString \/ tail = newline)
    /\ remove_port s = body +:+ tail.
Proof.
  induction s as [|c s IH]; [discriminate|].
  assert (remove_port (String c s) = String c (remove_port s) ->
          has_port (String c s) = true ->
          exists body p tail,
            String c s = body +:+ ":" +:+ p +:+ tail
            /\ Str.forallb Char.is_digit p = true /\ p <> EmptyString
            /\ (tail = EmptyString \/ tail = newline)
            /\ remove_port (String c s) = body +:+ tail) as Hcons.
  { intros E H. rewrite (has_port_cons _ _ E) in H.
    destruct (IH H) as (body & p & tail & Hs & Hp & Hne & Ht & Hr).
    exists (String c body), p, tail. rewrite E, Hr, Hs at 1.
    rewrite !app_cons. auto. }
  rewrite remove_port_cons in Hcons |- *.
  destruct (Ascii.eqb_spec c ":") as [->|Hc]; [|now apply Hcons].
  destruct (digits_to_end s) as [rest|] eqn:E; [|now apply Hcons].
  intros _. pose proof (digits_to_end_rest _ _ E) as Hrest.
  unfold digits_to_end in E.
  pose proof (span_app Char.is_digit s) as Happ.
  pose proof (span_forallb Char.is_digit s) as Hds.
  destruct (Str.span Char.is_digit s) as [ds r]. simpl in Happ, Hds.
  destruct (Str.is_empty ds) eqn:Hne; [discriminate|].
  destruct (_ || _); [|discriminate]. injection E as <-.
  exists EmptyString, ds, r. rewrite !app_nil_l, app_cons, app_nil_l, Happ.
  repeat split; try assumption. intros ->. discriminate.
Qed.

Lemma contains_span_rest p k s :
  Str.contains k s = true -> p k = false ->
  Str.contains k (snd (Str.span p s)) = true.
Proof.
  intros Hk Hp. induction s as [|c s IH]; [discriminate|]. simpl.
  destruct (p c) eqn:Hc; [|exact Hk].
  simpl in Hk. destruct (Ascii.eqb_spec c k) as [->|]; [congruence|].
  specialize (IH Hk). now destruct (Str.span p s).
Qed.

(** A port at the end is taken off. *)
Lemma remove_port_app body p :
  p <> EmptyString -> Str.forallb Char.is_digit p = true ->
  remove_port (body +:+ ":" +:+ p) = body.
Proof.
  intros Hne Hp. induction body as [|c body IH].
  - rewrite app_nil_l, app_cons, app_nil_l, remove_port_cons.
    unfold digits_to_end. rewrite (span_all _ _ Hp). simpl.
    destruct p; [congruence|reflexivity].
  - rewrite app_cons, remove_port_cons, IH.
    destruct (Ascii.eqb c ":"); [|reflexivity].
    unfold digits_to_end.
    assert (Str.contains ":" (snd (Str.span Char.is_digit (body +:+ ":" +:+ p)))
            = true) as Hr.
    { apply contains_span_rest; [|reflexivity].
      rewrite contains_app. simpl. apply orb_true_r. }
    destruct (Str.span Char.is_digit (body +:+ ":" +:+ p)) as [ds r].
    simpl in Hr. destruct (Str.is_empty ds); [reflexivity|].
    destruct r as [|x [|y r]]; [discriminate| |].
    + simpl in Hr. rewrite orb_false_r in Hr. apply Ascii.eqb_eq in Hr.
      subst x. reflexivity.
    + unfold newline. simpl. now destruct (Ascii.eqb x _).
Qed.

(** The netloc of a URL holds no line end, so a port in it reaches its
    end. *)
Lemma has_port_plain s :
  Str.contains (ascii_of_N 10) s = false ->
  has_port s = true ->
  exists body p,
    s = body +:+ ":" +:+ p
    /\ Str.forallb Char.is_digit p = true /\ p <> EmptyString
    /\ remove_port s = body.
Proof.
  intros Hlf H. destruct (has_port_inv _ H) as (body & p & tail & Hs & Hp & Hne & Ht & Hr).
  destruct Ht as [->| ->].
  - exists body, p. rewrite !app_nil_r in *. auto.
  - rewrite Hs, !contains_app in Hlf. simpl in Hlf.
    rewrite !orb_true_r in Hlf. discriminate.
Qed.

(** C5, as the code has it.  A domain returned by [sanitize_url] (and so
    the target domain of every run that has one) is lower-case, holds no
    slash, so none of the scheme prefixes [http://], [https://] and [//],
    and has a dot whose last label is at least two characters long.  It
    is the authority of the URL, in lower case, with one leading [www.]
    and one trailing port taken off: a port at the end of the authority
    is removed, the domain still starts with [www.] only when the
    authority started with [www.www.] (letter case aside), and it still
    ends in a port only when the authority ended in two ports, of which
    the first is left.  A scheme name and a colon without slashes are not
    taken off. *)
Theorem C5_sanitize_url_invariants
    (chk : string -> bool) (url d : string) :
  (sanitize_url chk url = Some d
   \/ exists be fmt ceo_name searx_url r,
        find_emails_logic chk be fmt url ceo_name searx_url = Some r
        /\ target_domain (details r) = Some d) ->
  Str.lower d = d
  /\ Str.contains "/" d = false
  /\ Str.startswith_any ["http://"; "https://"; "//"] d = false
  /\ Str.contains "." d = true
  /\ 2 <= last_label_length d
  /\ exists netloc,
       Urllib.urlparse_netloc chk (with_scheme url) = Some netloc
       /\ d = Str.lower (remove_port (strip_www netloc))
       /\ (forall body p,
             strip_www netloc = body +:+ ":" +:+ p ->
             p <> EmptyString -> Str.forallb Char.is_digit p = true ->
             d = Str.lower body)
       /\ (Str.startswith "www." d = true ->
           Str.startswith "www.www." (Str.lower netloc) = true)
       /\ (has_port d = true ->
           exists body p1 p2,
             strip_www netloc = (body +:+ ":" +:+ p1) +:+ ":" +:+ p2
             /\ Str.forallb Char.is_digit p1 = true /\ p1 <> EmptyString
             /\ Str.forallb Char.is_digit p2 = true /\ p2 <> EmptyString
             /\ d = Str.lower (body +:+ ":" +:+ p1)).
Proof.
  intros H.
  assert (sanitize_url chk url = Some d) as Hs.
  { destruct H as [H|(be & fmt & ceo_name & searx_url & r & Hr & Ht)];
      [assumption|].
    apply find_emails_logic_details in Hr as [Hr _].
    rewrite Ht in Hr. now apply determine_domain_and_name_target in Hr. }
  clear H. destruct (sanitize_url_Some _ _ _ Hs) as (netloc & Hn & Hd).
  destruct (sanitize_netloc_Some _ _ Hd) as (-> & Hdot & Hl).
  assert (Str.contains "/" (Str.lower (remove_port (strip_www netloc))) = false)
    as Hslash.
  { rewrite (contains_lower _ _ lower_char_slash).
    destruct (Str.contains "/" (remove_port _)) eqn:E; [|reflexivity].
    apply contains_remove_port, contains_strip_www in E.
    now rewrite (urlparse_netloc_delimiters _ _ _ "/" Hn) in E. }
  assert (Str.contains (ascii_of_N 10) (strip_www netloc) = false) as Hlf.
  { destruct (Str.contains _ (strip_www netloc)) eqn:E; [|reflexivity].
    apply contains_strip_www in E.
    now rewrite (forallb_contains _ (ascii_of_N 10) _
                   (urlparse_netloc_chars _ _ _ Hn) eq_refl) in E. }
  split; [apply lower_idempotent|]. split; [assumption|].
  split; [|split; [assumption|split; [assumption|]]].
  - destruct (Str.startswith_any _ _) eqn:E; [|reflexivity].
    apply existsb_exists in E as (p & Hp & E).
    assert (Str.contains "/" p = true) as Hc
      by (simpl in Hp; destruct Hp as [<-|[<-|[<-|[]]]]; reflexivity).
    now rewrite (prefix_contains _ _ _ E Hc) in Hslash.
  - exists netloc. split; [assumption|]. split; [reflexivity|]. split; [|split].
    + intros body p -> Hne Hp. now rewrite remove_port_app.
    + apply sanitized_www.
    + intros Hport. apply has_port_lower in Hport.
      destruct (has_port (strip_www netloc)) eqn:Hx.
      * destruct (has_port_plain _ Hlf Hx) as (r & p2 & Hs2 & Hp2 & Hne2 & Hr).
        rewrite Hr in Hport |- *.
        assert (Str.contains (ascii_of_N 10) r = false) as Hlfr.
        { rewrite Hs2, contains_app in Hlf. now apply orb_false_iff in Hlf. }
        destruct (has_port_plain _ Hlfr Hport) as (body & p1 & -> & Hp1 & Hne1 & _).
        exists body, p1, p2. auto 10.
      * unfold has_port in Hx. apply negb_false_iff, String.eqb_eq in Hx.
        rewrite Hx in Hport. unfold has_port in Hport. rewrite Hx in Hport.
        now rewrite String.eqb_refl in Hport.
Qed.

(** C5, as stated, fails: only one [www.] and one port are removed, and a
    scheme without slashes is kept. *)
Lemma C5_counterexample :
  sanitize_url accept_any "www.www.example.com" = Some "www.example.com"
  /\ Str.startswith "www." "www.example.com" = true
  /\ sanitize_url accept_any "example.com:80:80" = Some "example.com:80"
  /\ has_port "example.com:80" = true
  /\ sanitize_url accept_any "http:example.com" = Some "http:example.com"
  /\ Str.startswith "http:" "http:example.com" = true.
Proof. repeat split; reflexivity. Qed.

Lemma C5_witness :
  sanitize_url accept_any "https://www.Example.com:8080/path" = Some "example.com"
  /\ (Str.lower "example.com" = "example.com"
      /\ Str.contains "/" "example.com" = false
      /\ Str.startswith_any ["http://"; "https://"; "//"] "example.com" = false
      /\ Str.contains "." "example.com" = true
      /\ 2 <= last_label_length "example.com"
      /\ exists netloc,
           Urllib.urlparse_netloc accept_any
             (with_scheme "https://www.Example.com:8080/path") = Some netloc
           /\ "example.com" = Str.lower (remove_port (strip_www netloc))
           /\ (forall body p,
                 strip_www netloc = body +:+ ":" +:+ p ->
                 p <> EmptyString -> Str.forallb Char.is_digit p = true ->
                 "example.com" = Str.lower body)
           /\ (Str.startswith "www." "example.com" = true ->
               Str.startswith "www.www." (Str.lower netloc) = true)
           /\ (has_port "example.com" = true ->
               exists body p1 p2,
                 strip_www netloc = (body +:+ ":" +:+ p1) +:+ ":" +:+ p2
                 /\ Str.forallb Char.is_digit p1 = true /\ p1 <> EmptyString
                 /\ Str.forallb Char.is_digit p2 = true /\ p2 <> EmptyString
                 /\ "example.com" = Str.lower (body +:+ ":" +:+ p1))).
Proof.
  split; [reflexivity|].
  apply (C5_sanitize_url_invariants accept_any
           "https://www.Example.com:8080/path" "example.com").
  left. reflexivity.
Defined.

(** ** The extractor: where its addresses come from *)

(** The parts of an address: a local part, a domain and a final label. *)
Definition email_parts (l d t : string) : Prop :=
  Str.forallb local_char l = true /\ 1 <= String.length l
  /\ Str.forallb domain_char d = true /\ 1 <= String.length d
  /\ Str.forallb Char.is_alpha t = true /\ 2 <= String.length t.

Definition address (l d t : string) : string :=
  l +:+ "@" +:+ d +:+ "." +:+ t.

Lemma denotes_email m :
  Regex.denotes EMAIL_REGEX m
  <-> exists l d t, m = address l d t /\ email_parts l d t.
Proof.
  unfold EMAIL_REGEX, address, email_parts. cbn [Regex.denotes]. split.
  - intros (l & m1 & -> & Hl & Hll & c1 & m2 & -> & Hc1 & d & m3 & -> & Hd & Hdl
            & c2 & m4 & -> & Hc2 & t & m5 & -> & Ht & Htl & ->).
    unfold Char.is_char in Hc1, Hc2. apply Ascii.eqb_eq in Hc1, Hc2. subst c1 c2.
    exists l, d, t. rewrite app_nil_r. auto 10.
  - intros (l & d & t & -> & Hl & Hll & Hd & Hdl & Ht & Htl).
    exists l, ("@" +:+ d +:+ "." +:+ t). repeat split; try assumption.
    exists "@"%char, (d +:+ "." +:+ t). repeat split.
    exists d, ("." +:+ t). repeat split; try assumption.
    exists "."%char, t. repeat split.
    exists t, EmptyString. rewrite app_nil_r. auto.
Qed.

Lemma lower_app a b : Str.lower (a +:+ b) = Str.lower a +:+ Str.lower b.
Proof.
  induction a as [|c a IH]; [reflexivity|].
  rewrite app_cons. simpl. now rewrite app_cons, IH.
Qed.

Lemma local_char_lower c : local_char (Char.lower c) = local_char c.
Proof. by_char c. Qed.

Lemma domain_char_lower c : domain_char (Char.lower c) = domain_char c.
Proof. by_char c. Qed.

Lemma is_alpha_lower c : Char.is_alpha (Char.lower c) = Char.is_alpha c.
Proof. by_char c. Qed.

(** Lower-casing an address gives an address. *)
Lemma email_parts_lower l d t :
  email_parts l d t ->
  email_parts (Str.lower l) (Str.lower d) (Str.lower t)
  /\ Str.lower (address l d t)
     = address (Str.lower l) (Str.lower d) (Str.lower t).
Proof.
  intros (Hl & Hll & Hd & Hdl & Ht & Htl). split.
  - unfold email_parts. rewrite !length_lower.
    rewrite (forallb_lower _ _ local_char_lower),
      (forallb_lower _ _ domain_char_lower), (forallb_lower _ _ is_alpha_lower).
    auto 10.
  - unfold address. now rewrite !lower_app.
Qed.

Section Finder.

Import Regex.

(** Each match is a piece of the text. *)
Lemma findall_from_piece p skip s m :
  In m (findall_from p skip s) -> exists pre post, s = pre +:+ m +:+ post.
Proof.
  revert skip. induction s as [|c s IH]; intros skip; simpl; [easy|].
  assert (forall k, In m (findall_from p k s) ->
            exists pre post, String c s = pre +:+ m +:+ post) as Hnext.
  { intros k H. apply IH in H as (pre & post & ->).
    now exists (String c pre), post. }
  destruct skip as [|k]; [|apply Hnext].
  destruct (match_here p (String c s)) as [[m' r]|] eqn:E; [|apply Hnext].
  intros [<-|H]; [|now apply Hnext in H].
  apply match_here_sound in E as [E _]. now exists EmptyString, r.
Qed.

Lemma drop_append a r : Str.drop (String.length a) (a +:+ r) = r.
Proof. induction a as [|c a IH]; [now destruct r|]. exact IH. Qed.

Lemma span_length cls a r :
  Str.forallb cls a = true ->
  String.length a <= String.length (fst (Str.span cls (a +:+ r))).
Proof.
  induction a as [|c a IH]; simpl; [lia|].
  intros H. apply andb_true_iff in H as [Hc Ha]. rewrite ?app_cons. simpl.
  rewrite Hc. specialize (IH Ha). destruct (Str.span cls (a +:+ r)). simpl in *. lia.
Qed.

(** The search backwards from the longest run finds a continuation when
    there is one. *)
Lemma backoff_complete cont min a r :
  is_Some (cont r) -> min <= String.length a ->
  forall n, String.length a <= n -> is_Some (backoff cont min n (a +:+ r)).
Proof.
  intros Hr Hmin. induction n as [|n IH]; intros Hn; rewrite backoff_eq.
  - destruct (Nat.ltb_spec 0 min); [lia|].
    destruct a; [|simpl in Hn; lia]. rewrite app_nil_l.
    replace (Str.drop 0 r) with r by now destruct r.
    destruct Hr as [[m x] ->]. eexists; reflexivity.
  - destruct (Nat.ltb_spec (S n) min); [lia|].
    destruct (cont (Str.drop (S n) (a +:+ r))) as [[m x]|] eqn:E;
      [eexists; reflexivity|].
    apply IH. destruct (Nat.eq_dec (String.length a) (S n)) as [El|]; [|lia].
    rewrite <- El, drop_append in E. rewrite E in Hr. now destruct Hr.
Qed.

Lemma match_here_complete p :
  forall m r, denotes p m -> is_Some (match_here p (m +:+ r)).
Proof.
  induction p as [|[cls|min cls] p IH]; intros m r; simpl.
  - intros ->. eexists; reflexivity.
  - intros (c & m' & -> & Hc & Hm). rewrite app_cons, Hc.
    destruct (IH m' r Hm) as [[x y] ->]. eexists; reflexivity.
  - intros (a & m' & -> & Ha & Hmin & Hm). rewrite app_assoc.
    apply backoff_complete; [now apply IH|assumption|now apply span_length].
Qed.

(** A text with a piece the pattern describes has a match. *)
Lemma findall_from_complete p pre m post :
  denotes p m -> m <> EmptyString ->
  findall_from p 0 (pre +:+ m +:+ post) <> [].
Proof.
  intros Hm Hne. induction pre as [|c pre IH].
  - rewrite app_nil_l. destruct m as [|c m]; [congruence|].
    destruct (match_here_complete p _ post Hm) as [[x y] E].
    rewrite app_cons in *. simpl findall_from. rewrite E. discriminate.
  - rewrite app_cons. simpl findall_from.
    destruct (match_here p _) as [[x y]|]; [discriminate|exact IH].
Qed.

End Finder.

Lemma findall_email text m :
  In m (Regex.findall EMAIL_REGEX text) ->
  exists pre post l d t,
    text = pre +:+ address l d t +:+ post /\ m = address l d t
    /\ email_parts l d t.
Proof.
  intros H. pose proof (findall_from_sound _ _ _ _ H) as Hd.
  apply findall_from_piece in H as (pre & post & ->).
  apply denotes_email in Hd as (l & d & t & -> & Hp).
  now exists pre, post, l, d, t.
Qed.

(** Every address the extractor returns is the lower-cased form of a
    piece of the text that has the shape of an address: a local part, an
    [@], a domain, a dot and a final label of two or more letters.  The
    address returned has that shape too, and is in lower case. *)
Theorem extracted_email_origin (text e : string) :
  e ∈ extract_emails_from_text text ->
  exists pre post l d t,
    text = pre +:+ address l d t +:+ post
    /\ email_parts l d t
    /\ e = address (Str.lower l) (Str.lower d) (Str.lower t)
    /\ email_parts (Str.lower l) (Str.lower d) (Str.lower t)
    /\ Str.lower e = e.
Proof.
  intros He. apply extract_emails_from_text_spec in He as (m & Hm & ->).
  apply findall_email in Hm as (pre & post & l & d & t & -> & -> & Hp).
  destruct (email_parts_lower _ _ _ Hp) as [Hlow El].
  exists pre, post, l, d, t. repeat split; try assumption; try apply Hp;
    try apply Hlow.
  apply lower_idempotent.
Qed.

Lemma extracted_email_origin_witness :
  "jane.doe@acme.com" ∈ extract_emails_from_text "Mail Jane.Doe@ACME.com now"
  /\ exists pre post l d t,
       "Mail Jane.Doe@ACME.com now" = pre +:+ address l d t +:+ post
       /\ email_parts l d t
       /\ "jane.doe@acme.com" = address (Str.lower l) (Str.lower d) (Str.lower t)
       /\ email_parts (Str.lower l) (Str.lower d) (Str.lower t)
       /\ Str.lower "jane.doe@acme.com" = "jane.doe@acme.com".
Proof.
  assert ("jane.doe@acme.com" ∈ extract_emails_from_text "Mail Jane.Doe@ACME.com now")
    as He by (vm_compute; set_solver).
  split; [exact He|].
  exact (extracted_email_origin "Mail Jane.Doe@ACME.com now" "jane.doe@acme.com" He).
Defined.

(** A text without [@] gives no address. *)
Theorem extract_nothing_without_at (text : string) :
  Str.contains "@" text = false -> extract_emails_from_text text = ∅.
Proof.
  intros Hat. apply set_eq. intros e. split; [|set_solver].
  intros He. apply extract_emails_from_text_spec in He as (m & Hm & _).
  apply findall_email in Hm as (pre & post & l & d & t & -> & _).
  unfold address in Hat. rewrite !contains_app in Hat.
  repeat (simpl in Hat; rewrite ?orb_true_r in Hat). discriminate.
Qed.

Lemma extract_nothing_without_at_witness :
  Str.contains "@" "write to jane.doe at acme.com" = false
  /\ extract_emails_from_text "write to jane.doe at acme.com" = ∅.
Proof.
  split; [reflexivity|].
  exact (extract_nothing_without_at "write to jane.doe at acme.com" eq_refl).
Defined.

(** A text that holds a piece of the shape of an address gives at least
    one address. *)
Theorem extract_finds_an_address (text pre post l d t : string) :
  text = pre +:+ address l d t +:+ post ->
  email_parts l d t ->
  exists e, e ∈ extract_emails_from_text text.
Proof.
  intros -> Hp.
  assert (address l d t <> EmptyString) as Hne.
  { destruct Hp as (_ & Hl & _). unfold address. destruct l; [simpl in Hl; lia|].
    rewrite app_cons. discriminate. }
  pose proof (findall_from_complete EMAIL_REGEX pre (address l d t) post
                (proj2 (denotes_email _) (ex_intro _ l (ex_intro _ d
                   (ex_intro _ t (conj eq_refl Hp))))) Hne) as Hf.
  unfold extract_emails_from_text.
  assert (Str.truthy (pre +:+ address l d t +:+ post) = true) as ->.
  { destruct (pre +:+ address l d t +:+ post); [|reflexivity].
    simpl in Hf. congruence. }
  cbn [negb]. fold (Regex.findall EMAIL_REGEX (pre +:+ address l d t +:+ post)) in Hf.
  destruct (Regex.findall EMAIL_REGEX _) as [|m ms]; [congruence|].
  exists (Str.lower m). unfold pyset. rewrite elem_of_list_to_set. simpl.
  apply list_elem_of_here.
Qed.

Lemma extract_finds_an_address_witness :
  "see (joe@acme.co)" = "see (" +:+ address "joe" "acme" "co" +:+ ")"
  /\ email_parts "joe" "acme" "co"
  /\ exists e, e ∈ extract_emails_from_text "see (joe@acme.co)".
Proof.
  assert (email_parts "joe" "acme" "co") as Hp.
  { unfold email_parts. simpl. repeat split; lia. }
  refine (conj eq_refl (conj Hp _)).
  exact (extract_finds_an_address "see (joe@acme.co)" "see (" ")" "joe" "acme" "co"
           eq_refl Hp).
Defined.

(** ** The filter: how it composes *)

(** Filtering the union of two candidate sets gives the candidates that
    filtering either of them gives: whether a candidate is kept depends on
    the candidate and the target alone.  So the one pass of the filter at
    the end of a run returns the list that filtering the candidates of
    each query, and then the merged outputs, would return. *)
Theorem filter_blacklisted_emails_union
    (A B : gset string) (target : option string) :
  (forall e, e ∈ filter_blacklisted_emails (A ∪ B) target
             <-> e ∈ filter_blacklisted_emails A target
                 \/ e ∈ filter_blacklisted_emails B target)
  /\ filter_blacklisted_emails (A ∪ B) target
     = filter_blacklisted_emails
         (pyset (filter_blacklisted_emails A target
                 ++ filter_blacklisted_emails B target)) target.
Proof.
  assert (forall e, e ∈ filter_blacklisted_emails (A ∪ B) target
                    <-> e ∈ filter_blacklisted_emails A target
                        \/ e ∈ filter_blacklisted_emails B target) as Hu.
  { intros e. rewrite !elem_of_filter_blacklisted_emails, elem_of_union. tauto. }
  split; [exact Hu|].
  apply sorted_unique;
    try apply filter_blacklisted_emails_Sorted;
    try apply filter_blacklisted_emails_NoDup.
  intros e. rewrite Hu, (elem_of_filter_blacklisted_emails (pyset _)).
  unfold pyset. rewrite elem_of_list_to_set, elem_of_app.
  rewrite !elem_of_filter_blacklisted_emails. tauto.
Qed.

Lemma Sorted_filter (P : string -> Prop) `{!forall x, Decision (P x)} l :
  Sorted String.le l -> Sorted String.le (filter P l).
Proof.
  intros Hs. apply Sorted_StronglySorted in Hs; [|apply _].
  apply StronglySorted_Sorted.
  induction Hs as [|x l Hs IH Hx]; [constructor|].
  destruct (decide (P x)) as [Hp|Hp].
  - rewrite filter_cons_True by assumption. constructor; [assumption|].
    rewrite Forall_forall in Hx |- *. intros y Hy.
    apply list_elem_of_filter in Hy as [_ Hy]. now apply Hx.
  - now rewrite filter_cons_False by assumption.
Qed.

(** A target only narrows the output: with a target that is not empty,
    the filter returns the part of its output without a target whose
    domain part is the target in lower case, in the same order. *)
Theorem filter_blacklisted_emails_target (emails : gset string) (t : string) :
  t <> EmptyString ->
  filter_blacklisted_emails emails (Some t)
  = filter (fun e => domain_part e = Some (Str.lower t))
      (filter_blacklisted_emails emails None).
Proof.
  intros Ht. apply sorted_unique.
  - apply filter_blacklisted_emails_Sorted.
  - apply Sorted_filter, filter_blacklisted_emails_Sorted.
  - apply filter_blacklisted_emails_NoDup.
  - apply NoDup_filter, filter_blacklisted_emails_NoDup.
  - intros e. rewrite list_elem_of_filter, !elem_of_filter_blacklisted_emails.
    rewrite !keeps_spec.
    assert (normalize_target (Some t) = Some (Str.lower t)) as ->
      by (destruct t; [congruence|reflexivity]).
    assert (truthy_opt (Some (Str.lower t)) = true) as ->
      by (destruct t; [congruence|reflexivity]).
    simpl. split.
    + intros (He & d & Hd & Hb & Hn). specialize (Hn eq_refl).
      injection Hn as ->. split; [assumption|]. split; [assumption|].
      exists d. now repeat split.
    + intros (Hd & He & d & Hd' & Hb & _). split; [assumption|].
      exists d. repeat split; try assumption. intros _. congruence.
Qed.

Lemma filter_blacklisted_emails_target_witness :
  "ACME.com" <> EmptyString
  /\ filter_blacklisted_emails (pyset ["b@x.org"; "a@acme.com"; "c@gmail.com"])
       (Some "ACME.com")
     = filter (fun e => domain_part e = Some (Str.lower "ACME.com"))
         (filter_blacklisted_emails
            (pyset ["b@x.org"; "a@acme.com"; "c@gmail.com"]) None)
  /\ filter_blacklisted_emails (pyset ["b@x.org"; "a@acme.com"; "c@gmail.com"]) None
     = ["a@acme.com"; "b@x.org"].
Proof.
  assert ("ACME.com" <> EmptyString) as Hne by discriminate.
  refine (conj Hne (conj _ _)).
  - exact (filter_blacklisted_emails_target
             (pyset ["b@x.org"; "a@acme.com"; "c@gmail.com"]) "ACME.com" Hne).
  - vm_compute. reflexivity.
Defined.

(** ** The run: requests made and candidates found *)

Lemma search_web_standalone_text_requests be query searx_url pages n :
  n <= snd (search_web_standalone_text be query searx_url pages n)
  /\ snd (search_web_standalone_text be query searx_url pages n) <= n + pages.
Proof.
  unfold search_web_standalone_text. destruct (negb _); [cbn [snd]; lia|].
  destruct (SearXNGClient searx_url) as [base|]; [|cbn [snd]; lia].
  unfold search.
  pose proof (search_loop_requests be base query pages pages 1 EmptyString n). lia.
Qed.

(** The loop over the queries only adds candidates, every candidate it
    adds is extracted from a text, and it makes at most [PAGES_PER_QUERY]
    requests for each query. *)
Lemma run_queries_grows be fmt a searx_url templates :
  forall found n found' n',
    run_queries be fmt a searx_url templates found n = Some (found', n') ->
    found ⊆ found'
    /\ n <= n' /\ n' <= n + PAGES_PER_QUERY * List.length templates
    /\ forall e, e ∈ found' ->
         e ∈ found \/ exists text, e ∈ extract_emails_from_text text.
Proof.
  induction templates as [|t ts IH]; intros found n found' n'.
  - simpl. intros [= <- <-]. repeat split; [set_solver|lia..|auto].
  - cbn [run_queries]. destruct (render fmt a t) as [q|]; [|discriminate].
    pose proof (search_web_standalone_text_requests be q searx_url
                  PAGES_PER_QUERY n) as Hreq.
    destruct (search_web_standalone_text be q searx_url PAGES_PER_QUERY n)
      as [text n1]. cbn [snd] in Hreq.
    set (found1 := if Str.truthy text then _ else _).
    assert (found ⊆ found1
            /\ forall e, e ∈ found1 ->
                 e ∈ found \/ exists text, e ∈ extract_emails_from_text text)
      as [Hsub Horig].
    { unfold found1. destruct (Str.truthy text); [|split; [reflexivity|auto]].
      destruct (decide _); [split; [reflexivity|auto]|].
      split; [apply union_subseteq_l|]. intros e He. apply elem_of_union in He as [He|He];
        [now left|right; now exists text]. }
    intros H. apply IH in H as (Hsub' & Hn & Hn' & Horig').
    cbn [List.length]. repeat split; [now transitivity found1|lia|lia|].
    intros e He. apply Horig' in He as [He|He]; [now apply Horig|now right].
Qed.

Lemma query_templates_length ceo_name target :
  List.length (query_templates ceo_name target) <= 10.
Proof.
  unfold query_templates, base_templates, permutation_templates.
  rewrite length_app.
  repeat match goal with |- context [if ?b then _ else _] => destruct b end;
    simpl; lia.
Qed.

Lemma run_queries_app be fmt a searx_url earlier later :
  forall found n,
    run_queries be fmt a searx_url (earlier ++ later) found n
    = match run_queries be fmt a searx_url earlier found n with
      | Some (found1, n1) => run_queries be fmt a searx_url later found1 n1
      | None => None
      end.
Proof.
  induction earlier as [|t ts IH]; intros found n; [reflexivity|].
  cbn [List.app run_queries]. destruct (render fmt a t) as [q|]; [|reflexivity].
  destruct (search_web_standalone_text be q searx_url PAGES_PER_QUERY n)
    as [text n1].
  apply IH.
Qed.

(** The query loop, up to any query of the plan: the end of the plan when
    the run returns, the query before the one on which [format] raises
    when it does not.  At most two requests are made for each query
    sent, so at most twenty in all, and the set of candidates only grows
    from query to query: after the queries sent it holds the set after
    any earlier query, which holds the set the loop started with. *)
Theorem run_makes_at_most_twenty_requests
    (be : backend) (fmt : field_oracle) (a : format_args) (searx_url : string)
    (ceo_name target : option string) (sent rest : list string)
    (found found' : gset string) (n n' : nat) :
  query_templates ceo_name target = sent ++ rest ->
  run_queries be fmt a searx_url sent found n = Some (found', n') ->
  found ⊆ found'
  /\ n <= n' /\ n' <= n + PAGES_PER_QUERY * List.length sent /\ n' <= n + 20
  /\ forall earlier later,
       sent = earlier ++ later ->
       exists found1 n1,
         run_queries be fmt a searx_url earlier found n = Some (found1, n1)
         /\ found ⊆ found1 /\ found1 ⊆ found' /\ n <= n1 /\ n1 <= n'.
Proof.
  intros Hplan H. pose proof H as H0.
  apply run_queries_grows in H0 as (Hsub & Hn & Hn' & _).
  pose proof (query_templates_length ceo_name target) as Hlen.
  rewrite Hplan, length_app in Hlen.
  unfold PAGES_PER_QUERY in *. repeat split; [assumption|lia..|].
  intros earlier later ->. rewrite run_queries_app in H.
  destruct (run_queries be fmt a searx_url earlier found n) as [[found1 n1]|]
    eqn:E1; [|discriminate].
  apply run_queries_grows in E1 as (Hs1 & Hn1 & _).
  apply run_queries_grows in H as (Hs2 & Hn2 & _).
  exists found1, n1. repeat split; assumption.
Qed.

Lemma run_makes_at_most_twenty_requests_witness :
  query_templates (Some "Jane Doe") (Some "acme.com")
  = query_templates (Some "Jane Doe") (Some "acme.com") ++ []
  /\ run_queries flaky no_other_field
       {| kw_name := "Jane Doe"; kw_domain := "acme.com"; kw_search_name := "acme" |}
       "http://localhost:8080"
       (query_templates (Some "Jane Doe") (Some "acme.com")) ∅ 0
     = Some (pyset ["jane@acme.com"; "sales@acme.com"], 11)
  /\ (∅ : gset string) ⊆ pyset ["jane@acme.com"; "sales@acme.com"]
  /\ 0 <= 11
  /\ 11 <= 0 + PAGES_PER_QUERY
              * List.length (query_templates (Some "Jane Doe") (Some "acme.com"))
  /\ 11 <= 0 + 20
  /\ forall earlier later,
       query_templates (Some "Jane Doe") (Some "acme.com") = earlier ++ later ->
       exists found1 n1,
         run_queries flaky no_other_field
           {| kw_name := "Jane Doe"; kw_domain := "acme.com";
              kw_search_name := "acme" |}
           "http://localhost:8080" earlier ∅ 0 = Some (found1, n1)
         /\ (∅ : gset string) ⊆ found1
         /\ found1 ⊆ pyset ["jane@acme.com"; "sales@acme.com"]
         /\ 0 <= n1 /\ n1 <= 11.
Proof.
  assert (query_templates (Some "Jane Doe") (Some "acme.com")
          = query_templates (Some "Jane Doe") (Some "acme.com") ++ []) as Hplan
    by (symmetry; apply List.app_nil_r).
  assert (run_queries flaky no_other_field
            {| kw_name := "Jane Doe"; kw_domain := "acme.com";
               kw_search_name := "acme" |}
            "http://localhost:8080"
            (query_templates (Some "Jane Doe") (Some "acme.com")) ∅ 0
          = Some (pyset ["jane@acme.com"; "sales@acme.com"], 11)) as H
    by (vm_compute; reflexivity).
  refine (conj Hplan (conj H _)).
  exact (run_makes_at_most_twenty_requests flaky no_other_field _ _
           (Some "Jane Doe") (Some "acme.com") _ [] _ _ _ _ Hplan H).
Defined.

Section Barren.

Variable be : backend.
Variable fmt : field_oracle.

(** The search service never answers with a page that has results. *)
Hypothesis barren : forall n url hits, be n url = Page hits -> hits = [].

Lemma search_loop_barren base_url query max_pages fuel page n :
  fst (search_loop be base_url query max_pages fuel page EmptyString n)
  = EmptyString.
Proof.
  destruct fuel as [|fuel]; [reflexivity|]. rewrite search_loop_S.
  destruct (Nat.leb page max_pages); [|reflexivity].
  destruct (be n _) as [[|h hs]| | | |] eqn:E; try reflexivity.
  apply barren in E. discriminate.
Qed.

Lemma search_web_standalone_text_barren query searx_url pages n :
  fst (search_web_standalone_text be query searx_url pages n) = EmptyString.
Proof.
  unfold search_web_standalone_text. destruct (negb _); [reflexivity|].
  destruct (SearXNGClient searx_url); [|reflexivity].
  apply search_loop_barren.
Qed.

Lemma run_queries_barren a searx_url templates :
  forall found n r,
    run_queries be fmt a searx_url templates found n = Some r -> fst r = found.
Proof.
  induction templates as [|t ts IH]; intros found n r; cbn [run_queries].
  - now intros [= <-].
  - destruct (render fmt a t) as [q|]; [|discriminate].
    pose proof (search_web_standalone_text_barren q searx_url PAGES_PER_QUERY n)
      as Ht.
    destruct (search_web_standalone_text be q searx_url PAGES_PER_QUERY n)
      as [text n1]. simpl in Ht. subst text. simpl. apply IH.
Qed.

End Barren.

(** When the search service has no results for any query (empty pages,
    or failures), the run finds no address. *)
Theorem no_results_no_emails
    (chk : string -> bool) (be : backend) (fmt : field_oracle) (company_input : string)
    (ceo_name : option string) (searx_url : string) (r : result_dict) :
  (forall n url hits, be n url = Page hits -> hits = []) ->
  find_emails_logic chk be fmt company_input ceo_name searx_url = Some r ->
  found_emails r = [].
Proof.
  intros Hb. unfold find_emails_logic.
  destruct (determine_domain_and_name chk company_input) as [name domain].
  destruct (run_queries _ _ _ _ _ _ _) as [[found n]|] eqn:E; [|discriminate].
  apply (run_queries_barren be fmt Hb) in E. simpl in E. subst found.
  intros [= <-]. simpl. now destruct (decide _).
Qed.

Lemma no_results_no_emails_witness :
  (forall n url hits, no_results n url = Page hits -> hits = [])
  /\ find_emails_logic accept_any no_results no_other_field "acme.com" (Some "Jane Doe")
       "http://localhost:8080"
     = Some {| details := {| search_name := "acme";
                             target_domain := Some "acme.com" |};
               found_emails := [];
               error := None |}
  /\ found_emails {| details := {| search_name := "acme";
                                   target_domain := Some "acme.com" |};
                     found_emails := [];
                     error := None |} = [].
Proof.
  assert (forall n url hits, no_results n url = Page hits -> hits = []) as Hb
    by (intros n url hits [= <-]; reflexivity).
  assert (find_emails_logic accept_any no_results no_other_field "acme.com" (Some "Jane Doe")
            "http://localhost:8080"
          = Some {| details := {| search_name := "acme";
                                  target_domain := Some "acme.com" |};
                    found_emails := [];
                    error := None |}) as Hr by (vm_compute; reflexivity).
  refine (conj Hb (conj Hr _)).
  exact (no_results_no_emails accept_any no_results no_other_field "acme.com" (Some "Jane Doe")
           "http://localhost:8080" _ Hb Hr).
Defined.

Lemma extract_emails_from_text_address text e :
  e ∈ extract_emails_from_text text ->
  exists l d t, e = address l d t /\ email_parts l d t /\ Str.lower e = e.
Proof.
  intros He. apply extract_emails_from_text_spec in He as (m & Hm & ->).
  apply findall_email in Hm as (pre & post & l & d & t & _ & -> & Hp).
  destruct (email_parts_lower _ _ _ Hp) as [Hlow El].
  exists (Str.lower l), (Str.lower d), (Str.lower t).
  repeat split; try assumption; try apply Hlow. apply lower_idempotent.
Qed.

Lemma split1_app sep a b :
  Str.count sep a = 0 -> Str.split1 sep (a +:+ String sep b) = [a; b].
Proof.
  induction a as [|c a IH].
  - intros _. rewrite app_nil_l. simpl. now rewrite Ascii.eqb_refl.
  - simpl Str.count. rewrite app_cons. simpl Str.split1.
    destruct (Ascii.eqb c sep); [discriminate|]. intros H. now rewrite IH.
Qed.

Lemma address_domain_part l d t :
  email_parts l d t -> domain_part (address l d t) = Some (d +:+ "." +:+ t).
Proof.
  intros (Hl & _). unfold domain_part, address.
  change ("@" +:+ d +:+ "." +:+ t) with (String "@" (d +:+ "." +:+ t)).
  rewrite split1_app; [reflexivity|].
  exact (forallb_count _ "@" _ Hl eq_refl).
Qed.

(** Every address a run returns has the shape of an address (a local
    part, an [@], a domain, a dot and a final label of two or more
    letters), is in lower case, and has the text after its [@] as its
    domain part. *)
Theorem found_emails_are_addresses
    (chk : string -> bool) (be : backend) (fmt : field_oracle) (company_input : string)
    (ceo_name : option string) (searx_url : string) (r : result_dict) (e : string) :
  find_emails_logic chk be fmt company_input ceo_name searx_url = Some r ->
  e ∈ found_emails r ->
  exists l d t,
    e = address l d t /\ email_parts l d t /\ Str.lower e = e
    /\ domain_part e = Some (d +:+ "." +:+ t).
Proof.
  unfold find_emails_logic.
  destruct (determine_domain_and_name chk company_input) as [name domain].
  destruct (run_queries _ _ _ _ _ _ _) as [[found n]|] eqn:E; [|discriminate].
  apply run_queries_grows in E as (_ & _ & _ & Horig).
  intros [= <-]. simpl. destruct (decide _); [intros He; inversion He|].
  intros He. apply elem_of_filter_blacklisted_emails in He as [He _].
  apply Horig in He as [He|[text He]]; [set_solver|].
  apply extract_emails_from_text_address in He as (l & d & t & -> & Hp & Hlow).
  exists l, d, t. repeat split; try assumption; try apply Hp.
  now apply address_domain_part.
Qed.

Lemma found_emails_are_addresses_witness :
  find_emails_logic accept_any flaky no_other_field "acme.com" None "http://localhost:8080"
  = Some flaky_result
  /\ "jane@acme.com" ∈ found_emails flaky_result
  /\ exists l d t,
       "jane@acme.com" = address l d t /\ email_parts l d t
       /\ Str.lower "jane@acme.com" = "jane@acme.com"
       /\ domain_part "jane@acme.com" = Some (d +:+ "." +:+ t).
Proof.
  assert (find_emails_logic accept_any flaky no_other_field "acme.com" None
            "http://localhost:8080" = Some flaky_result) as Hr
    by (vm_compute; reflexivity).
  assert ("jane@acme.com" ∈ found_emails flaky_result) as He
    by apply list_elem_of_here.
  refine (conj Hr (conj He _)).
  exact (found_emails_are_addresses accept_any flaky no_other_field "acme.com" None
           "http://localhost:8080" flaky_result "jane@acme.com" Hr He).
Defined.

(** ** The target domain of a run *)

(** An input without a dot has no domain. *)
Theorem sanitize_url_needs_dot (chk : string -> bool) (url : string) :
  Str.contains "." url = false -> sanitize_url chk url = None.
Proof.
  intros Hdot. destruct (sanitize_url chk url) as [d|] eqn:E; [|reflexivity].
  apply sanitize_url_dot in E as (E & _). congruence.
Qed.

Lemma sanitize_url_needs_dot_witness :
  Str.contains "." "http://localhost:8080/" = false
  /\ sanitize_url accept_any "http://localhost:8080/" = None.
Proof.
  split; [reflexivity|].
  exact (sanitize_url_needs_dot accept_any "http://localhost:8080/" eq_refl).
Defined.

Lemma determine_domain_and_name_sanitized chk company_input :
  snd (determine_domain_and_name chk company_input) = sanitize_url chk company_input
  /\ (sanitize_url chk company_input = None ->
      fst (determine_domain_and_name chk company_input) = company_input).
Proof.
  destruct (sanitize_url chk company_input) as [d|] eqn:E.
  - rewrite (determine_domain_and_name_Some _ _ _ E). now split.
  - unfold determine_domain_and_name. rewrite E.
    destruct (Str.contains "." company_input); now split.
Qed.

(** Step 1 of a run sets the target domain to what the normalisation
    makes of the company input, and to null when it makes nothing of it;
    the search name is then the company input as given.  Every run that
    returns carries this domain and this name in its result. *)
Theorem run_target_domain (chk : string -> bool) (company_input : string) :
  snd (determine_domain_and_name chk company_input)
  = sanitize_url chk company_input
  /\ (sanitize_url chk company_input = None ->
      determine_domain_and_name chk company_input = (company_input, None))
  /\ (forall be fmt ceo_name searx_url r,
        find_emails_logic chk be fmt company_input ceo_name searx_url = Some r ->
        target_domain (details r) = sanitize_url chk company_input
        /\ search_name (details r)
           = fst (determine_domain_and_name chk company_input)).
Proof.
  destruct (determine_domain_and_name_sanitized chk company_input) as [H1 H2].
  split; [exact H1|]. split.
  - intros Hn. specialize (H2 Hn). rewrite Hn in H1.
    destruct (determine_domain_and_name chk company_input) as [name domain].
    simpl in H1, H2. now subst.
  - intros be fmt ceo_name searx_url r H.
    apply find_emails_logic_details in H as [H _].
    rewrite H in H1. simpl in H1. rewrite H. now split.
Qed.

Lemma run_target_domain_witness :
  find_emails_logic accept_any no_results no_other_field "Acme Corp" None
    "http://localhost:8080"
  = Some {| details := {| search_name := "Acme Corp"; target_domain := None |};
            found_emails := [];
            error := None |}
  /\ sanitize_url accept_any "Acme Corp" = None
  /\ determine_domain_and_name accept_any "Acme Corp" = ("Acme Corp", None)
  /\ None = sanitize_url accept_any "Acme Corp"
  /\ "Acme Corp" = fst (determine_domain_and_name accept_any "Acme Corp").
Proof.
  assert (find_emails_logic accept_any no_results no_other_field "Acme Corp" None
            "http://localhost:8080"
          = Some {| details := {| search_name := "Acme Corp";
                                  target_domain := None |};
                    found_emails := [];
                    error := None |}) as Hr by (vm_compute; reflexivity).
  assert (sanitize_url accept_any "Acme Corp" = None) as Hn by reflexivity.
  destruct (run_target_domain accept_any "Acme Corp") as (_ & H2 & H3).
  exact (conj Hr (conj Hn (conj (H2 Hn)
           (H3 no_results no_other_field None "http://localhost:8080" _ Hr)))).
Defined.

(** ** [main]: the text output and the exit status *)









(** ** The plan of a run without a contact name *)

Ltac render_each :=
  repeat match goal with
         | |- context [render ?f ?a ?t] =>
             let H := fresh in
             eassert (render f a t = Some _) as H
               by (apply render_apart; [format_template|solve_apart]);
             rewrite H; clear H
         end.

Lemma query_templates_without_name ceo_name target :
  truthy_opt ceo_name = false ->
  query_templates ceo_name target
  = if truthy_opt target then templates_domain_only else templates_company_only.
Proof.
  intros Hc. unfold query_templates, base_templates, permutation_templates.
  rewrite Hc. cbn [andb negb]. rewrite andb_true_r.
  destruct (truthy_opt target); reflexivity.
Qed.

Section DomainOnly.

Variable fmt : field_oracle.
Variables name domain search : string.

Let a := {| kw_name := name; kw_domain := domain; kw_search_name := search |}.

Lemma render_templates_domain_only :
  plain domain ->
  mapM (render fmt a) templates_domain_only
  = Some [ dquote +:+ domain +:+ dquote +:+ " email address";
           "contact OR support email " +:+ dquote +:+ domain +:+ dquote;
           dquote +:+ domain +:+ dquote +:+ " company contact";
           "site:" +:+ domain +:+ " email OR contact" ].
Proof.
  intros Hd. unfold templates_domain_only. cbn [mapM]. render_each. reflexivity.
Qed.

Lemma render_templates_company_only :
  plain search ->
  mapM (render fmt a) templates_company_only
  = Some [ dquote +:+ search +:+ dquote +:+ " contact email";
           dquote +:+ search +:+ dquote +:+ " customer service email";
           dquote +:+ search +:+ dquote +:+ " company email address";
           "email address for " +:+ dquote +:+ search +:+ dquote ].
Proof.
  intros Hs. unfold templates_company_only. cbn [mapM]. render_each. reflexivity.
Qed.

End DomainOnly.

(** Without a contact name the plan has four queries.  With a domain [d]
    they are the four queries for the quoted domain, the last one a
    [site:] query; without a domain they are the four queries for the
    quoted company input; and for an empty company input the clean-up
    takes the empty quotes out, which leaves four general queries. *)
Theorem query_plan_without_contact_name
    (chk : string -> bool) (fmt : field_oracle) (company_input : string) (ceo_name : option string) :
  truthy_opt ceo_name = false ->
  quote_free company_input ->
  (forall d, sanitize_url chk company_input = Some d ->
     query_plan chk fmt company_input ceo_name
     = Some [ dquote +:+ d +:+ dquote +:+ " email address";
              "contact OR support email " +:+ dquote +:+ d +:+ dquote;
              dquote +:+ d +:+ dquote +:+ " company contact";
              "site:" +:+ d +:+ " email OR contact" ])
  /\ (sanitize_url chk company_input = None ->
      company_input <> EmptyString ->
      query_plan chk fmt company_input ceo_name
      = Some [ dquote +:+ company_input +:+ dquote +:+ " contact email";
               dquote +:+ company_input +:+ dquote +:+ " customer service email";
               dquote +:+ company_input +:+ dquote +:+ " company email address";
               "email address for " +:+ dquote +:+ company_input +:+ dquote ])
  /\ (company_input = EmptyString ->
      query_plan chk fmt company_input ceo_name
      = Some [ "contact email"; "customer service email";
               "company email address"; "email address for" ]).
Proof.
  intros Hc Hq. split; [|split].
  - intros d Hs. unfold query_plan.
    rewrite (determine_domain_and_name_Some _ _ _ Hs). cbv beta iota.
    destruct (sanitize_url_dot _ _ _ Hs) as (_ & _ & Ht).
    rewrite (query_templates_without_name _ _ Hc). cbn [truthy_opt or_else].
    rewrite Ht. apply render_templates_domain_only. split.
    + intros ->. discriminate.
    + destruct (Str.contains _ d) eqn:Hx; [|reflexivity].
      unfold quote_free in Hq.
      now rewrite (sanitize_url_contains _ _ _ _ Hs lower_char_dquote eq_refl Hx)
        in Hq.
  - intros Hs Hne. unfold query_plan.
    destruct (determine_domain_and_name_sanitized chk company_input) as [H1 H2].
    specialize (H2 Hs). rewrite Hs in H1.
    destruct (determine_domain_and_name chk company_input) as [name domain].
    simpl in H1, H2. subst name domain.
    rewrite (query_templates_without_name _ _ Hc). cbn [truthy_opt].
    apply render_templates_company_only. now split.
  - intros ->. unfold query_plan.
    assert (determine_domain_and_name chk EmptyString = (EmptyString, None)) as ->
      by reflexivity.
    cbv beta iota. rewrite (query_templates_without_name _ _ Hc).
    cbn [truthy_opt]. vm_compute. reflexivity.
Qed.

Lemma query_plan_without_contact_name_witness :
  truthy_opt None = false
  /\ quote_free "https://www.acme.com/about"
  /\ sanitize_url accept_any "https://www.acme.com/about" = Some "acme.com"
  /\ query_plan accept_any no_other_field "https://www.acme.com/about" None
     = Some [ dquote +:+ "acme.com" +:+ dquote +:+ " email address";
              "contact OR support email " +:+ dquote +:+ "acme.com" +:+ dquote;
              dquote +:+ "acme.com" +:+ dquote +:+ " company contact";
              "site:" +:+ "acme.com" +:+ " email OR contact" ].
Proof.
  refine (conj eq_refl (conj eq_refl (conj eq_refl _))).
  exact (proj1 (query_plan_without_contact_name accept_any no_other_field
                  "https://www.acme.com/about" None eq_refl eq_refl)
           "acme.com" eq_refl).
Defined.

(** ** Addresses are found field by field *)

Section Separator.

Import Regex.

(** Every class of the pattern refuses the character [sep]. *)
Definition refuses (p : pattern) (sep : ascii) : Prop :=
  Forall (fun it => match it with
                    | One cls | Many _ cls => cls sep = false
                    end) p.

(** A match followed by more text. *)
Definition followed (r' : string) (o : option (string * string))
  : option (string * string) :=
  match o with
  | Some (m, r) => Some (m, r +:+ r')
  | None => None
  end.

Lemma span_sep cls a sep b :
  cls sep = false ->
  fst (Str.span cls (a +:+ String sep b)) = fst (Str.span cls a).
Proof.
  intros Hs. induction a as [|c a IH].
  - rewrite app_nil_l. simpl. now rewrite Hs.
  - rewrite app_cons. simpl. destruct (cls c); [|reflexivity].
    destruct (Str.span cls (a +:+ String sep b)), (Str.span cls a).
    simpl in *. now rewrite IH.
Qed.

Lemma length_span cls a : String.length (fst (Str.span cls a)) <= String.length a.
Proof.
  induction a as [|c a IH]; simpl; [lia|].
  destruct (cls c); [|simpl; lia].
  destruct (Str.span cls a). simpl in *. lia.
Qed.

Lemma take_sep k a r : k <= String.length a -> take k (a +:+ r) = take k a.
Proof.
  revert a. induction k as [|k IH]; intros a Hk; [now destruct a, r|].
  destruct a as [|c a]; [simpl in Hk; lia|].
  rewrite app_cons. simpl. rewrite IH; [reflexivity|simpl in Hk; lia].
Qed.

Lemma drop_sep k a r :
  k <= String.length a -> Str.drop k (a +:+ r) = Str.drop k a +:+ r.
Proof.
  revert a. induction k as [|k IH]; intros a Hk; [now destruct a, r|].
  destruct a as [|c a]; [simpl in Hk; lia|].
  rewrite app_cons. simpl. apply IH. simpl in Hk. lia.
Qed.

Lemma backoff_sep cont min a r' :
  (forall s, cont (s +:+ r') = followed r' (cont s)) ->
  forall n, n <= String.length a ->
    backoff cont min n (a +:+ r') = followed r' (backoff cont min n a).
Proof.
  intros Hcont. induction n as [|n IH]; intros Hn.
  - rewrite (backoff_eq cont min 0 (a +:+ r')), (backoff_eq cont min 0 a).
    destruct (Nat.ltb 0 min); [reflexivity|].
    rewrite drop_sep, take_sep, Hcont by assumption.
    now destruct (cont (Str.drop 0 a)) as [[m r]|].
  - rewrite (backoff_eq cont min (S n) (a +:+ r')), (backoff_eq cont min (S n) a).
    destruct (Nat.ltb (S n) min); [reflexivity|].
    rewrite drop_sep, take_sep, Hcont by assumption.
    destruct (cont (Str.drop (S n) a)) as [[m r]|]; [reflexivity|].
    apply IH. lia.
Qed.

(** A match does not reach over a character the pattern refuses. *)
Lemma match_here_sep p sep b :
  refuses p sep ->
  forall a, match_here p (a +:+ String sep b)
            = followed (String sep b) (match_here p a).
Proof.
  induction p as [|[cls|min cls] p IH]; intros Hp a.
  - reflexivity.
  - apply Forall_cons in Hp as [Hs Hp]. destruct a as [|c a].
    + rewrite app_nil_l. simpl. now rewrite Hs.
    + rewrite app_cons. simpl. destruct (cls c); [|reflexivity].
      rewrite (IH Hp). now destruct (match_here p a) as [[m r]|].
  - apply Forall_cons in Hp as [Hs Hp]. simpl.
    rewrite (span_sep _ _ _ _ Hs).
    apply backoff_sep; [exact (IH Hp)|apply length_span].
Qed.

Lemma length_append (a b : string) :
  String.length (a +:+ b) = String.length a + String.length b.
Proof. induction a as [|c a IH]; [reflexivity|]. rewrite app_cons. simpl. now rewrite IH. Qed.

(** The matches in two texts joined by a refused character are the
    matches in the first and the matches in the second. *)
Lemma findall_from_sep p sep b :
  refuses p sep -> match_here p (String sep b) = None ->
  forall a skip, skip <= String.length a ->
    findall_from p skip (a +:+ String sep b)
    = findall_from p skip a ++ findall_from p 0 b.
Proof.
  intros Hp Hsep. induction a as [|c a IH]; intros skip Hk.
  - rewrite app_nil_l. destruct skip; [|simpl in Hk; lia].
    cbn [findall_from]. now rewrite Hsep.
  - rewrite app_cons. cbn [findall_from].
    destruct skip as [|k]; [|apply IH; simpl in Hk; lia].
    rewrite <- app_cons, (match_here_sep _ _ _ Hp).
    destruct (match_here p (String c a)) as [[m r]|] eqn:E; simpl.
    + f_equal. apply IH. apply match_here_sound in E as [E _].
      apply (f_equal String.length) in E. rewrite length_append in E. simpl in E. lia.
    + apply IH. lia.
Qed.

End Separator.

Lemma extract_emails_from_text_findall text :
  extract_emails_from_text text
  = pyset (List.map Str.lower (Regex.findall EMAIL_REGEX text)).
Proof. now destruct text. Qed.

(** The addresses in two texts joined by a line end are those of the
    first and those of the second. *)
Lemma extract_emails_from_text_lines a b :
  extract_emails_from_text (a +:+ newline +:+ b)
  = extract_emails_from_text a ∪ extract_emails_from_text b.
Proof.
  rewrite !extract_emails_from_text_findall. unfold Regex.findall, pyset.
  change (newline +:+ b) with (String (ascii_of_N 10) b).
  rewrite findall_from_sep.
  - now rewrite List.map_app, list_to_set_app_L.
  - repeat constructor.
  - reflexivity.
  - lia.
Qed.

(** The text of one result, as lines. *)
Definition hit_lines (h : hit) : list string :=
  match h with
  | Hit title content =>
      [or_else title EmptyString; or_else content EmptyString; EmptyString]
  | NotAnObject => []
  end.

Fixpoint lines_text (ls : list string) : string :=
  match ls with
  | [] => EmptyString
  | l :: ls' => l +:+ newline +:+ lines_text ls'
  end.

Lemma lines_text_app ls ks :
  lines_text (ls ++ ks) = lines_text ls +:+ lines_text ks.
Proof.
  induction ls as [|l ls IH]; [reflexivity|].
  simpl. now rewrite IH, !app_assoc.
Qed.

Lemma append_hits_lines hits text :
  forallb is_object hits = true ->
  fst (append_hits hits text) = text +:+ lines_text (flat_map hit_lines hits).
Proof.
  revert text. induction hits as [|[t c|] hits IH]; intros text H;
    simpl in *; [now rewrite app_nil_r| |discriminate].
  rewrite (IH _ H). unfold hit_text. now rewrite !app_assoc.
Qed.

Lemma aggregate_lines pages :
  Forall (fun page => forallb is_object page = true) pages ->
  aggregate pages = lines_text (flat_map hit_lines (List.concat pages)).
Proof.
  unfold aggregate. intros H.
  assert (forall text,
            fold_left (fun text page => fst (append_hits page text)) pages text
            = text +:+ lines_text (flat_map hit_lines (List.concat pages))) as Hf.
  { induction H as [|page pages Hp H IH]; intros text; simpl.
    - now rewrite app_nil_r.
    - rewrite IH, (append_hits_lines _ _ Hp), flat_map_app, lines_text_app.
      now rewrite app_assoc. }
  now rewrite Hf.
Qed.

Lemma extract_emails_from_lines ls e :
  e ∈ extract_emails_from_text (lines_text ls)
  <-> exists l, In l ls /\ e ∈ extract_emails_from_text l.
Proof.
  induction ls as [|l ls IH]; simpl.
  - split; [set_solver|]. now intros (l & [] & _).
  - rewrite extract_emails_from_text_lines, elem_of_union, IH. split.
    + intros [H|(k & Hk & H)]; [exists l|exists k]; auto.
    + intros (k & [<-|Hk] & H); [now left|right; now exists k].
Qed.

(** The addresses extracted from the text of complete pages are the
    addresses extracted from the titles and the contents of their
    results, one field at a time: no address is made of the end of one
    field and the start of the next. *)
Theorem addresses_come_from_fields (pages : list (list hit)) (e : string) :
  Forall (fun page => forallb is_object page = true) pages ->
  e ∈ extract_emails_from_text (aggregate pages)
  <-> exists page title content,
        In page pages /\ In (Hit title content) page
        /\ (e ∈ extract_emails_from_text (or_else title EmptyString)
            \/ e ∈ extract_emails_from_text (or_else content EmptyString)).
Proof.
  intros H. rewrite (aggregate_lines _ H), extract_emails_from_lines. split.
  - intros (l & Hl & He). apply in_flat_map in Hl as (h & Hh & Hl).
    apply in_concat in Hh as (page & Hpage & Hh).
    destruct h as [title content|]; [|destruct Hl].
    exists page, title, content. repeat split; try assumption.
    destruct Hl as [<-|[<-|[<-|[]]]]; [now left|now right|].
    rewrite extract_emails_from_text_findall in He. set_solver.
  - intros (page & title & content & Hpage & Hh & He).
    assert (forall l, In l (hit_lines (Hit title content)) ->
              In l (flat_map hit_lines (List.concat pages))) as Hin.
    { intros l Hl. apply in_flat_map. exists (Hit title content).
      split; [|assumption]. apply in_concat. now exists page. }
    destruct He as [He|He]; eexists; (split; [apply Hin|exact He]); simpl; auto.
Qed.

Lemma addresses_come_from_fields_witness :
  Forall (fun page => forallb is_object page = true) [three_hits]
  /\ ("sales@acme.com" ∈ extract_emails_from_text (aggregate [three_hits])
      <-> exists page title content,
            In page [three_hits] /\ In (Hit title content) page
            /\ ("sales@acme.com" ∈ extract_emails_from_text (or_else title EmptyString)
                \/ "sales@acme.com"
                   ∈ extract_emails_from_text (or_else content EmptyString))).
Proof.
  assert (Forall (fun page => forallb is_object page = true) [three_hits]) as H
    by (repeat constructor).
  split; [exact H|].
  exact (addresses_come_from_fields [three_hits] "sales@acme.com" H).
Defined.

(** ** An address that stands apart is found as it is *)

Section Isolated.

Import Regex.

(** The search backwards stops at the first length, from the longest
    down, at which the continuation matches. *)
Lemma backoff_first cont min s k m r :
  min <= k ->
  cont (Str.drop k s) = Some (m, r) ->
  forall n, k <= n ->
    (forall j, k < j -> j <= n -> cont (Str.drop j s) = None) ->
    backoff cont min n s = Some (take k s +:+ m, r).
Proof.
  intros Hmin Hk. induction n as [|n IH]; intros Hn Hnone; rewrite backoff_eq.
  - assert (k = 0) as -> by lia.
    destruct (Nat.ltb_spec 0 min); [lia|]. now rewrite Hk.
  - destruct (Nat.ltb_spec (S n) min); [lia|].
    destruct (Nat.eq_dec k (S n)) as [->|Hne]; [now rewrite Hk|].
    rewrite (Hnone (S n)) by lia. apply IH; [lia|].
    intros j Hj1 Hj2. apply Hnone; lia.
Qed.

Lemma span_run cls a r :
  Str.forallb cls a = true ->
  match r with String c _ => cls c = false | EmptyString => True end ->
  String.length (fst (Str.span cls (a +:+ r))) = String.length a.
Proof.
  intros Ha Hr. induction a as [|c a IH].
  - rewrite app_nil_l. destruct r as [|c r]; [reflexivity|]. simpl. now rewrite Hr.
  - simpl in Ha. apply andb_true_iff in Ha as [Hc Ha]. rewrite app_cons. simpl.
    rewrite Hc. specialize (IH Ha). destruct (Str.span cls (a +:+ r)).
    simpl in *. now rewrite IH.
Qed.

Lemma take_append a r : take (String.length a) (a +:+ r) = a.
Proof.
  induction a as [|c a IH]; [now destruct r|].
  rewrite app_cons. simpl. now rewrite IH.
Qed.

Lemma match_here_One cls p c s :
  match_here (One cls :: p) (String c s)
  = if cls c
    then match match_here p s with
         | Some (m, r) => Some (String c m, r)
         | None => None
         end
    else None.
Proof. reflexivity. Qed.

Lemma match_here_Many min cls p s :
  match_here (Many min cls :: p) s
  = backoff (match_here p) min (String.length (fst (Str.span cls s))) s.
Proof. reflexivity. Qed.

(** The final label: all of [t], when what follows is no letter. *)
Lemma match_label t post :
  Str.forallb Char.is_alpha t = true -> 2 <= String.length t ->
  match post with String c _ => Char.is_alpha c = false | EmptyString => True end ->
  match_here [Many 2 Char.is_alpha] (t +:+ post) = Some (t, post).
Proof.
  intros Ht Hl Hpost. rewrite match_here_Many.
  rewrite (span_run _ _ _ Ht Hpost).
  rewrite (backoff_first _ 2 _ (String.length t) EmptyString post);
    [now rewrite take_append, app_nil_r|assumption| |lia|intros; lia].
  now rewrite drop_append.
Qed.

Lemma drop_inside j a r :
  j < String.length a ->
  exists c a', Str.drop j (a +:+ r) = String c (a' +:+ r) /\ Str.contains c a = true.
Proof.
  revert a. induction j as [|j IH]; intros [|c a] Hj; simpl in Hj; try lia.
  - exists c, a. rewrite app_cons. simpl. now rewrite Ascii.eqb_refl.
  - destruct (IH a) as (x & a' & E & Hx); [lia|].
    exists x, a'. rewrite app_cons. simpl. rewrite E, Hx.
    split; [reflexivity|apply orb_true_r].
Qed.

(** The domain and the final label: the search backwards from the end of
    the run of domain characters stops at the dot before [t]. *)
Lemma match_domain d t post :
  Str.forallb domain_char d = true -> 1 <= String.length d ->
  Str.forallb Char.is_alpha t = true -> 2 <= String.length t ->
  match post with String c _ => domain_char c = false | EmptyString => True end ->
  match_here [Many 1 domain_char; One (Char.is_char "."); Many 2 Char.is_alpha]
    (d +:+ "." +:+ t +:+ post)
  = Some (d +:+ "." +:+ t, post).
Proof.
  intros Hd Hdl Ht Htl Hpost.
  assert (match post with
          | String c _ => Char.is_alpha c = false
          | EmptyString => True
          end) as Hpost'.
  { destruct post as [|c post]; [exact I|].
    revert Hpost. clear. destruct c as [[] [] [] [] [] [] [] []]; vm_compute; congruence. }
  assert (Str.forallb domain_char ("." +:+ t) = true) as Hdt.
  { rewrite forallb_app. simpl.
    apply (forallb_weaken Char.is_alpha); [|assumption].
    clear. intros c. destruct c as [[] [] [] [] [] [] [] []]; vm_compute; congruence. }
  rewrite match_here_Many.
  replace (d +:+ "." +:+ t +:+ post) with ((d +:+ "." +:+ t) +:+ post)
    by now rewrite !app_assoc.
  rewrite span_run; [|now rewrite forallb_app, Hd|assumption].
  rewrite !app_assoc.
  rewrite (backoff_first _ 1 _ (String.length d) ("." +:+ t) post).
  - now rewrite take_append.
  - assumption.
  - rewrite drop_append.
    change ("." +:+ t +:+ post) with (String "." (t +:+ post)).
    rewrite match_here_One, (match_label _ _ Ht Htl Hpost'). reflexivity.
  - rewrite length_append. lia.
  - intros j Hj1 Hj2. rewrite length_append in Hj2.
    change (String.length ("." +:+ t)) with (S (String.length t)) in Hj2.
    replace j with (String.length d + S (j - String.length d - 1)) by lia.
    assert (forall k s, Str.drop (String.length d + k) (d +:+ s) = Str.drop k s)
      as Hdrop.
    { intros k s. clear. induction d as [|c d IH]; [reflexivity|]. exact IH. }
    rewrite Hdrop. change ("." +:+ t +:+ post) with (String "." (t +:+ post)).
    cbn [Str.drop].
    destruct (Nat.eq_dec (j - String.length d - 1) (String.length t)) as [E|E].
    + rewrite E, drop_append. destruct post as [|c post]; [reflexivity|].
      rewrite match_here_One.
      destruct (Char.is_char "." c) eqn:Hc; [|reflexivity].
      apply Ascii.eqb_eq in Hc. subst c. discriminate.
    + destruct (drop_inside (j - String.length d - 1) t post) as (c & t' & -> & Hc);
        [lia|].
      rewrite match_here_One.
      destruct (Char.is_char "." c) eqn:Hx; [|reflexivity].
      apply Ascii.eqb_eq in Hx. subst c.
      now rewrite (forallb_contains _ "." _ Ht eq_refl) in Hc.
Qed.

(** The whole address at the start of a text. *)
Lemma match_address l d t post :
  email_parts l d t ->
  match post with String c _ => domain_char c = false | EmptyString => True end ->
  match_here EMAIL_REGEX (address l d t +:+ post) = Some (address l d t, post).
Proof.
  intros (Hl & Hll & Hd & Hdl & Ht & Htl) Hpost.
  unfold EMAIL_REGEX, address. rewrite match_here_Many, !app_assoc.
  rewrite span_run; [|assumption|reflexivity].
  rewrite (backoff_first _ 1 _ (String.length l)
             ("@" +:+ d +:+ "." +:+ t) post).
  - now rewrite take_append.
  - assumption.
  - rewrite drop_append.
    change ("@" +:+ d +:+ "." +:+ t +:+ post)
      with (String "@" (d +:+ "." +:+ t +:+ post)).
    rewrite match_here_One, (match_domain _ _ _ Hd Hdl Ht Htl Hpost).
    reflexivity.
  - lia.
  - intros; lia.
Qed.

End Isolated.

(** An address that stands apart in the text is found as it is: when it
    is at the start of the text or after a character that can be no part
    of an address, and at the end of the text or before a character that
    can be no part of a domain, the extractor returns it, in lower
    case. *)
Theorem extract_isolated_address (text before after l d t : string) :
  email_parts l d t ->
  text = before +:+ address l d t +:+ after ->
  (before = EmptyString
   \/ exists pre sep, before = pre +:+ String sep EmptyString
                      /\ local_char sep = false /\ sep <> "@"%char) ->
  (after = EmptyString
   \/ exists c post, after = String c post /\ domain_char c = false) ->
  Str.lower (address l d t) ∈ extract_emails_from_text text.
Proof.
  intros Hp -> Hb Ha.
  assert (match_here_address :
            Regex.match_here EMAIL_REGEX (address l d t +:+ after)
            = Some (address l d t, after)).
  { apply match_address; [assumption|].
    destruct Ha as [->|(c & post & -> & Hc)]; [exact I|assumption]. }
  assert (In (address l d t)
            (Regex.findall_from EMAIL_REGEX 0 (address l d t +:+ after))) as Hin.
  { destruct (address l d t +:+ after) as [|c s] eqn:E.
    - destruct Hp as (_ & Hl & _). unfold address in E.
      destruct l; [simpl in Hl; lia|]. rewrite app_cons in E. discriminate.
    - cbn [Regex.findall_from]. rewrite match_here_address. now left. }
  rewrite extract_emails_from_text_findall. unfold pyset, Regex.findall.
  rewrite elem_of_list_to_set, list_elem_of_In. apply in_map.
  destruct Hb as [->|(pre & sep & -> & Hsep & Hat)]; [now rewrite app_nil_l|].
  rewrite app_assoc. rewrite app_cons, app_nil_l.
  rewrite findall_from_sep.
  - apply in_or_app. now right.
  - unfold EMAIL_REGEX, refuses. repeat constructor; try assumption.
    + unfold Char.is_char. now apply Ascii.eqb_neq.
    + revert Hsep. clear. destruct sep as [[] [] [] [] [] [] [] []]; vm_compute; congruence.
    + revert Hsep. clear. destruct sep as [[] [] [] [] [] [] [] []]; vm_compute; congruence.
    + revert Hsep. clear. destruct sep as [[] [] [] [] [] [] [] []]; vm_compute; congruence.
  - unfold EMAIL_REGEX. cbn [Regex.match_here Str.span]. rewrite Hsep.
    cbn [fst String.length]. now rewrite backoff_eq.
  - lia.
Qed.

Lemma extract_isolated_address_witness :
  email_parts "Jane.Doe" "mail.ACME" "com"
  /\ "Write to <Jane.Doe@mail.ACME.com>"
     = "Write to <" +:+ address "Jane.Doe" "mail.ACME" "com" +:+ ">"
  /\ ("Write to <" = EmptyString
      \/ exists pre sep, "Write to <" = pre +:+ String sep EmptyString
                         /\ local_char sep = false /\ sep <> "@"%char)
  /\ (">" = EmptyString
      \/ exists c post, ">" = String c post /\ domain_char c = false)
  /\ "jane.doe@mail.acme.com"
     ∈ extract_emails_from_text "Write to <Jane.Doe@mail.ACME.com>".
Proof.
  assert (email_parts "Jane.Doe" "mail.ACME" "com") as Hp.
  { unfold email_parts. simpl. repeat split; lia. }
  assert ("Write to <" = EmptyString
          \/ exists pre sep, "Write to <" = pre +:+ String sep EmptyString
                             /\ local_char sep = false /\ sep <> "@"%char) as Hb.
  { right. exists "Write to ", "<"%char. repeat split. discriminate. }
  assert (">" = EmptyString
          \/ exists c post, ">" = String c post /\ domain_char c = false) as Ha.
  { right. exists ">"%char, EmptyString. now split. }
  refine (conj Hp (conj eq_refl (conj Hb (conj Ha _)))).
  exact (extract_isolated_address "Write to <Jane.Doe@mail.ACME.com>"
           "Write to <" ">" "Jane.Doe" "mail.ACME" "com" Hp eq_refl Hb Ha).
Defined.

(** ** Trailing slashes of the endpoint *)

Lemma rstrip_by_all p t :
  Str.forallb p t = true -> Str.rstrip_by p t = EmptyString.
Proof.
  induction t as [|c t IH]; [reflexivity|]. simpl.
  intros H. apply andb_true_iff in H as [Hc Ht]. now rewrite (IH Ht), Hc.
Qed.

Lemma rstrip_by_append p s t :
  Str.forallb p t = true -> Str.rstrip_by p (s +:+ t) = Str.rstrip_by p s.
Proof.
  intros Ht. induction s as [|c s IH].
  - rewrite app_nil_l. now apply rstrip_by_all.
  - rewrite app_cons. simpl. now rewrite IH.
Qed.

Lemma SearXNGClient_slashes searx_url slashes :
  String.prefix "http://" searx_url = true
  \/ String.prefix "https://" searx_url = true ->
  Str.forallb (Char.is_char "/") slashes = true ->
  Str.truthy (searx_url +:+ slashes) = Str.truthy searx_url
  /\ SearXNGClient (searx_url +:+ slashes) = SearXNGClient searx_url.
Proof.
  intros Hs Hsl.
  assert (Str.truthy searx_url = true) as Ht.
  { destruct searx_url; [|reflexivity]. now destruct Hs. }
  assert (Str.truthy (searx_url +:+ slashes) = true) as Ht'.
  { destruct searx_url; [discriminate|reflexivity]. }
  split; [congruence|].
  assert (forall u, String.prefix "http://" u = true
                    \/ String.prefix "https://" u = true ->
                    Str.startswith_any ["http://"; "https://"] u = true) as Hany.
  { intros u [H|H]; unfold Str.startswith_any, Str.startswith; cbn [existsb];
      rewrite H; [reflexivity|apply orb_true_r]. }
  unfold SearXNGClient. rewrite Ht, Ht', (Hany _ Hs), Hany.
  - cbn [negb orb]. now rewrite rstrip_by_append.
  - destruct Hs as [H|H]; [left|right];
      exact (prefix_trans _ _ _ H (prefix_app _ _)).
Qed.

(** Slashes at the end of the endpoint make no difference to a run. *)
Theorem trailing_slashes_do_not_matter
    (chk : string -> bool) (be : backend) (fmt : field_oracle) (company_input : string)
    (ceo_name : option string) (searx_url slashes : string) :
  String.prefix "http://" searx_url = true
  \/ String.prefix "https://" searx_url = true ->
  Str.forallb (Char.is_char "/") slashes = true ->
  find_emails_logic chk be fmt company_input ceo_name (searx_url +:+ slashes)
  = find_emails_logic chk be fmt company_input ceo_name searx_url.
Proof.
  intros Hs Hsl. destruct (SearXNGClient_slashes _ _ Hs Hsl) as [Ht Hc].
  assert (forall query pages n,
            search_web_standalone_text be query (searx_url +:+ slashes) pages n
            = search_web_standalone_text be query searx_url pages n) as Hsearch.
  { intros query pages n. unfold search_web_standalone_text. now rewrite Ht, Hc. }
  assert (forall a templates found n,
            run_queries be fmt a (searx_url +:+ slashes) templates found n
            = run_queries be fmt a searx_url templates found n) as Hrun.
  { intros a templates. induction templates as [|t ts IH]; intros found n;
      [reflexivity|].
    cbn [run_queries]. destruct (render fmt a t) as [q|]; [|reflexivity].
    rewrite Hsearch.
    destruct (search_web_standalone_text be q searx_url PAGES_PER_QUERY n).
    apply IH. }
  unfold find_emails_logic.
  destruct (determine_domain_and_name chk company_input) as [name domain].
  now rewrite Hrun.
Qed.

Lemma trailing_slashes_do_not_matter_witness :
  (String.prefix "http://" "http://localhost:8080" = true
   \/ String.prefix "https://" "http://localhost:8080" = true)
  /\ Str.forallb (Char.is_char "/") "//" = true
  /\ find_emails_logic accept_any flaky no_other_field "acme.com" None
       ("http://localhost:8080" +:+ "//")
     = find_emails_logic accept_any flaky no_other_field "acme.com" None "http://localhost:8080"
  /\ find_emails_logic accept_any flaky no_other_field "acme.com" None "http://localhost:8080"
     = Some flaky_result.
Proof.
  refine (conj (or_introl eq_refl) (conj eq_refl (conj _ _))).
  - exact (trailing_slashes_do_not_matter accept_any flaky no_other_field "acme.com" None
             "http://localhost:8080" "//" (or_introl eq_refl) eq_refl).
  - vm_compute. reflexivity.
Defined.
